(** * A two-pass MIPS assembler and a dual-issue packet scheduler

    Shallow embedding of [Assembler.py] and [scheduler.py].  Source text is
    modelled as ASCII strings, Python integers as [Z], dictionaries as
    [gmap], sets of register numbers as [gset Z], and a raised exception as
    the [Raise] branch of [result]. *)

From Stdlib Require Import ZArith String Ascii List Lia Bool Permutation Sorted.
From stdpp Require Import base option gmap strings list sorting.

Local Open Scope string_scope.
Local Open Scope list_scope.
Local Open Scope Z_scope.

(** ** Exceptions *)

(** The Python exceptions the two programs can raise, tagged with the
    operation that raised them. *)
Inductive exn : Type :=
  | ValueError_int (literal : string)     (* int(): invalid literal *)
  | ValueError_unpack                     (* a, b = xs with len(xs) <> 2 *)
  | KeyError_registers (key : string)     (* registers[key] *)
  | KeyError_label_map (key : string)     (* label_map[key] *)
  | KeyError_func_codes (key : string)    (* func_codes[key] *)
  | KeyError_opcodes (key : string)       (* opcodes[key] *)
  | IndexError_list                       (* xs[i] out of range *)
  | AttributeError_None.                  (* None.splitlines() *)

Inductive result (A : Type) : Type :=
  | OK (a : A)
  | Raise (e : exn).
Arguments OK {A} a.
Arguments Raise {A} e.

#[global] Instance result_ret : MRet result := fun A a => OK a.
#[global] Instance result_bind : MBind result := fun A B f m =>
  match m with
  | OK a => f a
  | Raise e => Raise e
  end.

#[global] Instance result_fmap : FMap result := fun A B f m =>
  match m with
  | OK a => OK (f a)
  | Raise e => Raise e
  end.

Definition of_option {A} (e : exn) (o : option A) : result A :=
  match o with
  | Some a => OK a
  | None => Raise e
  end.

(** ** Python primitives *)

Module Py.

Definition code (c : ascii) : Z := Z.of_N (N_of_ascii c).

(** ASCII characters for which [str.isspace] holds; [str.strip] and
    [str.split] without argument use them. *)
Definition isspace (c : ascii) : bool :=
  let n := code c in
  ((9 <=? n) && (n <=? 13)) || ((28 <=? n) && (n <=? 32)).

(** Whitespace skipped by [int()] around a literal. *)
Definition int_isspace (c : ascii) : bool :=
  let n := code c in
  ((9 <=? n) && (n <=? 13)) || (n =? 32).

Definition lower_char (c : ascii) : ascii :=
  let n := code c in
  if (65 <=? n) && (n <=? 90) then ascii_of_N (Z.to_N (n + 32)) else c.

Fixpoint lower (s : string) : string :=
  match s with
  | EmptyString => EmptyString
  | String c r => String (lower_char c) (lower r)
  end.

Fixpoint lstrip (s : string) : string :=
  match s with
  | EmptyString => EmptyString
  | String c r => if isspace c then lstrip r else s
  end.

Fixpoint rstrip (s : string) : string :=
  match s with
  | EmptyString => EmptyString
  | String c r =>
      match rstrip r with
      | EmptyString => if isspace c then EmptyString else String c EmptyString
      | r' => String c r'
      end
  end.

Definition strip (s : string) : string := rstrip (lstrip s).

Fixpoint startswith (p s : string) : bool :=
  match p, s with
  | EmptyString, _ => true
  | String a p', String b s' => if Ascii.eqb a b then startswith p' s' else false
  | String _ _, EmptyString => false
  end.

Fixpoint endswith_char (c : ascii) (s : string) : bool :=
  match s with
  | EmptyString => false
  | String a EmptyString => Ascii.eqb a c
  | String _ r => endswith_char c r
  end.

(** [s[:-1]] *)
Fixpoint drop_last (s : string) : string :=
  match s with
  | EmptyString => EmptyString
  | String _ EmptyString => EmptyString
  | String a r => String a (drop_last r)
  end.

Fixpoint contains_char (c : ascii) (s : string) : bool :=
  match s with
  | EmptyString => false
  | String a r => Ascii.eqb a c || contains_char c r
  end.

(** [s.replace(a, b)] for one-character [a]; [b] may be empty. *)
Fixpoint replace_char (a : ascii) (b : string) (s : string) : string :=
  match s with
  | EmptyString => EmptyString
  | String c r =>
      if Ascii.eqb c a then b +:+ replace_char a b r
      else String c (replace_char a b r)
  end.

(** [s.split(sep)] for a one-character separator: never empty. *)
Fixpoint split_on (sep : ascii) (s : string) : list string :=
  match s with
  | EmptyString => [EmptyString]
  | String c r =>
      if Ascii.eqb c sep then EmptyString :: split_on sep r
      else match split_on sep r with
           | w :: ws => String c w :: ws
           | [] => [String c EmptyString]
           end
  end.

(** [s.split()]: the maximal runs of non-whitespace characters. *)
Fixpoint split (s : string) : list string :=
  match s with
  | EmptyString => []
  | String c r =>
      if isspace c then split r
      else match r with
           | EmptyString => [String c EmptyString]
           | String d _ =>
               if isspace d then String c EmptyString :: split r
               else match split r with
                    | w :: ws => String c w :: ws
                    | [] => [String c EmptyString]
                    end
           end
  end.

(** ASCII line boundaries of [str.splitlines]. *)
Definition islinebreak (c : ascii) : bool :=
  let n := code c in
  ((10 <=? n) && (n <=? 13)) || ((28 <=? n) && (n <=? 30)).

Fixpoint splitlines (s : string) : list string :=
  match s with
  | EmptyString => []
  | String c r =>
      if islinebreak c then
        match r with
        | String d r' =>
            if (code c =? 13) && (code d =? 10)
            then EmptyString :: splitlines r'
            else EmptyString :: splitlines r
        | EmptyString => [EmptyString]
        end
      else match splitlines r with
           | w :: ws => String c w :: ws
           | [] => [String c EmptyString]
           end
  end.

(** *** [int(s, base)] *)

Definition digit_value (c : ascii) : option Z :=
  let n := code c in
  if (48 <=? n) && (n <=? 57) then Some (n - 48)
  else if (97 <=? n) && (n <=? 122) then Some (n - 87)
  else if (65 <=? n) && (n <=? 90) then Some (n - 55)
  else None.

Definition is_digit (base : Z) (c : ascii) : bool :=
  match digit_value c with
  | Some d => d <? base
  | None => false
  end.

Definition is_underscore (c : ascii) : bool := Ascii.eqb c "_"%char.

(** Reads digits and single underscores from the left; stops at the first
    other character and returns the value read and the rest.  Two
    underscores in a row or an underscore at the end are refused. *)
Fixpoint scan_digits (base acc : Z) (prev_us : bool) (s : string)
  : option (Z * string) :=
  match s with
  | EmptyString => if prev_us then None else Some (acc, EmptyString)
  | String c r =>
      if is_underscore c then
        if prev_us then None else scan_digits base acc true r
      else
        match digit_value c with
        | Some d =>
            if d <? base then scan_digits base (acc * base + d) false r
            else if prev_us then None else Some (acc, s)
        | None => if prev_us then None else Some (acc, s)
        end
  end.

Fixpoint skip_space (s : string) : string :=
  match s with
  | EmptyString => EmptyString
  | String c r => if int_isspace c then skip_space r else s
  end.

Definition skip_sign (s : string) : bool * string :=
  match s with
  | String "+"%char r => (false, r)
  | String "-"%char r => (true, r)
  | _ => (false, s)
  end.

(** The prefix letter of a base: [0x], [0o], [0b]. *)
Definition prefix_letter (base : Z) (c : ascii) : bool :=
  let l := lower_char c in
  ((base =? 16) && Ascii.eqb l "x"%char)
  || ((base =? 8) && Ascii.eqb l "o"%char)
  || ((base =? 2) && Ascii.eqb l "b"%char).

(** After the prefix one underscore is allowed. *)
Definition skip_prefix (base : Z) (s : string) : string :=
  match s with
  | String "0"%char (String c r) =>
      if prefix_letter base c then
        match r with
        | String "_"%char r' => r'
        | _ => r
        end
      else s
  | _ => s
  end.

Definition first_is_digit (base : Z) (s : string) : bool :=
  match s with
  | String c _ => is_digit base c
  | EmptyString => false
  end.

(** The default of [sys.get_int_max_str_digits()]: since CPython 3.11 a
    literal of more digits is refused in a base that is not a power of
    two. *)
Definition max_str_digits : Z := 4300.

(** [(base & (base - 1)) == 0] *)
Definition binary_base (base : Z) : bool := Z.land base (base - 1) =? 0.

(** The number of digits of the literal that [scan_digits] reads:
    leading zeros count, underscores do not. *)
Fixpoint digit_count (base : Z) (s : string) : Z :=
  match s with
  | EmptyString => 0
  | String c r =>
      if is_underscore c then digit_count base r
      else if is_digit base c then 1 + digit_count base r
      else 0
  end.

Definition too_long (base : Z) (digits : string) : bool :=
  negb (binary_base base) && (max_str_digits <? digit_count base digits).

(** [int(s, base)] for an explicit base among 2, 8, 10 and 16; [None]
    stands for [ValueError]. *)
Definition int (s : string) (base : Z) : option Z :=
  let '(neg, body) := skip_sign (skip_space s) in
  let digits := skip_prefix base body in
  if first_is_digit base digits then
    match scan_digits base 0 false digits with
    | Some (v, rest) =>
        if too_long base digits then None
        else
          match skip_space rest with
          | EmptyString => Some (if neg then - v else v)
          | _ => None
          end
    | None => None
    end
  else None.

(** *** [format(n, '0Wb')] and [format(n, '0WX')] *)

Fixpoint bin_pos (p : positive) (acc : string) : string :=
  match p with
  | xH => String "1" acc
  | xO q => bin_pos q (String "0" acc)
  | xI q => bin_pos q (String "1" acc)
  end.

Definition hex_digit (d : Z) : ascii :=
  if d <? 10 then ascii_of_N (Z.to_N (48 + d)) else ascii_of_N (Z.to_N (55 + d)).

Fixpoint hex_nat (fuel : nat) (n : Z) (acc : string) : string :=
  match fuel with
  | O => acc
  | S f =>
      if n <? 16 then String (hex_digit n) acc
      else hex_nat f (n / 16) (String (hex_digit (n mod 16)) acc)
  end.

Fixpoint zeros (n : nat) : string :=
  match n with
  | O => EmptyString
  | S k => String "0" (zeros k)
  end.

(** Zero padding goes between the sign and the digits. *)
Definition zero_pad (width : nat) (neg : bool) (digits : string) : string :=
  let sign := if neg then "-" else "" in
  sign +:+ zeros (width - String.length sign - String.length digits) +:+ digits.

Definition format_b (width : nat) (n : Z) : string :=
  match n with
  | Z0 => zero_pad width false "0"
  | Zpos p => zero_pad width false (bin_pos p "")
  | Zneg p => zero_pad width true (bin_pos p "")
  end.

Definition format_X (width : nat) (n : Z) : string :=
  let a := Z.abs n in
  zero_pad width (n <? 0) (hex_nat (S (Z.to_nat (Z.log2 a))) a "").

(** [str(n)] for a natural number. *)
Fixpoint dec_nat (fuel : nat) (n : Z) (acc : string) : string :=
  match fuel with
  | O => acc
  | S f =>
      if n <? 10 then String (hex_digit n) acc
      else dec_nat f (n / 10) (String (hex_digit (n mod 10)) acc)
  end.

Definition str_nat (n : nat) : string := dec_nat (S n) (Z.of_nat n) "".

(** [sub in s] *)
Fixpoint contains (sub s : string) : bool :=
  startswith sub s
  || match s with
     | EmptyString => false
     | String _ r => contains sub r
     end.

(** [s.split(sep)] for a separator of one character or more, read from
    the left; [skip] counts the characters of a separator just found
    that are still to be passed over. *)
Fixpoint split_sep_from (sep : string) (skip : nat) (s : string)
  : list string :=
  match s with
  | EmptyString => [EmptyString]
  | String c r =>
      match skip with
      | S k => split_sep_from sep k r
      | O =>
          if startswith sep s
          then EmptyString :: split_sep_from sep (String.length sep - 1) r
          else match split_sep_from sep 0 r with
               | w :: ws => String c w :: ws
               | [] => [String c EmptyString]
               end
      end
  end.

Definition split_sep (sep s : string) : list string := split_sep_from sep 0 s.

End Py.

(** ** The scheduler ([scheduler.py]) *)

Module Scheduler.

(** [int(hex_instr, 16)] *)
Definition int16 (hex_instr : string) : result Z :=
  of_option (ValueError_int hex_instr) (Py.int hex_instr 16).

Definition special_opcodes : gset Z := {[2; 3; 4; 5; 35; 43]}.

Definition is_special (hex_instr : string) : result bool :=
  if decide (hex_instr = "00000000") then OK false
  else
    instr_int ← int16 hex_instr;
    let opcode := Z.land (Z.shiftr instr_int 26) 0x3F in
    OK (bool_decide (opcode ∈ special_opcodes)).

Inductive itype : Type := TyR | TyI | TyJ | TyNop.

(** The dictionary returned by [decode_mips]; the key [funct] is present
    for R-type words only. *)
Record decoded : Type := Decoded {
  d_type : itype;
  d_opcode : Z;
  d_funct : option Z;
  reads : gset Z;
  writes : gset Z
}.

Definition decode_mips (hex_instr : string) : result decoded :=
  if decide (hex_instr = "00000000") then OK (Decoded TyNop 0 None ∅ ∅)
  else
    instr ← int16 hex_instr;
    let opcode := Z.land (Z.shiftr instr 26) 0x3F in
    if decide (opcode = 0) then
      let funct := Z.land instr 0x3F in
      let rs := Z.land (Z.shiftr instr 21) 0x1F in
      let rt := Z.land (Z.shiftr instr 16) 0x1F in
      let rd := Z.land (Z.shiftr instr 11) 0x1F in
      if bool_decide (funct ∈ ({[0; 2; 3]} : gset Z)) then
        OK (Decoded TyR opcode (Some funct) {[rt]} {[rd]})
      else if decide (funct = 8) then
        OK (Decoded TyR opcode (Some funct) {[rs]} ∅)
      else
        OK (Decoded TyR opcode (Some funct) {[rs; rt]} {[rd]})
    else if bool_decide (opcode ∈ ({[2; 3]} : gset Z)) then
      if decide (opcode = 3) then OK (Decoded TyJ opcode None ∅ {[31]})
      else OK (Decoded TyJ opcode None ∅ ∅)
    else
      let rs := Z.land (Z.shiftr instr 21) 0x1F in
      let rt := Z.land (Z.shiftr instr 16) 0x1F in
      if bool_decide (opcode ∈ ({[4; 5]} : gset Z)) then
        OK (Decoded TyI opcode None {[rs; rt]} ∅)
      else if decide (opcode = 35) then
        OK (Decoded TyI opcode None {[rs]} {[rt]})
      else if decide (opcode = 43) then
        OK (Decoded TyI opcode None {[rs; rt]} ∅)
      else
        OK (Decoded TyI opcode None {[rs]} {[rt]}).

(** Truth value of a set: non-empty. *)
Definition truthy (s : gset Z) : bool := bool_decide (s ≠ ∅).

Definition can_schedule_in_slot1 (candidate_hex special_hex : string) : result bool :=
  cand ← decode_mips candidate_hex;
  spec ← decode_mips special_hex;
  if truthy (writes cand ∩ reads spec) then OK false
  else if truthy (writes spec ∩ reads cand) then OK false
  else OK true.

Definition safe_pair (hex1 hex2 : string) : result bool :=
  inst1 ← decode_mips hex1;
  inst2 ← decode_mips hex2;
  if truthy (writes inst1 ∩ reads inst2) then OK false
  else if truthy (writes inst2 ∩ reads inst1) then OK false
  else OK true.

(** An entry of the list read from the assembler's output:
    [(full_line, hex_string)]. *)
Abbreviation instruction := (string * string)%type.

(** A packet: [(slot1, slot2)], each the full line of an instruction. *)
Abbreviation packet := (string * string)%type.

Definition nop_line : string :=
  "binary: 00000000000000000000000000000000, hex: 00000000".

(** The inner loop [for j in range(i + 1, n)]: the first [j] with
    [not used[j]] whose hex word passes [test]; [js] is the range. *)
Fixpoint find_candidate (test : string → result bool)
    (instructions : list instruction) (used : list bool) (js : list nat)
  : result (option nat) :=
  match js with
  | [] => OK None
  | j :: js' =>
      u ← of_option IndexError_list (used !! j);
      if negb u then
        '(cand_line, cand_hex) ← of_option IndexError_list (instructions !! j);
        ok ← test cand_hex;
        if (ok : bool) then OK (Some j)
        else find_candidate test instructions used js'
      else find_candidate test instructions used js'
  end.

(** [range(i + 1, n)] *)
Definition range_after (i n : nat) : list nat := seq (S i) (n - S i).

(** The test of a candidate for slot1 of a special instruction:
    [not is_special(cand_hex) and can_schedule_in_slot1(cand_hex, curr_hex)]. *)
Definition slot1_test (curr_hex cand_hex : string) : result bool :=
  s ← is_special cand_hex;
  if negb s then can_schedule_in_slot1 cand_hex curr_hex else OK false.

(** One turn of the [while i < n] loop, on the state [(used, packets)]. *)
Definition schedule_step (instructions : list instruction) (n i : nat)
    (st : list bool * list packet) : result (list bool * list packet) :=
  let '(used, packets) := st in
  u ← of_option IndexError_list (used !! i);
  if (u : bool) then OK st
  else
    '(curr_line, curr_hex) ← of_option IndexError_list (instructions !! i);
    sp ← is_special curr_hex;
    if (sp : bool) then
      candidate_index ←
        find_candidate (slot1_test curr_hex) instructions used (range_after i n);
      match candidate_index with
      | Some j =>
          '(cand_line, _) ← of_option IndexError_list (instructions !! j);
          OK (<[i:=true]> (<[j:=true]> used), packets ++ [(cand_line, curr_line)])
      | None =>
          OK (<[i:=true]> used, packets ++ [(nop_line, curr_line)])
      end
    else
      candidate_index ←
        find_candidate (safe_pair curr_hex) instructions used (range_after i n);
      match candidate_index with
      | Some j =>
          '(cand_line, _) ← of_option IndexError_list (instructions !! j);
          OK (<[j:=true]> (<[i:=true]> used), packets ++ [(curr_line, cand_line)])
      | None =>
          OK (<[i:=true]> used, packets ++ [(curr_line, nop_line)])
      end.

(** The loop [i = 0; while i < n: ...; i += 1]: every branch of the body
    ends in [i += 1], so [i] runs over [range(n)]; [todo] holds the values
    of [i] still to come. *)
Fixpoint schedule_loop (instructions : list instruction) (n : nat)
    (todo : list nat) (st : list bool * list packet)
  : result (list bool * list packet) :=
  match todo with
  | [] => OK st
  | i :: todo' =>
      st' ← schedule_step instructions n i st;
      schedule_loop instructions n todo' st'
  end.

Definition schedule_instructions_enhanced (instructions : list instruction)
  : result (list packet) :=
  let n := length instructions in
  st ← schedule_loop instructions n (seq 0 n) (replicate n false, []);
  OK (snd st).

(** One turn of the loop of [read_instructions]: what the line adds to
    the list, if anything. *)
Definition read_line (raw : string) : result (option instruction) :=
  let line := Py.strip raw in
  if bool_decide (line = "") then OK None
  else if Py.contains "hex:" line then
    part ← of_option IndexError_list (Py.split_sep "hex:" line !! 1%nat);
    hex_code ← of_option IndexError_list (Py.split (Py.strip part) !! 0%nat);
    OK (Some (line, hex_code))
  else OK None.

(** [read_instructions] on the lines of the file. *)
Fixpoint read_instructions (lines : list string) : result (list instruction) :=
  match lines with
  | [] => OK []
  | raw :: lines' =>
      entry ← read_line raw;
      rest ← read_instructions lines';
      OK (match entry with
          | Some instruction => instruction :: rest
          | None => rest
          end)
  end.

(** The three writes for the packet numbered [idx]. *)
Definition packet_text (idx : nat) (p : packet) : list string :=
  [ "Packet " +:+ Py.str_nat idx +:+ ":" +:+ String (ascii_of_nat 10) "";
    "  Slot1: " +:+ fst p +:+ String (ascii_of_nat 10) "";
    "  Slot2: " +:+ snd p +:+ String (ascii_of_nat 10) (String (ascii_of_nat 10) "") ].

Fixpoint packets_text (idx : nat) (packets : list packet) : list string :=
  match packets with
  | [] => []
  | p :: packets' => packet_text idx p ++ packets_text (S idx) packets'
  end.

(** [main] on the lines of [output.txt]; the result is what is written
    to [scheduled_instructions.txt], or [None] when the file is not
    opened because no instruction was found. *)
Definition main (lines : list string) : result (option (list string)) :=
  instructions ← read_instructions lines;
  match instructions with
  | [] => OK None
  | _ =>
      packets ← schedule_instructions_enhanced instructions;
      OK (Some (packets_text 1 packets))
  end.

End Scheduler.

(** ** The assembler ([Assembler.py]) *)

Module Assembler.

Definition opcodes : gmap string string := list_to_map [
  ("add", "000000"); ("sub", "000000"); ("and", "000000"); ("or", "000000");
  ("xor", "000000"); ("nor", "000000"); ("slt", "000000"); ("sltu", "000000");
  ("sll", "000000"); ("srl", "000000"); ("sra", "000000"); ("sllv", "000000");
  ("srlv", "000000"); ("srav", "000000"); ("jr", "000000"); ("addu", "000000");
  ("subu", "000000"); ("slti", "001010"); ("sltiu", "001011"); ("addi", "001000");
  ("addiu", "001001"); ("andi", "001100"); ("ori", "001101"); ("xori", "001110");
  ("lw", "100011"); ("sw", "101011"); ("beq", "000100"); ("bne", "000101");
  ("j", "000010"); ("jal", "000011") ].

Definition func_codes : gmap string string := list_to_map [
  ("add", "100000"); ("sub", "100010"); ("and", "100100"); ("or", "100101");
  ("xor", "100110"); ("nor", "100111"); ("slt", "101010"); ("sltu", "101011");
  ("sll", "000000"); ("srl", "000010"); ("sra", "000011"); ("sllv", "000100");
  ("srlv", "000110"); ("srav", "000111"); ("jr", "001000"); ("addu", "100001");
  ("subu", "100011") ].

(** [{f"${i}": f"{i:05b}" for i in range(32)}] *)
Definition registers_list : list (string * string) :=
  map (fun i => ("$" +:+ Py.str_nat i, Py.format_b 5 (Z.of_nat i))) (seq 0 32).

Definition registers : gmap string string := list_to_map registers_list.

Definition register (name : string) : result string :=
  of_option (KeyError_registers name) (registers !! name).

Definition opcode_bits (opcode : string) : result string :=
  of_option (KeyError_opcodes opcode) (opcodes !! opcode).

Definition func_bits (opcode : string) : result string :=
  of_option (KeyError_func_codes opcode) (func_codes !! opcode).

(** [operands[k]] *)
Definition operand (operands : list string) (k : nat) : result string :=
  of_option IndexError_list (operands !! k).

(** [int(value)] *)
Definition int10 (value : string) : result Z :=
  of_option (ValueError_int value) (Py.int value 10).

Definition parse_immediate (value : string) : result Z :=
  if Py.startswith "0x" (Py.lower value)
  then of_option (ValueError_int value) (Py.int value 16)
  else int10 value.

Definition parse_instruction (line : string) : result (string * list string) :=
  let parts := Py.split (Py.replace_char "," " " line) in
  p0 ← of_option IndexError_list (parts !! 0%nat);
  OK (Py.lower p0, drop 1 parts).

(** Joins fields with underscores, as the f-strings of the encoder do. *)
Fixpoint fields (fs : list string) : string :=
  match fs with
  | [] => ""
  | [f] => f
  | f :: fs' => f +:+ "_" +:+ fields fs'
  end.

Definition shift_mnemonics : list string :=
  ["sll"; "srl"; "sra"; "sllv"; "srlv"; "srav"].

(** [int(operands[2])], the shift count of the six shift mnemonics. *)
Definition shift_count (operands : list string) : result Z :=
  operand operands 2 ≫= int10.

Definition assemble_r_type (opcode : string) (operands : list string)
  : result string :=
  '(rs, rt, rd, shamt) ←
    (if bool_decide (opcode ∈ shift_mnemonics) then
       rd ← operand operands 0 ≫= register;
       rt ← operand operands 1 ≫= register;
       n ← shift_count operands;
       OK ("00000", rt, rd, Py.format_b 5 n)
     else if decide (opcode = "jr") then
       rs ← operand operands 0 ≫= register;
       OK (rs, "00000", "00000", "00000")
     else
       rd ← operand operands 0 ≫= register;
       rs ← operand operands 1 ≫= register;
       rt ← operand operands 2 ≫= register;
       OK (rs, rt, rd, "00000"));
  func ← func_bits opcode;
  op ← opcode_bits opcode;
  OK (fields [op; rs; rt; rd; shamt; func]).

(** The truth value of the optional dictionary [label_map]: neither
    [None] nor empty. *)
Definition has_labels (label_map : option (gmap string Z)) : bool :=
  match label_map with
  | Some m => bool_decide (m ≠ ∅)
  | None => false
  end.

Definition lookup_label (label_map : option (gmap string Z)) (name : string)
  : result Z :=
  of_option (KeyError_label_map name) (label_map ≫= (.!! name)).

Definition assemble_i_type (opcode : string) (operands : list string)
    (label_map : option (gmap string Z)) (current_address : option Z)
  : result string :=
  op1 ← operand operands 1;
  '(rs, rt, immediate) ←
    (if Py.contains_char "(" op1 && Py.contains_char ")" op1 then
       '(offset, base) ←
         match Py.split_on "(" (Py.replace_char ")" "" op1) with
         | [a; b] => OK (a, b)
         | _ => Raise ValueError_unpack
         end;
       v ← parse_immediate offset;
       rt ← operand operands 0 ≫= register;
       rs ← register base;
       OK (rs, rt, Py.format_b 16 (Z.land v 0xFFFF))
     else if bool_decide (opcode ∈ ["beq"; "bne"]) && has_labels label_map
             && bool_decide (is_Some current_address) then
       rs ← operand operands 0 ≫= register;
       rt ← register op1;
       label_address ← operand operands 2 ≫= lookup_label label_map;
       let offset := label_address - default 0 current_address in
       OK (rs, rt, Py.format_b 16 (Z.land offset 0xFFFF))
     else
       rt ← operand operands 0 ≫= register;
       rs ← register op1;
       v ← operand operands 2 ≫= parse_immediate;
       OK (rs, rt, Py.format_b 16 (Z.land v 0xFFFF)));
  op ← opcode_bits opcode;
  OK (fields [op; rs; rt; immediate]).

(** The address of a jump: [label_map[operands[0]]] when there is a
    label table, [int(operands[0])] otherwise. *)
Definition jump_target (operands : list string)
    (label_map : option (gmap string Z)) : result Z :=
  if has_labels label_map
  then operand operands 0 ≫= lookup_label label_map
  else operand operands 0 ≫= int10.

Definition assemble_j_type (opcode : string) (operands : list string)
    (label_map : option (gmap string Z)) : result string :=
  address ← jump_target operands label_map;
  op ← opcode_bits opcode;
  OK (fields [op; Py.format_b 26 address]).

Definition newline : string := String (ascii_of_nat 10) "".

Definition temp_reg : string := "$25".

Definition i_type_mnemonics : list string :=
  ["lw"; "sw"; "addi"; "addiu"; "andi"; "ori"; "xori"; "slti"; "sltiu";
   "beq"; "bne"].

(** The two words of a lowered conditional branch: a [slt] into [$25]
    and a branch on [$25] against [$0]. *)
Definition lowered_branch (branch : string) (a b : nat) (operands : list string)
    (label_map : option (gmap string Z)) (current_address : option Z)
  : result string :=
  x ← operand operands a;
  y ← operand operands b;
  slt_instruction ← assemble_r_type "slt" [temp_reg; x; y];
  target ← operand operands 2;
  branch_instruction ←
    assemble_i_type branch [temp_reg; "$0"; target] label_map current_address;
  OK (slt_instruction +:+ newline +:+ branch_instruction).

(** [None] is Python's [None], returned for a mnemonic no branch takes. *)
Definition assemble_instruction (opcode : string) (operands : list string)
    (label_map : option (gmap string Z)) (current_address : option Z)
  : result (option string) :=
  if decide (opcode = "nop") then OK (Some "00000000000000000000000000000000")
  else if decide (opcode = "sgt") then
    a ← operand operands 0; b ← operand operands 2; c ← operand operands 1;
    Some <$> assemble_r_type "slt" [a; b; c]
  else if decide (opcode = "move") then
    a ← operand operands 0; b ← operand operands 1;
    Some <$> assemble_r_type "add" [a; b; "$0"]
  else if decide (opcode = "li") then
    a ← operand operands 0; b ← operand operands 1;
    Some <$> assemble_i_type "addi" [a; "$0"; b] None None
  else if decide (opcode = "blt") then
    Some <$> lowered_branch "bne" 0 1 operands label_map current_address
  else if decide (opcode = "bgt") then
    Some <$> lowered_branch "bne" 1 0 operands label_map current_address
  else if decide (opcode = "ble") then
    Some <$> lowered_branch "beq" 1 0 operands label_map current_address
  else if decide (opcode = "bge") then
    Some <$> lowered_branch "beq" 0 1 operands label_map current_address
  else if bool_decide (is_Some (func_codes !! opcode)) then
    Some <$> assemble_r_type opcode operands
  else if bool_decide (opcode ∈ i_type_mnemonics) then
    Some <$> assemble_i_type opcode operands label_map current_address
  else if bool_decide (opcode ∈ ["j"; "jal"]) then
    Some <$> assemble_j_type opcode operands label_map
  else OK None.

End Assembler.

(** ** The two passes of [main] *)

Module Pipeline.
Import Assembler.

Definition pseudo_branches : list string := ["blt"; "bgt"; "ble"; "bge"].

Definition is_pseudo_branch (opcode : string) : bool :=
  bool_decide (opcode ∈ pseudo_branches).

(** One turn of the first loop, on the state [(label_map, pc)]. *)
Definition first_pass_line (st : gmap string Z * Z) (raw : string)
  : gmap string Z * Z :=
  let '(label_map, pc) := st in
  let line := Py.strip raw in
  match Py.split (Py.replace_char "," " " line) with
  | [] => st
  | p0 :: _ =>
      let opcode := Py.lower p0 in
      if Py.endswith_char ":" line then (<[Py.drop_last line := pc]> label_map, pc)
      else if negb (bool_decide (line = "")) && negb (Py.startswith "#" line) then
        if is_pseudo_branch opcode then (label_map, pc + 2) else (label_map, pc + 1)
      else st
  end.

Definition first_pass (lines : list string) : gmap string Z * Z :=
  fold_left first_pass_line lines (∅, 0).

(** The text written for one emitted word. *)
(** [int(binary_instruction.replace('_', ''), 2)] *)
Definition word_value (binary_instruction : string) : result Z :=
  let digits := Py.replace_char "_" "" binary_instruction in
  of_option (ValueError_int digits) (Py.int digits 2).

(** [f"{...:08X}"] of the word. *)
Definition hex_instruction (binary_instruction : string) : result string :=
  v ← word_value binary_instruction;
  OK (Py.format_X 8 v).

Definition record (line binary_instruction : string) : result string :=
  hex ← hex_instruction binary_instruction;
  OK (line +:+ " --> [ binary: " +:+ binary_instruction +:+ ", hex: "
      +:+ hex +:+ " ]" +:+ newline).

Fixpoint records (line : string) (words : list string) : result (list string) :=
  match words with
  | [] => OK []
  | w :: ws =>
      r ← record line w;
      rs ← records line ws;
      OK (r :: rs)
  end.

(** The instruction text of a source line, when the second loop encodes
    it: label lines, comment lines and blank lines are skipped, a
    trailing comment is cut off. *)
Definition instruction_text (raw : string) : option string :=
  let line := Py.strip raw in
  if Py.endswith_char ":" line || Py.startswith "#" line then None
  else if bool_decide (line = "") then None
  else
    let line := Py.strip (hd "" (Py.split_on "#" line)) in
    if bool_decide (line = "") then None else Some line.

(** The address handed to the encoder for a line met at address [pc]. *)
Definition encoding_address (opcode : string) (pc : Z) : Z :=
  if is_pseudo_branch opcode then pc + 1 else pc.

(** One turn of the second loop, on the state [(pc, written)]; [written]
    is the text written to the output file so far, one record each. *)
Definition second_pass_line (label_map : gmap string Z)
    (st : Z * list string) (raw : string) : result (Z * list string) :=
  let '(pc, written) := st in
  match instruction_text raw with
  | None => OK st
  | Some line =>
      '(opcode, operands) ← parse_instruction line;
      let pc := encoding_address opcode pc in
      binary_instructions ←
        assemble_instruction opcode operands (Some label_map) (Some pc);
      text ← of_option AttributeError_None binary_instructions;
      rs ← records line (Py.splitlines text);
      OK (pc + 1, written ++ rs)
  end.

Fixpoint second_pass (label_map : gmap string Z) (lines : list string)
    (st : Z * list string) : result (Z * list string) :=
  match lines with
  | [] => OK st
  | raw :: lines' =>
      st' ← second_pass_line label_map st raw;
      second_pass label_map lines' st'
  end.

(** [main] on the lines of [input.txt]; the result is the content of
    [output.txt]. *)
Definition main (lines : list string) : result (list string) :=
  let '(label_map, _) := first_pass lines in
  st ← second_pass label_map lines (0, []);
  OK (snd st).

End Pipeline.


(** * Vocabulary of the properties *)

Module Spec.
Import Scheduler.

(** ** Strings of digits *)

Fixpoint all_chars (p : ascii → bool) (s : string) : bool :=
  match s with
  | EmptyString => true
  | String c r => p c && all_chars p r
  end.

(** The value of a digit string, most significant digit first. *)
Fixpoint digits_value (base acc : Z) (s : string) : Z :=
  match s with
  | EmptyString => acc
  | String c r => digits_value base (acc * base + default 0 (Py.digit_value c)) r
  end.

(** An 8-hex-digit instruction word, as the assembler writes it. *)
Definition is_hex_word (s : string) : bool :=
  (String.length s =? 8)%nat && all_chars (Py.is_digit 16) s.

(** ** Words of the encoder *)

Definition is_bit (c : ascii) : bool := Py.is_digit 2 c.

(** A string of exactly [n] binary digits. *)
Definition bits (n : nat) (s : string) : bool :=
  (String.length s =? n)%nat && all_chars is_bit s.

(** [s.replace('_', '')] *)
Definition strip_us (s : string) : string := Py.replace_char "_" "" s.

Definition field_char (c : ascii) : bool := is_bit c || Py.is_underscore c.

(** The characters the encoder writes: binary digits, underscores, and
    the sign of a negative number. *)
Definition encoder_char (c : ascii) : bool :=
  is_bit c || Py.is_underscore c || Ascii.eqb c "-".

(** Text without line boundaries. *)
Definition one_line (s : string) : bool :=
  all_chars (λ c, negb (Py.islinebreak c)) s.

(** A text of binary digits and underscores with [n] digits in all. *)
Definition word_of (n : nat) (w : string) : Prop :=
  all_chars field_char w = true ∧ bits n (strip_us w) = true.

(** A register name has no parenthesis and is no number; its code has
    five binary digits. *)
Definition register_entry (name code : string) : bool :=
  bits 5 code && negb (Py.contains_char "(" name)
  && bool_decide (Py.int name 10 = None)
  && bool_decide (Py.int name 16 = None).

(** Commas turned into blanks, as both passes do before [split()]. *)
Abbreviation blanked := (Py.replace_char "," " ").

(** ** Hazards *)

(** What a [True] from the hazard check means. *)
Definition hazard_free (hex1 hex2 : string) : Prop :=
  ∃ d1 d2, decode_mips hex1 = OK d1 ∧ decode_mips hex2 = OK d2
    ∧ writes d1 ∩ reads d2 = ∅ ∧ writes d2 ∩ reads d1 = ∅.

(** ** Plans *)

(** Where the scheduler put what: a packet is owned by the instruction
    the outer loop stood at, its [anchor]; each slot holds the index of
    an input instruction, or nothing where the scheduler filled in a
    NOP. *)
Record placement : Type := Placement {
  anchor : nat;
  slot1 : option nat;
  slot2 : option nat
}.

Definition members (p : placement) : list nat :=
  option_list (slot1 p) ++ option_list (slot2 p).

Definition hex_of (instructions : list instruction) (k : nat) : string :=
  default "" (snd <$> instructions !! k).

Definition line_of (instructions : list instruction) (slot : option nat)
  : string :=
  match slot with
  | Some k => default "" (fst <$> instructions !! k)
  | None => nop_line
  end.

(** The packet the scheduler writes for a placement. *)
Definition emit (instructions : list instruction) (p : placement) : packet :=
  (line_of instructions (slot1 p), line_of instructions (slot2 p)).

(** How the scheduler fills a packet. *)
Record well_placed (instructions : list instruction) (p : placement)
  : Prop := WellPlaced {
  wp_anchor : anchor p ∈ members p;
  wp_later : ∀ k, k ∈ members p → (anchor p ≤ k)%nat;
  wp_slot1 : ∀ a, slot1 p = Some a →
    is_special (hex_of instructions a) = OK false;
  wp_hazard : ∀ a b, slot1 p = Some a → slot2 p = Some b →
    hazard_free (hex_of instructions a) (hex_of instructions b)
}.

(** The state of the loop when [i] is about to be looked at. *)
Record loop_inv (instructions : list instruction) (i : nat)
    (used : list bool) (packets : list packet) (plan : list placement)
  : Prop := LoopInv {
  inv_packets : packets = map (emit instructions) plan;
  inv_length : length used = length instructions;
  inv_nodup : NoDup (flat_map members plan);
  inv_used : ∀ k, k ∈ flat_map members plan ↔ used !! k = Some true;
  inv_done : ∀ k, (k < i)%nat → used !! k = Some true;
  inv_order : StronglySorted lt (map anchor plan);
  inv_before : Forall (λ p, (anchor p < i)%nat) plan;
  inv_placed : Forall (well_placed instructions) plan
}.

(** A run used for the concrete instances: a load, an instruction that
    needs the loaded register, and an independent instruction that the
    scheduler pulls forward into the load's packet. *)
Definition demo_input : list instruction :=
  [("lw $3,0($2)", "8C430000"); ("add $4,$3,$3", "00632020");
   ("add $5,$6,$7", "00C72820")].

Definition demo_packets : list packet :=
  [("add $5,$6,$7", "lw $3,0($2)"); ("add $4,$3,$3", nop_line)].

Definition hex_words (instructions : list instruction) : Prop :=
  Forall (λ ins, is_hex_word (snd ins) = true) instructions.

(** The input instructions found in the slots of a plan. *)
Definition placed (instructions : list instruction) (plan : list placement)
  : list instruction :=
  omap (λ k, instructions !! k) (flat_map members plan).

(** ** The second pass *)

(** What the second loop does with the line [raw] when it stands at
    address [pc] with [written] already written.  A line that is encoded
    is parsed, encoded at [encoding_address], its words are written, and
    the address moves one past the address of encoding.  For the four
    conditional branches the address of encoding is [pc + 1]; the text
    holds two words, and the second, written at position [pc + 1] of the
    output, is the branch encoded at [pc + 1]. *)
Definition line_step (label_map : gmap string Z) (pc : Z)
    (written : list string) (raw : string) (pc' : Z)
    (written' : list string) : Prop :=
  match Pipeline.instruction_text raw with
  | None => pc' = pc ∧ written' = written
  | Some line =>
      ∃ opcode operands text rs,
        Assembler.parse_instruction line = OK (opcode, operands)
        ∧ Assembler.assemble_instruction opcode operands (Some label_map)
            (Some (Pipeline.encoding_address opcode pc)) = OK (Some text)
        ∧ Pipeline.records line (Py.splitlines text) = OK rs
        ∧ written' = written ++ rs
        ∧ pc' = Pipeline.encoding_address opcode pc + 1
        ∧ if Pipeline.is_pseudo_branch opcode then
            Pipeline.encoding_address opcode pc = pc + 1 ∧ pc' = pc + 2
            ∧ ∃ branch slt_word branch_word target r1 r2,
                Py.splitlines text = [slt_word; branch_word]
                ∧ rs = [r1; r2]
                ∧ Pipeline.record line branch_word = OK r2
                ∧ written' !! Z.to_nat (pc + 1) = Some r2
                ∧ branch ∈ ["beq"; "bne"]
                ∧ Assembler.operand operands 2 = OK target
                ∧ Assembler.assemble_i_type branch
                    [Assembler.temp_reg; "$0"; target]
                    (Some label_map) (Some (pc + 1)) = OK branch_word
          else
            Pipeline.encoding_address opcode pc = pc ∧ pc' = pc + 1
            ∧ length rs = 1%nat
  end.

(** A source used for the concrete instances: a label and one
    instruction, after which the address is 1. *)
Definition demo_lines : list string := ["loop:"; "addi $1,$1,1"].

Definition demo_written : list string :=
  ["addi $1,$1,1 --> [ binary: 001000_00001_00001_0000000000000001, hex: 20210001 ]"
   +:+ Assembler.newline].

End Spec.

(** * More vocabulary *)

Module Terms.
Import Scheduler.

(** The number a register's five-bit code stands for. *)
Definition register_number (name : string) : option Z :=
  Spec.digits_value 2 0 <$> Assembler.registers !! name.

(** The value of an encoded word: its binary digits read as a number. *)
Definition word_number (w : string) : Z :=
  Spec.digits_value 2 0 (Spec.strip_us w).

(** The R-type mnemonics that take three registers and are encoded that
    way. *)
Definition three_register_mnemonics : list string :=
  ["add"; "sub"; "and"; "or"; "xor"; "nor"; "slt"; "sltu"; "addu"; "subu"].

(** The I-type mnemonics that compute on a register and an immediate. *)
Definition immediate_mnemonics : list string :=
  ["addi"; "addiu"; "andi"; "ori"; "xori"; "slti"; "sltiu"].

(** The operand [offset(base)] of a load or store. *)
Definition memory_operand (offset base : string) : string :=
  offset +:+ String "(" (base +:+ ")").

(** A row of the register table: the name is [$i] for some [i] below
    32, and the code stands for [i]. *)
Definition register_row (name code : string) : bool :=
  existsb (λ i, String.eqb name ("$" +:+ Py.str_nat i)
                && (Spec.digits_value 2 0 code =? Z.of_nat i))
    (seq 0 32).

(** ** The choice of a partner *)

(** The test the outer loop puts to a candidate partner of the
    instruction at [i]: [slot1_test] when that instruction is special,
    [safe_pair] otherwise. *)
Definition partner_test (instructions : list instruction) (i : nat)
    (cand_hex : string) : result bool :=
  let curr_hex := Spec.hex_of instructions i in
  sp ← is_special curr_hex;
  if (sp : bool) then slot1_test curr_hex cand_hex
  else safe_pair curr_hex cand_hex.

(** The member of a packet that is not its anchor, if there is one. *)
Definition partner (p : Spec.placement) : option nat :=
  match Spec.slot1 p, Spec.slot2 p with
  | Some a, Some b => Some (if decide (a = Spec.anchor p) then b else a)
  | _, _ => None
  end.

(** First fit: the partner passes the test, and every instruction
    between the anchor and the partner, or after the anchor when there
    is no partner, was placed in an earlier packet or fails the test. *)
Definition first_fit (instructions : list instruction)
    (earlier : list Spec.placement) (p : Spec.placement) : Prop :=
  (∀ b, partner p = Some b →
        partner_test instructions (Spec.anchor p)
          (Spec.hex_of instructions b) = OK true)
  ∧ ∀ j, (Spec.anchor p < j < length instructions)%nat →
         (∀ b, partner p = Some b → (j < b)%nat) →
         j ∈ flat_map Spec.members earlier
         ∨ partner_test instructions (Spec.anchor p)
             (Spec.hex_of instructions j) = OK false.

(** The plans whose every packet is filled by first fit, given the
    packets before it. *)
Definition fits (instructions : list instruction)
    (plan : list Spec.placement) : Prop :=
  ∀ k p, plan !! k = Some p → first_fit instructions (take k plan) p.

(** ** Words the scheduler can read *)

(** A text [int(x, 16)] accepts. *)
Definition readable (hex : string) : Prop := is_Some (Py.int hex 16).

Definition readable_words (instructions : list instruction) : Prop :=
  Forall (λ ins, readable (snd ins)) instructions.

(** What the loop has read when it has marked [used]. *)
Definition read_so_far (instructions : list instruction) (used : list bool)
  : Prop :=
  ∀ k, used !! k = Some true → readable (Spec.hex_of instructions k).

(** ** Source lines *)

(** The mnemonics [assemble_instruction] has a branch for. *)
Definition mnemonics : list string :=
  ["nop"; "sgt"; "move"; "li"; "blt"; "bgt"; "ble"; "bge"]
  ++ elements (dom Assembler.func_codes)
  ++ Assembler.i_type_mnemonics ++ ["j"; "jal"].

(** A character of a token of [parse_instruction]: neither a comma nor
    whitespace. *)
Definition token_char (c : ascii) : bool :=
  negb (Ascii.eqb c ",") && negb (Py.isspace c).

(** A token: not empty, and made of such characters. *)
Definition token (t : string) : Prop :=
  t ≠ "" ∧ Spec.all_chars token_char t = true.

(** A character of a label written before a comment: a token character
    other than the comment sign. *)
Definition label_char (c : ascii) : bool :=
  token_char c && negb (Ascii.eqb c "#").

(** The lines both loops pass over: blank lines, and comment lines
    that do not end in a colon. *)
Definition passed_over (raw : string) : Prop :=
  Py.strip raw = ""
  ∨ (Py.startswith "#" (Py.strip raw) = true
     ∧ Py.endswith_char ":" (Py.strip raw) = false).

(** The text of a record without its newline. *)
Definition record_text (line binary_instruction hex : string) : string :=
  line +:+ " --> [ binary: " +:+ binary_instruction +:+ ", hex: "
  +:+ hex +:+ " ]".

(** No text [sep] starts inside [s] when [s] is followed by [rest]. *)
Fixpoint no_match_inside (sep rest s : string) : bool :=
  match s with
  | EmptyString => true
  | String _ s' =>
      negb (Py.startswith sep (s +:+ rest)) && no_match_inside sep rest s'
  end.

(** An instruction text and a word the assembler's [main] can write a
    record for that the scheduler reads back. *)
Definition plain_record (item : string * string) : Prop :=
  fst item ≠ "" ∧ Py.strip (fst item) = fst item
  ∧ Py.contains "hex:" (fst item) = false ∧ Spec.word_of 32 (snd item).

(** The entry [read_instructions] makes of the record of an item. *)
Definition read_entry (item : string * string) : instruction :=
  let hex := Py.format_X 8 (word_number (snd item)) in
  (record_text (fst item) (snd item) hex, hex).

End Terms.

(** * Properties *)

Import Spec.

(** ** The result monad *)

Lemma bind_OK {A B} (m : result A) (f : A → result B) (b : B) :
  m ≫= f = OK b → ∃ a, m = OK a ∧ f a = OK b.
Proof. destruct m as [a|e]; [eauto | discriminate]. Qed.

Lemma fmap_OK {A B} (m : result A) (f : A → B) (b : B) :
  f <$> m = OK b → ∃ a, m = OK a ∧ b = f a.
Proof. destruct m as [a|e]; [|discriminate]. intros [= <-]. eauto. Qed.

Lemma of_option_OK {A} (e : exn) (o : option A) (a : A) :
  of_option e o = OK a → o = Some a.
Proof. destruct o; [intros [= ->]; reflexivity | discriminate]. Qed.

Lemma bind_OK_l {A B} (a : A) (f : A → result B) : OK a ≫= f = f a.
Proof. reflexivity. Qed.

Lemma of_option_Some {A} (e : exn) (a : A) : of_option e (Some a) = OK a.
Proof. reflexivity. Qed.

(** Takes a successful run apart, bind by bind. *)
Ltac ok_inv H :=
  repeat match type of H with
  | OK _ = OK _ => injection H as H
  | Raise _ = OK _ => discriminate H
  | of_option _ _ = OK _ => apply of_option_OK in H
  | _ ≫= _ = OK _ =>
      let a := fresh "a" in let Ha := fresh "Ha" in
      apply bind_OK in H as (a & Ha & H)
  | _ <$> _ = OK _ =>
      let a := fresh "a" in let Ha := fresh "Ha" in
      apply fmap_OK in H as (a & Ha & H)
  end.

(** Decides that a given string is not in a given list. *)
Ltac closed_not_elem :=
  let H := fresh in
  let H' := fresh in
  intros H; pose proof (bool_decide_eq_true_2 _ H) as H';
  vm_compute in H'; discriminate H'.

(** ** Literals made of digits only *)



Lemma all_chars_app p s t :
  all_chars p (s +:+ t) = all_chars p s && all_chars p t.
Proof.
  induction s as [|c s IH]; simpl; [reflexivity|].
  rewrite IH. apply andb_assoc.
Qed.

Lemma all_chars_impl (p q : ascii → bool) s :
  (∀ c, p c = true → q c = true) → all_chars p s = true → all_chars q s = true.
Proof.
  intros Hpq. induction s as [|c s IH]; simpl; [reflexivity|].
  intros [Hc Hs]%andb_prop. rewrite (Hpq _ Hc), (IH Hs). reflexivity.
Qed.

(** Every character is one of the 256 bytes. *)
Ltac each_char c := destruct c as [[] [] [] [] [] [] [] []].

(** A character with a digit value is a letter or a decimal digit: not
    a space, a sign or an underscore. *)
Lemma digit_value_plain c :
  is_Some (Py.digit_value c) →
  Py.int_isspace c = false ∧ Py.is_underscore c = false
  ∧ c ≠ "+"%char ∧ c ≠ "-"%char.
Proof.
  intros [d Hd]. revert Hd.
  each_char c; vm_compute; intros Hd; try discriminate Hd;
    repeat split; discriminate.
Qed.

(** The prefix letters are digits worth more than their base allows. *)
Lemma prefix_letter_digit c :
  (Ascii.eqb (Py.lower_char c) "x" = true → Py.digit_value c = Some 33)
  ∧ (Ascii.eqb (Py.lower_char c) "o" = true → Py.digit_value c = Some 24)
  ∧ (Ascii.eqb (Py.lower_char c) "b" = true → Py.digit_value c = Some 11).
Proof.
  each_char c; vm_compute; repeat split; intros H;
    first [discriminate H | reflexivity].
Qed.

Lemma prefix_letter_value base c d :
  Py.prefix_letter base c = true → Py.digit_value c = Some d → base <= d.
Proof.
  unfold Py.prefix_letter. destruct (prefix_letter_digit c) as (Hx & Ho & Hb).
  intros H Hd. repeat apply orb_prop in H as [H|H];
    apply andb_prop in H as [Hbase Hc]; apply Z.eqb_eq in Hbase.
  - rewrite (Hx Hc) in Hd. injection Hd as <-. lia.
  - rewrite (Ho Hc) in Hd. injection Hd as <-. lia.
  - rewrite (Hb Hc) in Hd. injection Hd as <-. lia.
Qed.

Lemma digit_plain base c :
  Py.is_digit base c = true →
  Py.int_isspace c = false ∧ Py.is_underscore c = false
  ∧ Py.prefix_letter base c = false
  ∧ (∀ r, Py.skip_sign (String c r) = (false, String c r)).
Proof.
  unfold Py.is_digit. destruct (Py.digit_value c) as [d|] eqn:Hd; [|discriminate].
  intros Hlt%Z.ltb_lt.
  destruct (digit_value_plain c) as (Hsp & Hus & Hplus & Hminus); [eauto|].
  repeat split; try assumption.
  - destruct (Py.prefix_letter base c) eqn:Hp; [|reflexivity].
    pose proof (prefix_letter_value _ _ _ Hp Hd). lia.
  - intros r. unfold Py.skip_sign.
    each_char c; first [reflexivity | congruence].
Qed.

Lemma scan_digits_all base acc s :
  all_chars (Py.is_digit base) s = true →
  Py.scan_digits base acc false s = Some (digits_value base acc s, "").
Proof.
  revert acc. induction s as [|c s IH]; intros acc; simpl; [reflexivity|].
  intros [Hc Hs]%andb_prop.
  destruct (digit_plain _ _ Hc) as (_ & -> & _).
  unfold Py.is_digit in Hc.
  destruct (Py.digit_value c) as [d|]; [|discriminate].
  rewrite Hc. simpl. apply IH, Hs.
Qed.

Lemma is_digit_not_underscore base c :
  Py.is_digit base c = true → Py.is_underscore c = false.
Proof. intros Hc. by destruct (digit_plain _ _ Hc) as (_ & -> & _). Qed.

(** A string of digits has as many digits as characters. *)
Lemma digit_count_all base s :
  all_chars (Py.is_digit base) s = true →
  Py.digit_count base s = Z.of_nat (String.length s).
Proof.
  induction s as [|c s IH]; [reflexivity|]. cbn [all_chars].
  intros [Hc Hs]%andb_prop. cbn [Py.digit_count String.length].
  rewrite (is_digit_not_underscore _ _ Hc), Hc, (IH Hs). lia.
Qed.

Lemma too_long_binary base s :
  Py.binary_base base = true → Py.too_long base s = false.
Proof. unfold Py.too_long. by intros ->. Qed.

(** [int] on a non-empty string of digits of the base, within the limit
    on their number: no sign, no prefix, no underscore, and the value is
    that of the digits. *)
Lemma int_digits_in_limit base s :
  s ≠ "" → all_chars (Py.is_digit base) s = true →
  Py.too_long base s = false →
  Py.int s base = Some (digits_value base 0 s).
Proof.
  intros Hne Hall Hlimit. destruct s as [|c s]; [congruence|].
  pose proof Hall as Hall'.
  simpl in Hall. apply andb_prop in Hall as [Hc Hs].
  destruct (digit_plain _ _ Hc) as (Hsp & Hus & Hpre & Hsign).
  unfold Py.int. cbn [Py.skip_space]. rewrite Hsp, Hsign.
  assert (Py.skip_prefix base (String c s) = String c s) as ->.
  { unfold Py.skip_prefix.
    destruct s as [|d s']; [each_char c; reflexivity|].
    simpl in Hs. apply andb_prop in Hs as [Hd _].
    destruct (digit_plain _ _ Hd) as (_ & _ & -> & _).
    each_char c; reflexivity. }
  cbn [Py.first_is_digit]. rewrite Hc.
  rewrite scan_digits_all by exact Hall'.
  rewrite Hlimit. reflexivity.
Qed.

(** In a base that is a power of two there is no limit. *)
Lemma int_digits base s :
  Py.binary_base base = true →
  s ≠ "" → all_chars (Py.is_digit base) s = true →
  Py.int s base = Some (digits_value base 0 s).
Proof.
  intros Hbase Hne Hall. apply int_digits_in_limit; [done..|].
  by apply too_long_binary.
Qed.

(** ** The hazard predicates *)

Section Hazard.
Import Scheduler.


Lemma int16_hex_word s :
  is_hex_word s = true → ∃ v, int16 s = OK v.
Proof.
  unfold is_hex_word. intros [Hl Hd]%andb_prop.
  assert (s ≠ "") by (intros ->; discriminate Hl).
  unfold int16. rewrite int_digits by (assumption || reflexivity). eexists. reflexivity.
Qed.

Lemma decode_mips_total s :
  is_hex_word s = true → ∃ d, decode_mips s = OK d.
Proof.
  intros [v Hv]%int16_hex_word. unfold decode_mips.
  rewrite Hv, bind_OK_l. cbv zeta.
  repeat first [case_decide | case_bool_decide]; eexists; reflexivity.
Qed.

Lemma is_special_total s :
  is_hex_word s = true → ∃ b, is_special s = OK b.
Proof.
  intros [v Hv]%int16_hex_word. unfold is_special.
  rewrite Hv, bind_OK_l. case_decide; eexists; reflexivity.
Qed.


Lemma truthy_false (s : gset Z) : truthy s = false ↔ s = ∅.
Proof.
  unfold truthy. rewrite bool_decide_eq_false. split.
  - intros H. by destruct (decide (s = ∅)).
  - intros -> H. by apply H.
Qed.

Lemma safe_pair_true hex1 hex2 :
  safe_pair hex1 hex2 = OK true ↔ hazard_free hex1 hex2.
Proof.
  unfold safe_pair, hazard_free. split.
  - intros H. ok_inv H.
    destruct (truthy (writes a ∩ reads a0)) eqn:E1; [discriminate|].
    destruct (truthy (writes a0 ∩ reads a)) eqn:E2; [discriminate|].
    exists a, a0. by rewrite <- !truthy_false.
  - intros (d1 & d2 & -> & -> & H1 & H2). rewrite !bind_OK_l.
    apply truthy_false in H1, H2. by rewrite H1, H2.
Qed.

Lemma safe_pair_total hex1 hex2 :
  is_hex_word hex1 = true → is_hex_word hex2 = true →
  ∃ b, safe_pair hex1 hex2 = OK b.
Proof.
  intros [d1 H1]%decode_mips_total [d2 H2]%decode_mips_total.
  unfold safe_pair. rewrite H1, H2, !bind_OK_l.
  destruct (truthy _); [eauto|]. destruct (truthy _); eauto.
Qed.

(** The two predicates are the same function of their arguments. *)
Lemma can_schedule_in_slot1_safe_pair c s :
  can_schedule_in_slot1 c s = safe_pair c s.
Proof. reflexivity. Qed.

Lemma safe_pair_sym_OK a b r :
  safe_pair a b = OK r → safe_pair b a = OK r.
Proof.
  unfold safe_pair. intros H. ok_inv H. rewrite Ha0, Ha, !bind_OK_l.
  destruct (truthy (writes a0 ∩ reads a1)), (truthy (writes a1 ∩ reads a0));
    congruence.
Qed.

End Hazard.

(** ** The packets of the scheduler *)

Section Schedule.
Import Scheduler.
Local Open Scope nat_scope.


Lemma find_candidate_Some test instructions used js j :
  find_candidate test instructions used js = OK (Some j) →
  j ∈ js ∧ used !! j = Some false
  ∧ ∃ line hex, instructions !! j = Some (line, hex) ∧ test hex = OK true.
Proof.
  induction js as [|j0 js IH]; cbn [find_candidate]; [discriminate|].
  intros H. apply bind_OK in H as (u & Hu & H). apply of_option_OK in Hu.
  destruct u; cbn [negb] in H.
  - destruct (IH H) as (? & ? & ?). split; [by right | done].
  - apply bind_OK in H as ([line hex] & Hi & H). apply of_option_OK in Hi.
    apply bind_OK in H as (ok & Hok & H). destruct ok.
    + injection H as <-. split; [by left|]. split; [done|]. eauto.
    + destruct (IH H) as (? & ? & ?). split; [by right | done].
Qed.

Lemma elem_of_range_after i n j : j ∈ range_after i n → i < j < n.
Proof. unfold range_after. rewrite elem_of_seq. lia. Qed.

Lemma slot1_test_true curr_hex cand_hex :
  slot1_test curr_hex cand_hex = OK true →
  is_special cand_hex = OK false ∧ hazard_free cand_hex curr_hex.
Proof.
  unfold slot1_test. intros H. apply bind_OK in H as (s & Hs & H).
  destruct s; cbn [negb] in H; [discriminate|].
  split; [done|]. by apply safe_pair_true.
Qed.

Lemma used_insert (used : list bool) i k :
  i < length used →
  <[i:=true]> used !! k = Some true ↔ k = i ∨ used !! k = Some true.
Proof.
  intros Hi. rewrite list_lookup_insert_Some. split.
  - intros [(-> & _ & _)|(_ & ?)]; auto.
  - intros [->|H]; [left; done|].
    destruct (decide (i = k)) as [->|]; [left; done | right; done].
Qed.

Lemma hex_of_lookup instructions k line hex :
  instructions !! k = Some (line, hex) → hex_of instructions k = hex.
Proof. unfold hex_of. by intros ->. Qed.

Lemma line_of_lookup instructions k line hex :
  instructions !! k = Some (line, hex) → line_of instructions (Some k) = line.
Proof. unfold line_of. by intros ->. Qed.

(** Appending the packet owned by [i] keeps the invariant. *)
Lemma loop_inv_extend instructions i used used' packets plan p :
  loop_inv instructions i used packets plan →
  anchor p = i →
  well_placed instructions p →
  NoDup (members p) →
  (∀ k, k ∈ members p → used !! k = Some false) →
  length used' = length used →
  (∀ k, used' !! k = Some true ↔ k ∈ members p ∨ used !! k = Some true) →
  loop_inv instructions (S i) used' (packets ++ [emit instructions p])
    (plan ++ [p]).
Proof.
  intros [Hpk Hlen0 Hnd0 Hused Hdone Hord Hbef Hpl] Ha Hwp Hnd Hfree Hlen Hused'.
  assert (flat_map members (plan ++ [p]) = flat_map members plan ++ members p)
    as Hflat by (rewrite flat_map_app; simpl; by rewrite app_nil_r).
  split.
  - subst packets. by rewrite map_app.
  - congruence.
  - rewrite Hflat. apply NoDup_app. split; [done|]. split; [|done].
    intros k Hk Hk'. apply Hused in Hk. specialize (Hfree k Hk'). congruence.
  - intros k. rewrite Hflat, elem_of_app, Hused', Hused. tauto.
  - intros k Hk. apply Hused'.
    destruct (decide (k = i)) as [->|]; [|right; apply Hdone; lia].
    left. rewrite <- Ha. apply Hwp.
  - rewrite map_app. apply StronglySorted_app. split; [|split].
    + intros a b Ha' Hb. apply list_elem_of_fmap in Ha' as (q & -> & Hq).
      apply list_elem_of_singleton in Hb. subst b.
      rewrite Forall_forall in Hbef. rewrite Ha. by apply Hbef.
    + done.
    + repeat constructor.
  - apply Forall_app. split.
    + eapply Forall_impl; [exact Hbef|]. intros q Hq. cbv beta in Hq. lia.
    + constructor; [lia | constructor].
  - apply Forall_app. split; [done|]. constructor; [exact Hwp | constructor].
Qed.

Lemma loop_inv_skip instructions i used packets plan :
  loop_inv instructions i used packets plan →
  used !! i = Some true →
  loop_inv instructions (S i) used packets plan.
Proof.
  intros [Hpk Hlen0 Hnd0 Hused Hdone Hord Hbef Hpl] Hi. split; try done.
  - intros k Hk. destruct (decide (k = i)) as [->|]; [done|].
    apply Hdone. lia.
  - eapply Forall_impl; [exact Hbef|]. intros q Hq. cbv beta in Hq. lia.
Qed.

Lemma well_placed_alone1 instructions i :
  is_special (hex_of instructions i) = OK false →
  well_placed instructions (Placement i (Some i) None).
Proof.
  intros Hs. split; cbn.
  - apply list_elem_of_singleton. done.
  - intros k ->%list_elem_of_singleton. done.
  - by intros a [= <-].
  - discriminate.
Qed.

Lemma well_placed_alone2 instructions i :
  well_placed instructions (Placement i None (Some i)).
Proof.
  split; cbn.
  - apply list_elem_of_singleton. done.
  - intros k ->%list_elem_of_singleton. done.
  - discriminate.
  - discriminate.
Qed.

Lemma elem_of_pair (a b k : nat) : k ∈ [a; b] ↔ k = a ∨ k = b.
Proof. rewrite elem_of_cons, list_elem_of_singleton. done. Qed.

Lemma NoDup_pair (a b : nat) : a ≠ b → NoDup [a; b].
Proof.
  intros Hne. apply NoDup_cons. split.
  - by intros ->%list_elem_of_singleton.
  - apply NoDup_singleton.
Qed.

(** One turn of the loop keeps the invariant. *)
Lemma schedule_step_inv instructions i used packets plan used' packets' :
  loop_inv instructions i used packets plan →
  schedule_step instructions (length instructions) i (used, packets)
    = OK (used', packets') →
  ∃ plan', loop_inv instructions (S i) used' packets' plan'.
Proof.
  intros Hinv H. unfold schedule_step in H.
  apply bind_OK in H as (u & Hu & H). apply of_option_OK in Hu.
  destruct u.
  { injection H as <- <-. exists plan. by apply loop_inv_skip. }
  apply bind_OK in H as ([curr_line curr_hex] & Hi & H).
  apply of_option_OK in Hi.
  apply bind_OK in H as (sp & Hsp & H).
  assert (i < length used) as Hlt by (by eapply lookup_lt_Some).
  pose proof (hex_of_lookup _ _ _ _ Hi) as Hhex.
  pose proof (line_of_lookup _ _ _ _ Hi) as Hline.
  destruct sp; apply bind_OK in H as (cand & Hc & H); destruct cand as [j|].
  - (* a special instruction and a partner for slot1 *)
    apply find_candidate_Some in Hc as (Hj & Huj & cl & ch & Hij & Ht).
    apply elem_of_range_after in Hj. apply slot1_test_true in Ht as [Hns Hhz].
    rewrite Hij in H. cbn in H. injection H as <- <-.
    exists (plan ++ [Placement i (Some j) (Some i)]).
    replace (cl, curr_line)
      with (emit instructions (Placement i (Some j) (Some i)))
      by (unfold emit; cbn [slot1 slot2];
          by rewrite Hline, (line_of_lookup _ _ _ _ Hij)).
    apply (loop_inv_extend _ _ used); try done.
    + split; cbn.
      * apply elem_of_pair. by right.
      * intros k [->| ->]%elem_of_pair; lia.
      * intros a [= <-]. by rewrite (hex_of_lookup _ _ _ _ Hij).
      * intros a b [= <-] [= <-].
        by rewrite Hhex, (hex_of_lookup _ _ _ _ Hij).
    + apply NoDup_pair. lia.
    + intros k [->| ->]%elem_of_pair; done.
    + by rewrite !length_insert.
    + intros k. cbn. rewrite elem_of_pair, used_insert
        by (rewrite length_insert; lia).
      rewrite used_insert by (apply lookup_lt_Some in Huj; lia). tauto.
  - (* a special instruction alone *)
    injection H as <- <-.
    exists (plan ++ [Placement i None (Some i)]).
    replace (nop_line, curr_line)
      with (emit instructions (Placement i None (Some i)))
      by (unfold emit; cbn [slot1 slot2]; by rewrite Hline).
    apply (loop_inv_extend _ _ used); try done.
    + apply well_placed_alone2.
    + apply NoDup_singleton.
    + intros k ->%list_elem_of_singleton. done.
    + by rewrite length_insert.
    + intros k. cbn. rewrite list_elem_of_singleton, used_insert by done. tauto.
  - (* an ordinary instruction and a partner for slot2 *)
    apply find_candidate_Some in Hc as (Hj & Huj & cl & ch & Hij & Ht).
    apply elem_of_range_after in Hj. apply safe_pair_true in Ht.
    rewrite Hij in H. cbn in H. injection H as <- <-.
    exists (plan ++ [Placement i (Some i) (Some j)]).
    replace (curr_line, cl)
      with (emit instructions (Placement i (Some i) (Some j)))
      by (unfold emit; cbn [slot1 slot2];
          by rewrite Hline, (line_of_lookup _ _ _ _ Hij)).
    apply (loop_inv_extend _ _ used); try done.
    + split; cbn.
      * apply elem_of_pair. by left.
      * intros k [->| ->]%elem_of_pair; lia.
      * intros a [= <-]. by rewrite Hhex.
      * intros a b [= <-] [= <-].
        by rewrite Hhex, (hex_of_lookup _ _ _ _ Hij).
    + apply NoDup_pair. lia.
    + intros k [->| ->]%elem_of_pair; done.
    + by rewrite !length_insert.
    + intros k. cbn. rewrite elem_of_pair, used_insert
        by (rewrite length_insert; apply lookup_lt_Some in Huj; lia).
      rewrite used_insert by done. tauto.
  - (* an ordinary instruction alone *)
    injection H as <- <-.
    exists (plan ++ [Placement i (Some i) None]).
    replace (curr_line, nop_line)
      with (emit instructions (Placement i (Some i) None))
      by (unfold emit; cbn [slot1 slot2]; by rewrite Hline).
    apply (loop_inv_extend _ _ used); try done.
    + apply well_placed_alone1. by rewrite Hhex.
    + apply NoDup_singleton.
    + intros k ->%list_elem_of_singleton. done.
    + by rewrite length_insert.
    + intros k. cbn. rewrite list_elem_of_singleton, used_insert by done. tauto.
Qed.

Lemma schedule_loop_inv instructions len i used packets plan used' packets' :
  loop_inv instructions i used packets plan →
  schedule_loop instructions (length instructions) (seq i len) (used, packets)
    = OK (used', packets') →
  ∃ plan', loop_inv instructions (i + len) used' packets' plan'.
Proof.
  revert i used packets plan.
  induction len as [|len IH]; intros i used packets plan Hinv H; cbn in H.
  - injection H as <- <-. exists plan. by rewrite Nat.add_0_r.
  - apply bind_OK in H as ([used1 packets1] & Hstep & H).
    destruct (schedule_step_inv _ _ _ _ _ _ _ Hinv Hstep) as [plan1 Hinv1].
    destruct (IH _ _ _ _ Hinv1 H) as [plan' Hinv'].
    exists plan'. by replace (i + S len) with (S i + len) by lia.
Qed.

Lemma loop_inv_start instructions :
  loop_inv instructions 0 (replicate (length instructions) false) [] [].
Proof.
  split; cbn; try done.
  - apply length_replicate.
  - apply NoDup_nil. done.
  - intros k. split; [by intros ?%not_elem_of_nil|].
    intros [? _]%lookup_replicate. done.
  - lia.
  - constructor.
Qed.

(** The packets of a run come from a plan that places every input
    instruction exactly once, keeps the anchors in input order and fills
    every packet as [well_placed] says. *)
Lemma schedule_plan instructions packets :
  schedule_instructions_enhanced instructions = OK packets →
  ∃ plan,
    packets = map (emit instructions) plan
    ∧ flat_map members plan ≡ₚ seq 0 (length instructions)
    ∧ StronglySorted lt (map anchor plan)
    ∧ Forall (well_placed instructions) plan.
Proof.
  unfold schedule_instructions_enhanced. intros H.
  apply bind_OK in H as ([used' packets'] & Hloop & H).
  injection H as <-. cbn.
  destruct (schedule_loop_inv _ _ _ _ _ _ _ _ (loop_inv_start instructions) Hloop)
    as [plan [Hpk Hlen Hnd Hused Hdone Hord Hbef Hpl]].
  exists plan. repeat split; try done.
  apply NoDup_Permutation; [done | apply NoDup_seq |].
  intros k. rewrite Hused, elem_of_seq. split.
  - intros Hk%lookup_lt_Some. lia.
  - intros Hk. apply Hdone. lia.
Qed.

(** *** The scheduler returns on well-formed input *)


Lemma find_candidate_total test instructions used js :
  hex_words instructions →
  (∀ hex, is_hex_word hex = true → ∃ b, test hex = OK b) →
  Forall (λ j, j < length used ∧ j < length instructions) js →
  ∃ c, find_candidate test instructions used js = OK c.
Proof.
  intros Hw Htest. induction 1 as [|j js [Hju Hji] _ IH];
    cbn [find_candidate]; [eauto|].
  destruct (lookup_lt_is_Some_2 used j Hju) as [u ->].
  destruct (lookup_lt_is_Some_2 instructions j Hji) as [[line hex] Hj].
  rewrite of_option_Some, bind_OK_l. destruct u; cbn [negb]; [done|].
  rewrite Hj, of_option_Some, bind_OK_l.
  destruct (Htest hex) as [b ->].
  { unfold hex_words in Hw. rewrite Forall_forall in Hw. apply (Hw (line, hex)).
    by eapply list_elem_of_lookup_2. }
  rewrite bind_OK_l. destruct b; eauto.
Qed.

Lemma slot1_test_total curr_hex cand_hex :
  is_hex_word curr_hex = true → is_hex_word cand_hex = true →
  ∃ b, slot1_test curr_hex cand_hex = OK b.
Proof.
  intros Hc Hd. unfold slot1_test.
  destruct (is_special_total _ Hd) as [s ->]. rewrite bind_OK_l.
  destruct s; cbn [negb]; [eauto|]. by apply safe_pair_total.
Qed.

Lemma schedule_step_total instructions i used packets :
  hex_words instructions →
  length used = length instructions → i < length instructions →
  ∃ used' packets',
    schedule_step instructions (length instructions) i (used, packets)
      = OK (used', packets')
    ∧ length used' = length instructions.
Proof.
  intros Hw Hlen Hi. unfold schedule_step.
  destruct (lookup_lt_is_Some_2 used i) as [u ->]; [lia|].
  rewrite of_option_Some, bind_OK_l. destruct u; [eauto|].
  destruct (lookup_lt_is_Some_2 instructions i Hi) as [[line hex] Hl].
  rewrite Hl, of_option_Some, bind_OK_l.
  assert (is_hex_word hex = true) as Hhex.
  { unfold hex_words in Hw. rewrite Forall_forall in Hw. apply (Hw (line, hex)).
    by eapply list_elem_of_lookup_2. }
  assert (Forall (λ j, j < length used ∧ j < length instructions)
            (range_after i (length instructions))) as Hrange.
  { apply Forall_forall. intros j Hj%elem_of_range_after. lia. }
  destruct (is_special_total _ Hhex) as [sp ->]. rewrite bind_OK_l.
  destruct sp.
  - destruct (find_candidate_total (slot1_test hex) instructions used _ Hw
                (λ h, slot1_test_total hex h Hhex) Hrange) as [c Hc].
    rewrite Hc, bind_OK_l. pose proof Hc as Hc'. destruct c as [j|].
    + apply find_candidate_Some in Hc' as (_ & _ & cl & ch & -> & _).
      rewrite of_option_Some, bind_OK_l. do 2 eexists. split; [done|].
      by rewrite !length_insert.
    + do 2 eexists. split; [done|]. by rewrite length_insert.
  - destruct (find_candidate_total (safe_pair hex) instructions used _ Hw
                (λ h, safe_pair_total hex h Hhex) Hrange) as [c Hc].
    rewrite Hc, bind_OK_l. pose proof Hc as Hc'. destruct c as [j|].
    + apply find_candidate_Some in Hc' as (_ & _ & cl & ch & -> & _).
      rewrite of_option_Some, bind_OK_l. do 2 eexists. split; [done|].
      by rewrite !length_insert.
    + do 2 eexists. split; [done|]. by rewrite length_insert.
Qed.

Lemma schedule_loop_total instructions len i used packets :
  hex_words instructions →
  length used = length instructions → i + len ≤ length instructions →
  ∃ st, schedule_loop instructions (length instructions) (seq i len)
          (used, packets) = OK st.
Proof.
  intros Hw. revert i used packets.
  induction len as [|len IH]; intros i used packets Hlen Hi;
    cbn [seq schedule_loop]; [eauto|].
  destruct (schedule_step_total instructions i used packets Hw Hlen)
    as (used' & packets' & -> & Hlen'); [lia|].
  rewrite bind_OK_l. apply IH; [done | lia].
Qed.

(** On 8-hex-digit words the scheduler raises nothing. *)
Lemma schedule_total instructions :
  hex_words instructions →
  ∃ packets, schedule_instructions_enhanced instructions = OK packets.
Proof.
  intros Hw. unfold schedule_instructions_enhanced.
  destruct (schedule_loop_total instructions (length instructions) 0
              (replicate (length instructions) false) [] Hw)
    as [st ->]; [apply length_replicate | lia |].
  rewrite bind_OK_l. eauto.
Qed.


Lemma omap_lookup_seq {A} (pre l : list A) :
  omap (λ k, (pre ++ l) !! k) (seq (length pre) (length l)) = l.
Proof.
  revert pre. induction l as [|x l IH]; intros pre; cbn; [done|].
  rewrite list_lookup_middle by done. f_equal.
  specialize (IH (pre ++ [x])).
  rewrite length_app, <- app_assoc in IH. cbn in IH.
  by rewrite Nat.add_1_r in IH.
Qed.

Lemma placed_all instructions plan :
  flat_map members plan ≡ₚ seq 0 (length instructions) →
  placed instructions plan ≡ₚ instructions.
Proof.
  intros Hp. unfold placed. rewrite Hp.
  pose proof (omap_lookup_seq [] instructions) as H. cbn in H. by rewrite H.
Qed.

End Schedule.

(** ** Strings of binary digits *)

Section Bits.
Local Open Scope nat_scope.

Lemma str_app_cons c (s t : string) : String c s +:+ t = String c (s +:+ t).
Proof. reflexivity. Qed.

Lemma str_app_nil_l (t : string) : "" +:+ t = t.
Proof. reflexivity. Qed.

Lemma str_length_app (s t : string) :
  String.length (s +:+ t) = String.length s + String.length t.
Proof.
  induction s as [|c s IH]; [done|].
  rewrite str_app_cons. cbn [String.length]. by rewrite IH.
Qed.

Lemma str_app_assoc (s t u : string) : (s +:+ t) +:+ u = s +:+ (t +:+ u).
Proof.
  induction s as [|c s IH]; [done|]. rewrite !str_app_cons. by rewrite IH.
Qed.

Lemma str_app_nil_r (s : string) : s +:+ "" = s.
Proof.
  induction s as [|c s IH]; [done|]. rewrite str_app_cons. by rewrite IH.
Qed.

Lemma bits_intro n s :
  String.length s = n → all_chars is_bit s = true → bits n s = true.
Proof. intros <- H. unfold bits. by rewrite Nat.eqb_refl, H. Qed.

Lemma bits_elim n s :
  bits n s = true → String.length s = n ∧ all_chars is_bit s = true.
Proof. unfold bits. intros [H1%Nat.eqb_eq H2]%andb_prop. done. Qed.

Lemma bits_app n m s t :
  bits n s = true → bits m t = true → bits (n + m) (s +:+ t) = true.
Proof.
  intros [Hn Hs]%bits_elim [Hm Ht]%bits_elim. apply bits_intro.
  - rewrite str_length_app. lia.
  - by rewrite all_chars_app, Hs, Ht.
Qed.

Lemma strip_us_app s t : strip_us (s +:+ t) = strip_us s +:+ strip_us t.
Proof.
  unfold strip_us. induction s as [|c s IH]; [done|].
  rewrite str_app_cons. cbn [Py.replace_char].
  destruct (Ascii.eqb c "_"); rewrite IH; [|by rewrite str_app_cons].
  by rewrite !str_app_nil_l.
Qed.

Lemma is_bit_not_underscore c : is_bit c = true → Py.is_underscore c = false.
Proof. intros H. by destruct (digit_plain _ _ H) as (_ & ? & _). Qed.

Lemma strip_us_bits s : all_chars is_bit s = true → strip_us s = s.
Proof.
  unfold strip_us. induction s as [|c s IH]; [done|].
  cbn [all_chars Py.replace_char].
  intros [Hc Hs]%andb_prop. apply is_bit_not_underscore in Hc.
  unfold Py.is_underscore in Hc. rewrite Hc. by rewrite IH.
Qed.

Lemma all_bits_field s :
  all_chars is_bit s = true → all_chars field_char s = true.
Proof.
  apply all_chars_impl. intros c Hc. unfold field_char. by rewrite Hc.
Qed.

(** *** The value of a digit string *)

Lemma digits_value_app base acc s t :
  digits_value base acc (s +:+ t)
  = digits_value base (digits_value base acc s) t.
Proof. revert acc. induction s as [|c s IH]; intros acc; cbn; [done | apply IH]. Qed.

Lemma digits_value_acc base acc s :
  digits_value base acc s
  = (acc * base ^ Z.of_nat (String.length s) + digits_value base 0 s)%Z.
Proof.
  revert acc. induction s as [|c s IH]; intros acc.
  - cbn. lia.
  - cbn [digits_value String.length].
    rewrite (IH (acc * base + _)%Z), (IH (0 * base + _)%Z).
    rewrite Nat2Z.inj_succ, Z.pow_succ_r by lia. lia.
Qed.

Lemma digits_value_range s :
  all_chars is_bit s = true →
  (0 ≤ digits_value 2 0 s < 2 ^ Z.of_nat (String.length s))%Z.
Proof.
  induction s as [|c s IH]; [cbn; lia|]. cbn [all_chars].
  intros [Hc Hs]%andb_prop. cbn [digits_value String.length].
  rewrite digits_value_acc. specialize (IH Hs).
  rewrite Nat2Z.inj_succ, Z.pow_succ_r by lia.
  unfold is_bit, Py.is_digit in Hc.
  destruct (Py.digit_value c) as [d|] eqn:Hd; [|discriminate].
  apply Z.ltb_lt in Hc. cbn [default].
  assert (0 ≤ d)%Z.
  { revert Hd. unfold Py.digit_value.
    repeat case_match; intros [= <-]; lia. }
  unfold id. assert (d = 0 ∨ d = 1)%Z as [-> | ->] by lia; lia.
Qed.

(** *** [format(n, '0Wb')] *)

Lemma bin_pos_acc p acc : Py.bin_pos p acc = Py.bin_pos p "" +:+ acc.
Proof.
  revert acc. induction p as [p IH|p IH|]; intros acc; cbn; [| |done].
  - rewrite (IH (String "1" acc)), (IH "1"%string). by rewrite str_app_assoc.
  - rewrite (IH (String "0" acc)), (IH "0"%string). by rewrite str_app_assoc.
Qed.

Lemma bin_pos_bits p : all_chars is_bit (Py.bin_pos p "") = true.
Proof.
  induction p as [p IH|p IH|]; cbn; [| |done];
    rewrite bin_pos_acc, all_chars_app, IH; done.
Qed.

Lemma bin_pos_length p : String.length (Py.bin_pos p "") = Pos.size_nat p.
Proof.
  induction p as [p IH|p IH|]; cbn; [| |done];
    rewrite bin_pos_acc, str_length_app, IH; cbn; lia.
Qed.

Lemma bin_pos_value p : digits_value 2 0 (Py.bin_pos p "") = Z.pos p.
Proof.
  induction p as [p IH|p IH|]; cbn; [| |done];
    rewrite bin_pos_acc, digits_value_app, IH; cbn [digits_value];
    [change (Py.digit_value "1") with (Some 1%Z)
    |change (Py.digit_value "0") with (Some 0%Z)]; cbn [default from_option id]; lia.
Qed.

Lemma size_nat_bound p w : (Z.pos p < 2 ^ Z.of_nat w)%Z → Pos.size_nat p ≤ w.
Proof.
  revert w. induction p as [p IH|p IH|]; intros w Hp; cbn.
  - destruct w as [|w]; [cbn in Hp; lia|].
    rewrite Nat2Z.inj_succ, Z.pow_succ_r in Hp by lia.
    specialize (IH w). lia.
  - destruct w as [|w]; [cbn in Hp; lia|].
    rewrite Nat2Z.inj_succ, Z.pow_succ_r in Hp by lia.
    specialize (IH w). lia.
  - destruct w as [|w]; [cbn in Hp; lia | lia].
Qed.

Lemma zeros_length n : String.length (Py.zeros n) = n.
Proof. induction n as [|n IH]; cbn; [done | by rewrite IH]. Qed.

Lemma zeros_bits n : all_chars is_bit (Py.zeros n) = true.
Proof. induction n as [|n IH]; cbn; done. Qed.

Lemma zeros_value n s :
  digits_value 2 0 (Py.zeros n +:+ s) = digits_value 2 0 s.
Proof. induction n as [|n IH]; cbn; done. Qed.

Lemma zero_pad_plain w digits :
  Py.zero_pad w false digits
  = Py.zeros (w - String.length digits) +:+ digits.
Proof.
  unfold Py.zero_pad. rewrite str_app_nil_l.
  change (String.length "") with 0. by rewrite Nat.sub_0_r.
Qed.

Lemma zero_pad_fits w digits :
  String.length digits ≤ w → all_chars is_bit digits = true →
  bits w (Py.zero_pad w false digits) = true
  ∧ digits_value 2 0 (Py.zero_pad w false digits) = digits_value 2 0 digits.
Proof.
  intros Hl Hd. rewrite zero_pad_plain. split.
  - apply bits_intro.
    + rewrite str_length_app, zeros_length. lia.
    + by rewrite all_chars_app, zeros_bits.
  - apply zeros_value.
Qed.

(** A value that fits is written with exactly [w] binary digits. *)
Lemma format_b_fits w v :
  0 < w → (0 ≤ v < 2 ^ Z.of_nat w)%Z →
  bits w (Py.format_b w v) = true
  ∧ digits_value 2 0 (Py.format_b w v) = v.
Proof.
  intros Hw Hv. destruct v as [|p|p]; [| |lia]; unfold Py.format_b.
  - apply (zero_pad_fits w "0"); [cbn; lia | done].
  - destruct (zero_pad_fits w (Py.bin_pos p "")) as [Hb Hval].
    + rewrite bin_pos_length. apply size_nat_bound. lia.
    + apply bin_pos_bits.
    + split; [done|]. by rewrite Hval, bin_pos_value.
Qed.

(** A mask keeps a value within its width. *)
Lemma format_b_masked v :
  bits 16 (Py.format_b 16 (Z.land v 0xFFFF)) = true
  ∧ digits_value 2 0 (Py.format_b 16 (Z.land v 0xFFFF)) = (v mod 2 ^ 16)%Z.
Proof.
  change 0xFFFF%Z with (Z.ones 16). rewrite Z.land_ones by lia.
  apply format_b_fits; [lia|]. apply Z.mod_pos_bound. lia.
Qed.

End Bits.

(** ** The tables of the encoder *)

Section Tables.
Import Assembler.

Lemma table_lookup (table : list (string * string)) (P : string → string → bool)
    key value :
  forallb (λ kv, P (fst kv) (snd kv)) table = true →
  (list_to_map table : gmap string string) !! key = Some value →
  P key value = true.
Proof.
  intros Hall Hl%elem_of_list_to_map_2%list_elem_of_In.
  rewrite forallb_forall in Hall. exact (Hall _ Hl).
Qed.

Lemma register_lookup name code :
  registers !! name = Some code →
  bits 5 code = true ∧ Py.contains_char "(" name = false
  ∧ Py.int name 10 = None.
Proof.
  intros H. apply (table_lookup registers_list register_entry) in H.
  - unfold register_entry in H.
    apply andb_prop in H as [[[H1 H2]%andb_prop H3]%andb_prop _].
    apply negb_true_iff in H2. apply bool_decide_eq_true in H3. done.
  - vm_compute. reflexivity.
Qed.

Lemma opcode_lookup name code : opcodes !! name = Some code → bits 6 code = true.
Proof.
  apply (table_lookup _ (λ _ code, bits 6 code)). vm_compute. reflexivity.
Qed.

Lemma func_lookup name code :
  func_codes !! name = Some code → bits 6 code = true.
Proof.
  apply (table_lookup _ (λ _ code, bits 6 code)). vm_compute. reflexivity.
Qed.

Lemma register_OK name code : register name = OK code → bits 5 code = true.
Proof. intros H%of_option_OK. by apply register_lookup in H as (? & _). Qed.

Lemma opcode_bits_OK name code : opcode_bits name = OK code → bits 6 code = true.
Proof. intros H%of_option_OK. by apply opcode_lookup in H. Qed.

Lemma func_bits_OK name code : func_bits name = OK code → bits 6 code = true.
Proof. intros H%of_option_OK. by apply func_lookup in H. Qed.

End Tables.

(** ** Words made of fields *)

Section Fields.
Import Assembler.
Local Open Scope nat_scope.

Lemma word_of_bits n s : bits n s = true → word_of n s.
Proof.
  intros [Hl Hb]%bits_elim. split; [by apply all_bits_field|].
  rewrite strip_us_bits by done. by apply bits_intro.
Qed.

Lemma word_of_field n m s t :
  bits n s = true → word_of m t → word_of (n + m) (s +:+ "_" +:+ t).
Proof.
  intros Hs [Ht1 Ht2]. pose proof Hs as [Hl Hb]%bits_elim. split.
  - rewrite !all_chars_app, (all_bits_field _ Hb), Ht1. done.
  - rewrite !strip_us_app, (strip_us_bits s Hb).
    change (strip_us "_") with "". rewrite str_app_nil_l.
    by apply bits_app.
Qed.

Lemma fields_cons f g fs : fields (f :: g :: fs) = f +:+ "_" +:+ fields (g :: fs).
Proof. reflexivity. Qed.

Lemma fields_r_type op rs rt rd shamt func :
  bits 6 op = true → bits 5 rs = true → bits 5 rt = true →
  bits 5 rd = true → bits 5 shamt = true → bits 6 func = true →
  word_of 32 (fields [op; rs; rt; rd; shamt; func]).
Proof.
  intros. rewrite !fields_cons.
  apply (word_of_field 6 26); [done|]. apply (word_of_field 5 21); [done|].
  apply (word_of_field 5 16); [done|]. apply (word_of_field 5 11); [done|].
  apply (word_of_field 5 6); [done|]. by apply word_of_bits.
Qed.

Lemma fields_i_type op rs rt imm :
  bits 6 op = true → bits 5 rs = true → bits 5 rt = true →
  bits 16 imm = true → word_of 32 (fields [op; rs; rt; imm]).
Proof.
  intros. rewrite !fields_cons.
  apply (word_of_field 6 26); [done|]. apply (word_of_field 5 21); [done|].
  apply (word_of_field 5 16); [done|]. by apply word_of_bits.
Qed.

Lemma fields_j_type op address :
  bits 6 op = true → bits 26 address = true →
  word_of 32 (fields [op; address]).
Proof.
  intros. rewrite !fields_cons.
  apply (word_of_field 6 26); [done|]. by apply word_of_bits.
Qed.

(** *** Lines of the encoder's text *)

Lemma encoder_char_plain c : encoder_char c = true → Py.islinebreak c = false.
Proof.
  unfold encoder_char, is_bit, Py.is_digit, Py.is_underscore.
  each_char c; vm_compute; first [reflexivity | discriminate].
Qed.

Lemma field_encoder_char c : field_char c = true → encoder_char c = true.
Proof. unfold field_char, encoder_char. by intros ->. Qed.

Lemma encoder_chars_one_line s :
  all_chars encoder_char s = true → one_line s = true.
Proof.
  apply all_chars_impl. intros c Hc%encoder_char_plain. by rewrite Hc.
Qed.

Lemma field_chars_one_line s :
  all_chars field_char s = true → one_line s = true.
Proof.
  intros H. apply encoder_chars_one_line. revert H.
  apply all_chars_impl, field_encoder_char.
Qed.

Lemma splitlines_plain s :
  s ≠ "" → one_line s = true → Py.splitlines s = [s].
Proof.
  unfold one_line. induction s as [|c s IH]; [done|]. intros _. cbn [all_chars].
  intros [Hc%negb_true_iff Hs]%andb_prop.
  cbn [Py.splitlines]. rewrite Hc.
  destruct s as [|d s]; [done|]. by rewrite IH.
Qed.

Lemma splitlines_newline s :
  Py.splitlines (newline +:+ s) = "" :: Py.splitlines s.
Proof. by destruct s. Qed.

Lemma splitlines_two s t :
  one_line s = true →
  Py.splitlines (s +:+ newline +:+ t) = s :: Py.splitlines t.
Proof.
  unfold one_line.
  induction s as [|c s IH]; [intros _; apply splitlines_newline|].
  cbn [all_chars]. intros [Hc%negb_true_iff Hs]%andb_prop.
  rewrite str_app_cons. cbn [Py.splitlines]. rewrite Hc.
  by rewrite (IH Hs).
Qed.

Lemma word_of_nonempty n w : 0 < n → word_of n w → w ≠ "".
Proof.
  intros Hn [_ [Hl _]%bits_elim] ->. cbn in Hl. lia.
Qed.

Lemma word_of_line n w : 0 < n → word_of n w → Py.splitlines w = [w].
Proof.
  intros Hn Hw. apply splitlines_plain; [by eapply word_of_nonempty|].
  apply field_chars_one_line, Hw.
Qed.

End Fields.

(** ** The shape of the encoder's results *)

Section Encoder.
Import Assembler.

Lemma shift_count_fits n :
  (0 ≤ n < 32)%Z → bits 5 (Py.format_b 5 n) = true.
Proof. intros Hn. by apply (format_b_fits 5 n); [lia|]. Qed.

Lemma assemble_r_type_word opcode operands w :
  assemble_r_type opcode operands = OK w →
  (opcode ∈ shift_mnemonics →
   ∀ n, shift_count operands = OK n → (0 ≤ n < 32)%Z) →
  word_of 32 w.
Proof.
  unfold assemble_r_type. intros H Hshift.
  apply bind_OK in H as ([[[rs rt] rd] shamt] & Hregs & H).
  apply bind_OK in H as (func & Hfunc%func_bits_OK & H).
  apply bind_OK in H as (op & Hop%opcode_bits_OK & H).
  injection H as <-.
  assert (bits 5 rs = true ∧ bits 5 rt = true ∧ bits 5 rd = true
          ∧ bits 5 shamt = true) as (? & ? & ? & ?);
    [|by apply fields_r_type].
  case_bool_decide as Hsh; [|case_decide as Hjr].
  - ok_inv Hregs. subst.
    apply bind_OK in Ha as (? & _ & ?%register_OK).
    apply bind_OK in Ha0 as (? & _ & ?%register_OK).
    repeat split; try done. apply shift_count_fits. by apply Hshift.
  - ok_inv Hregs. subst.
    apply bind_OK in Ha as (? & _ & ?%register_OK). done.
  - ok_inv Hregs. subst.
    apply bind_OK in Ha as (? & _ & ?%register_OK).
    apply bind_OK in Ha0 as (? & _ & ?%register_OK).
    apply bind_OK in Ha1 as (? & _ & ?%register_OK). done.
Qed.

Lemma assemble_i_type_word opcode operands label_map current_address w :
  assemble_i_type opcode operands label_map current_address = OK w →
  word_of 32 w.
Proof.
  unfold assemble_i_type. intros H.
  apply bind_OK in H as (op1 & _ & H).
  apply bind_OK in H as ([[rs rt] imm] & Hregs & H).
  apply bind_OK in H as (op & Hop%opcode_bits_OK & H).
  injection H as <-.
  assert (bits 5 rs = true ∧ bits 5 rt = true ∧ bits 16 imm = true)
    as (? & ? & ?); [|by apply fields_i_type].
  destruct (_ && _) in Hregs; [|destruct (_ && _) in Hregs].
  - apply bind_OK in Hregs as ([offset base] & _ & Hregs).
    ok_inv Hregs. subst.
    apply bind_OK in Ha0 as (? & _ & ?%register_OK).
    apply register_OK in Ha1. repeat split; try done. apply format_b_masked.
  - ok_inv Hregs. subst.
    apply bind_OK in Ha as (? & _ & ?%register_OK).
    apply register_OK in Ha0. repeat split; try done. apply format_b_masked.
  - ok_inv Hregs. subst.
    apply bind_OK in Ha as (? & _ & ?%register_OK).
    apply register_OK in Ha0. repeat split; try done. apply format_b_masked.
Qed.

Lemma assemble_j_type_word opcode operands label_map w :
  assemble_j_type opcode operands label_map = OK w →
  (∀ a, jump_target operands label_map = OK a → (0 ≤ a < 2 ^ 26)%Z) →
  word_of 32 w.
Proof.
  unfold assemble_j_type. intros H Hrange.
  apply bind_OK in H as (address & Ha & H).
  apply bind_OK in H as (op & Hop%opcode_bits_OK & H).
  injection H as <-. apply fields_j_type; [done|].
  by apply (format_b_fits 26 address); [lia | apply Hrange].
Qed.

Lemma lowered_branch_words branch a b operands label_map current_address text :
  lowered_branch branch a b operands label_map current_address = OK text →
  ∃ slt_word branch_word target,
    text = slt_word +:+ newline +:+ branch_word
    ∧ operand operands 2 = OK target
    ∧ assemble_i_type branch [temp_reg; "$0"; target] label_map current_address
      = OK branch_word
    ∧ word_of 32 slt_word ∧ word_of 32 branch_word
    ∧ Py.splitlines text = [slt_word; branch_word].
Proof.
  unfold lowered_branch. intros H.
  apply bind_OK in H as (x & _ & H). apply bind_OK in H as (y & _ & H).
  apply bind_OK in H as (slt_word & Hslt & H).
  apply bind_OK in H as (target & Htarget & H).
  apply bind_OK in H as (branch_word & Hbr & H). injection H as <-.
  apply assemble_r_type_word in Hslt.
  2:{ closed_not_elem. }
  pose proof (assemble_i_type_word _ _ _ _ _ Hbr) as Hw.
  exists slt_word, branch_word, target. repeat split; try done; try apply Hslt;
    try apply Hw.
  rewrite splitlines_two by apply field_chars_one_line, Hslt.
  by rewrite (word_of_line 32) by (done || lia).
Qed.

End Encoder.

(** ** The encoder on register operands *)

Section EncoderRuns.
Import Assembler Pipeline.

Lemma register_Some name code :
  registers !! name = Some code → register name = OK code.
Proof. unfold register. by intros ->. Qed.

Lemma operand_0 x xs : operand (x :: xs) 0 = OK x.
Proof. reflexivity. Qed.

Lemma operand_1 x y xs : operand (x :: y :: xs) 1 = OK y.
Proof. reflexivity. Qed.

Lemma operand_2 x y z xs : operand (x :: y :: z :: xs) 2 = OK z.
Proof. reflexivity. Qed.

Lemma not_pseudo_branch opcode :
  opcode ≠ "blt" → opcode ≠ "bgt" → opcode ≠ "ble" → opcode ≠ "bge" →
  is_pseudo_branch opcode = false.
Proof.
  intros. apply bool_decide_eq_false. unfold pseudo_branches.
  rewrite !elem_of_cons, elem_of_nil. tauto.
Qed.

Lemma has_labels_nonempty (label_map : gmap string Z) :
  label_map ≠ ∅ → has_labels (Some label_map) = true.
Proof. intros H. by apply bool_decide_eq_true. Qed.

(** An R-type instruction with three registers, none of the shifts. *)
Lemma assemble_r_type_registers opcode r1 r2 r3 c1 c2 c3 func op :
  opcode ∉ shift_mnemonics → opcode ≠ "jr" →
  registers !! r1 = Some c1 → registers !! r2 = Some c2 →
  registers !! r3 = Some c3 →
  func_codes !! opcode = Some func → opcodes !! opcode = Some op →
  assemble_r_type opcode [r1; r2; r3]
  = OK (fields [op; c2; c3; c1; "00000"; func]).
Proof.
  intros Hsh Hjr H1 H2 H3 Hf Ho. unfold assemble_r_type.
  rewrite bool_decide_eq_false_2 by done. rewrite decide_False by done.
  rewrite operand_0, operand_1, operand_2, !bind_OK_l.
  rewrite (register_Some _ _ H1), bind_OK_l, (register_Some _ _ H2), bind_OK_l,
    (register_Some _ _ H3), !bind_OK_l.
  unfold func_bits, opcode_bits. by rewrite Hf, Ho.
Qed.

(** A branch on two registers, with a label table that is not empty. *)
Lemma assemble_i_type_branch opcode r1 r2 label label_map B c1 c2 op :
  opcode ∈ ["beq"; "bne"] →
  registers !! r1 = Some c1 → registers !! r2 = Some c2 →
  opcodes !! opcode = Some op → label_map ≠ ∅ →
  assemble_i_type opcode [r1; r2; label] (Some label_map) (Some B)
  = match label_map !! label with
    | Some A => OK (fields [op; c1; c2; Py.format_b 16 (Z.land (A - B) 0xFFFF)])
    | None => Raise (KeyError_label_map label)
    end.
Proof.
  intros Hop H1 H2 Ho Hne. unfold assemble_i_type.
  rewrite operand_1, !bind_OK_l.
  destruct (register_lookup _ _ H2) as (_ & -> & _).
  rewrite andb_false_l.
  rewrite bool_decide_eq_true_2 by done.
  rewrite has_labels_nonempty by done.
  rewrite bool_decide_eq_true_2 by eauto.
  cbn [andb].
  rewrite operand_0, operand_2, !bind_OK_l.
  rewrite (register_Some _ _ H1), bind_OK_l, (register_Some _ _ H2), bind_OK_l.
  unfold lookup_label. cbn [mbind option_bind].
  destruct (label_map !! label) as [A|]; [|done].
  rewrite of_option_Some, !bind_OK_l. unfold opcode_bits. by rewrite Ho.
Qed.

(** How [assemble_instruction] dispatches a plain branch. *)
Lemma assemble_instruction_branch opcode operands label_map current_address :
  opcode ∈ ["beq"; "bne"] →
  assemble_instruction opcode operands label_map current_address
  = Some <$> assemble_i_type opcode operands label_map current_address.
Proof.
  rewrite !elem_of_cons, elem_of_nil. intros [->|[->|[]]]; reflexivity.
Qed.

(** How it lowers the four conditional branches. *)
Lemma assemble_instruction_pseudo opcode operands label_map current_address :
  opcode ∈ pseudo_branches →
  ∃ branch a b,
    branch ∈ ["beq"; "bne"]
    ∧ ((a = 0%nat ∧ b = 1%nat) ∨ (a = 1%nat ∧ b = 0%nat))
    ∧ assemble_instruction opcode operands label_map current_address
      = Some <$> lowered_branch branch a b operands label_map current_address.
Proof.
  unfold pseudo_branches. rewrite !elem_of_cons, elem_of_nil.
  intros [->|[->|[->|[->|[]]]]].
  - exists "bne", 0%nat, 1%nat. split; [set_solver|]. split; [by left | done].
  - exists "bne", 1%nat, 0%nat. split; [set_solver|]. split; [by right | done].
  - exists "beq", 1%nat, 0%nat. split; [set_solver|]. split; [by right | done].
  - exists "beq", 0%nat, 1%nat. split; [set_solver|]. split; [by left | done].
Qed.

End EncoderRuns.

(** ** The words of one encoded line *)

Section Words.
Import Assembler Pipeline.

(** With no operands only [nop] is encoded. *)
Lemma assemble_instruction_no_operands opcode label_map current_address text :
  assemble_instruction opcode [] label_map current_address = OK (Some text) →
  opcode = "nop".
Proof.
  intros H. unfold assemble_instruction in H.
  destruct (decide (opcode = "nop")) as [->|?]; [done|]. exfalso.
  repeat (destruct (decide _) as [_|_]; [discriminate H|]).
  unfold assemble_r_type, assemble_i_type, assemble_j_type, jump_target,
    shift_count in H.
  destruct (bool_decide (is_Some _)).
  { destruct (bool_decide _); [discriminate H|].
    destruct (decide _); discriminate H. }
  destruct (bool_decide _); [discriminate H|].
  destruct (bool_decide _); [|discriminate H].
  destruct (has_labels label_map); discriminate H.
Qed.

End Words.

(** ** The value of an encoded word *)

Section WordValue.
Import Assembler Pipeline.

Lemma word_value_bits n w :
  (0 < n)%nat → word_of n w →
  word_value w = OK (digits_value 2 0 (strip_us w))
  ∧ 0 ≤ digits_value 2 0 (strip_us w) < 2 ^ Z.of_nat n.
Proof.
  intros Hn [_ [Hl Hb]%bits_elim]. split.
  - unfold word_value. fold (strip_us w). rewrite int_digits; [done|reflexivity| |done].
    intros Hw. rewrite Hw in Hl. cbn in Hl. lia.
  - rewrite <- Hl. by apply digits_value_range.
Qed.

(** The low 16 bits of an I-type word are its immediate field. *)
Lemma i_type_low_bits op rs rt imm :
  bits 6 op = true → bits 5 rs = true → bits 5 rt = true →
  bits 16 imm = true →
  digits_value 2 0 (strip_us (fields [op; rs; rt; imm])) `mod` 2 ^ 16
  = digits_value 2 0 imm.
Proof.
  intros [_ Ho]%bits_elim [_ Hs]%bits_elim [_ Ht]%bits_elim Hi.
  pose proof Hi as [Hl Hb]%bits_elim.
  rewrite !fields_cons. cbn [fields].
  rewrite !strip_us_app. change (strip_us "_") with "".
  rewrite !str_app_nil_l, !strip_us_bits by done.
  rewrite !digits_value_app, (digits_value_acc 2 _ imm), Hl.
  pose proof (digits_value_range imm Hb) as Hr. rewrite Hl in Hr.
  rewrite Z.add_comm, Z.mod_add by lia. apply Z.mod_small. lia.
Qed.

End WordValue.

(** ** How many lines the encoder returns *)

Section Lines.
Import Assembler Pipeline.

Lemma bits_encoder_chars n s :
  bits n s = true → all_chars encoder_char s = true.
Proof.
  intros [_ H]%bits_elim. revert H. apply all_chars_impl.
  intros c Hc. unfold encoder_char. by rewrite Hc.
Qed.

Lemma format_b_chars w n : all_chars encoder_char (Py.format_b w n) = true.
Proof.
  assert (∀ neg digits, all_chars is_bit digits = true →
            all_chars encoder_char (Py.zero_pad w neg digits) = true) as Hpad.
  { intros neg digits Hd. unfold Py.zero_pad. rewrite !all_chars_app.
    rewrite (bits_encoder_chars _ _ (bits_intro _ _ eq_refl (zeros_bits _))).
    rewrite (bits_encoder_chars _ _ (bits_intro _ _ eq_refl Hd)).
    by destruct neg. }
  destruct n as [|p|p]; unfold Py.format_b; apply Hpad;
    first [done | apply bin_pos_bits].
Qed.

Lemma fields_chars fs :
  Forall (λ f, all_chars encoder_char f = true) fs →
  all_chars encoder_char (fields fs) = true.
Proof.
  induction 1 as [|f fs Hf Hfs IH]; [done|].
  destruct fs as [|g fs]; [done|].
  rewrite fields_cons, !all_chars_app, Hf, IH. done.
Qed.

Lemma fields_nonempty f g fs : fields (f :: g :: fs) ≠ "".
Proof.
  rewrite fields_cons. intros H%(f_equal String.length).
  rewrite !str_length_app in H. cbn in H. lia.
Qed.

Lemma encoder_line fs :
  (2 ≤ length fs)%nat →
  Forall (λ f, all_chars encoder_char f = true) fs →
  Py.splitlines (fields fs) = [fields fs].
Proof.
  intros Hl Hfs. apply splitlines_plain.
  - destruct fs as [|f [|g fs]]; cbn in Hl; [lia..|]. apply fields_nonempty.
  - by apply encoder_chars_one_line, fields_chars.
Qed.

Lemma register_chars operands k code :
  operand operands k ≫= register = OK code →
  all_chars encoder_char code = true.
Proof.
  intros (? & _ & H%register_OK)%bind_OK. by eapply bits_encoder_chars.
Qed.

Lemma assemble_r_type_line opcode operands w :
  assemble_r_type opcode operands = OK w → Py.splitlines w = [w].
Proof.
  unfold assemble_r_type. intros H.
  apply bind_OK in H as ([[[rs rt] rd] shamt] & Hregs & H).
  apply bind_OK in H as (func & Hfunc%func_bits_OK & H).
  apply bind_OK in H as (op & Hop%opcode_bits_OK & H).
  injection H as <-.
  apply (encoder_line [op; rs; rt; rd; shamt; func]); [cbn; lia|].
  assert (Forall (λ f, all_chars encoder_char f = true) [rs; rt; rd; shamt])
    as Hall.
  { case_bool_decide; [|case_decide]; ok_inv Hregs; subst;
      repeat first [apply Forall_nil_2 | apply Forall_cons_2];
      first [done | by eapply register_chars | apply format_b_chars]. }
  apply Forall_cons_2; [by eapply bits_encoder_chars|].
  inversion_clear Hall as [|? ? ? Hall1]. apply Forall_cons_2; [done|].
  inversion_clear Hall1 as [|? ? ? Hall2]. apply Forall_cons_2; [done|].
  inversion_clear Hall2 as [|? ? ? Hall3]. apply Forall_cons_2; [done|].
  inversion_clear Hall3 as [|? ? ? Hall4]. apply Forall_cons_2; [done|].
  apply Forall_cons_2; [by eapply bits_encoder_chars | apply Forall_nil_2].
Qed.

Lemma assemble_i_type_line opcode operands label_map current_address w :
  assemble_i_type opcode operands label_map current_address = OK w →
  Py.splitlines w = [w].
Proof.
  intros H%assemble_i_type_word. by apply (word_of_line 32); [lia|].
Qed.

Lemma assemble_j_type_line opcode operands label_map w :
  assemble_j_type opcode operands label_map = OK w → Py.splitlines w = [w].
Proof.
  unfold assemble_j_type. intros H.
  apply bind_OK in H as (address & _ & H).
  apply bind_OK in H as (op & Hop%opcode_bits_OK & H).
  injection H as <-.
  apply (encoder_line [op; Py.format_b 26 address]); [cbn; lia|].
  apply Forall_cons_2; [by eapply bits_encoder_chars|].
  apply Forall_cons_2; [apply format_b_chars | apply Forall_nil_2].
Qed.

(** One line for every mnemonic but the four conditional branches, which
    give two, whatever the operands. *)
Lemma assemble_instruction_lines opcode operands label_map current_address text :
  assemble_instruction opcode operands label_map current_address
    = OK (Some text) →
  length (Py.splitlines text)
  = (if is_pseudo_branch opcode then 2%nat else 1%nat).
Proof.
  intros H.
  assert (∀ branch a b,
            Some <$> lowered_branch branch a b operands label_map current_address
              = OK (Some text) →
            length (Py.splitlines text) = 2%nat) as Htwo.
  { intros branch a b Hl. apply fmap_OK in Hl as (t & Hl & [= <-]).
    apply lowered_branch_words in Hl
      as (w1 & w2 & target & _ & _ & _ & _ & _ & ->). done. }
  unfold assemble_instruction in H.
  destruct (decide (opcode = "nop")) as [->|?].
  { injection H as <-. reflexivity. }
  destruct (decide (opcode = "sgt")) as [->|?].
  { ok_inv H. injection H as ->. by erewrite assemble_r_type_line. }
  destruct (decide (opcode = "move")) as [->|?].
  { ok_inv H. injection H as ->. by erewrite assemble_r_type_line. }
  destruct (decide (opcode = "li")) as [->|?].
  { ok_inv H. injection H as ->. by erewrite assemble_i_type_line. }
  destruct (decide (opcode = "blt")) as [->|?]; [by eapply Htwo|].
  destruct (decide (opcode = "bgt")) as [->|?]; [by eapply Htwo|].
  destruct (decide (opcode = "ble")) as [->|?]; [by eapply Htwo|].
  destruct (decide (opcode = "bge")) as [->|?]; [by eapply Htwo|].
  rewrite not_pseudo_branch by done.
  destruct (bool_decide (is_Some (func_codes !! opcode))).
  { apply fmap_OK in H as (t & Hl & [= <-]). by erewrite assemble_r_type_line. }
  destruct (bool_decide (opcode ∈ i_type_mnemonics)).
  { apply fmap_OK in H as (t & Hl & [= <-]). by erewrite assemble_i_type_line. }
  case_bool_decide as Hj; [|discriminate].
  apply fmap_OK in H as (t & Hl & [= <-]). by erewrite assemble_j_type_line.
Qed.

(** The branch word of a lowered conditional branch is the second of two
    words, encoded at the address the encoder was given. *)
Lemma assemble_instruction_pseudo_words opcode operands label_map
    current_address text :
  is_pseudo_branch opcode = true →
  assemble_instruction opcode operands label_map current_address
    = OK (Some text) →
  ∃ branch slt_word branch_word target,
    branch ∈ ["beq"; "bne"]
    ∧ Py.splitlines text = [slt_word; branch_word]
    ∧ operand operands 2 = OK target
    ∧ assemble_i_type branch [temp_reg; "$0"; target] label_map current_address
      = OK branch_word.
Proof.
  intros Hp%bool_decide_eq_true H.
  destruct (assemble_instruction_pseudo opcode operands label_map
              current_address Hp) as (branch & a & b & Hbr & _ & Heq).
  rewrite Heq in H. apply fmap_OK in H as (t & Hl & [= <-]).
  apply lowered_branch_words in Hl
    as (w1 & w2 & target & _ & Ht & Hi & _ & _ & Hs).
  by exists branch, w1, w2, target.
Qed.

(** *** The second pass *)

Lemma records_length line words rs :
  records line words = OK rs → length rs = length words.
Proof.
  revert rs. induction words as [|w ws IH]; intros rs H; cbn in H.
  - by injection H as <-.
  - ok_inv H. subst. cbn. f_equal. by apply IH.
Qed.

(** What one turn of the second loop does. *)
Lemma second_pass_line_spec label_map pc written raw pc' written' :
  second_pass_line label_map (pc, written) raw = OK (pc', written') →
  match instruction_text raw with
  | None => pc' = pc ∧ written' = written
  | Some line =>
      ∃ opcode operands text rs,
        parse_instruction line = OK (opcode, operands)
        ∧ assemble_instruction opcode operands (Some label_map)
            (Some (encoding_address opcode pc)) = OK (Some text)
        ∧ records line (Py.splitlines text) = OK rs
        ∧ written' = written ++ rs
        ∧ length rs = (if is_pseudo_branch opcode then 2%nat else 1%nat)
        ∧ pc' = encoding_address opcode pc + 1
  end.
Proof.
  unfold second_pass_line. destruct (instruction_text raw) as [line|].
  - intros H. apply bind_OK in H as ([opcode operands] & Hparse & H).
    apply bind_OK in H as (result & Hasm & H).
    apply bind_OK in H as (text & ->%of_option_OK & H).
    apply bind_OK in H as (rs & Hrs & H). injection H as <- <-.
    exists opcode, operands, text, rs. repeat split; try done.
    rewrite (records_length _ _ _ Hrs).
    by eapply assemble_instruction_lines.
  - by intros [= <- <-].
Qed.

(** The address counts the records written. *)
Lemma second_pass_counts label_map lines pc written pc' written' :
  second_pass label_map lines (pc, written) = OK (pc', written') →
  pc = Z.of_nat (length written) → pc' = Z.of_nat (length written').
Proof.
  revert pc written. induction lines as [|raw lines IH]; intros pc written H Hpc.
  - cbn in H. by injection H as <- <-.
  - cbn [second_pass] in H. apply bind_OK in H as ([pc1 written1] & Hline & H).
    apply (IH _ _ H). apply second_pass_line_spec in Hline.
    destruct (instruction_text raw) as [line|].
    + destruct Hline as (opcode & operands & text & rs & _ & _ & _ & -> & Hl & ->).
      rewrite length_app, Hl. unfold encoding_address.
      destruct (is_pseudo_branch opcode); lia.
    + destruct Hline as [-> ->]. done.
Qed.

End Lines.

(** ** Lines and their first word *)

Section Text.

Lemma replace_char_app a b s t :
  Py.replace_char a b (s +:+ t)
  = Py.replace_char a b s +:+ Py.replace_char a b t.
Proof.
  induction s as [|c s IH]; [done|].
  rewrite str_app_cons. cbn [Py.replace_char].
  destruct (Ascii.eqb c a); rewrite IH; [|by rewrite str_app_cons].
  by rewrite str_app_assoc.
Qed.

Lemma lower_app s t : Py.lower (s +:+ t) = Py.lower s +:+ Py.lower t.
Proof.
  induction s as [|c s IH]; [done|].
  rewrite str_app_cons. cbn [Py.lower]. by rewrite IH, str_app_cons.
Qed.

Lemma space_not_comma c : Py.isspace c = true → Ascii.eqb c "," = false.
Proof. each_char c; vm_compute; first [reflexivity | discriminate]. Qed.

Lemma blanked_spaces ws :
  all_chars Py.isspace ws = true → blanked ws = ws.
Proof.
  induction ws as [|c ws IH]; [done|]. cbn [all_chars Py.replace_char].
  intros [Hc Hs]%andb_prop. by rewrite (space_not_comma c Hc), IH.
Qed.

(** *** [split] *)

Lemma split_spaces ws : all_chars Py.isspace ws = true → Py.split ws = [].
Proof.
  induction ws as [|c ws IH]; [done|]. cbn [all_chars Py.split].
  intros [-> Hs]%andb_prop. by apply IH.
Qed.

Lemma split_nonempty c r : Py.isspace c = false → Py.split (String c r) ≠ [].
Proof.
  intros Hc. cbn [Py.split]. rewrite Hc.
  destruct r as [|d r]; [done|]. destruct (Py.isspace d); [done|].
  by destruct (Py.split (String d r)).
Qed.

Lemma split_app_spaces s ws :
  all_chars Py.isspace ws = true → Py.split (s +:+ ws) = Py.split s.
Proof.
  intros Hws. induction s as [|c s IH]; [by apply split_spaces|].
  rewrite str_app_cons. cbn [Py.split]. destruct (Py.isspace c); [done|].
  destruct s as [|d s].
  - rewrite str_app_nil_l. destruct ws as [|e ws]; [done|].
    cbn [all_chars] in Hws. apply andb_prop in Hws as [He Hws'].
    rewrite He. rewrite split_spaces; [done|]. cbn [all_chars]. by rewrite He.
  - rewrite str_app_cons in IH |- *. destruct (Py.isspace d); by rewrite IH.
Qed.

(** Appending text keeps the first word or makes it longer, and keeps it
    when another word follows. *)
Lemma split_app_first s u t rest :
  Py.split s = t :: rest →
  ∃ t' rest',
    Py.split (s +:+ u) = t' :: rest'
    ∧ (∃ v, t' = t +:+ v)
    ∧ (rest ≠ [] → t' = t).
Proof.
  revert t rest. induction s as [|c s IH]; intros t rest; [done|].
  rewrite str_app_cons. cbn [Py.split].
  destruct (Py.isspace c) eqn:Hc; [apply IH|].
  destruct s as [|d s].
  - intros [= <- <-]. rewrite str_app_nil_l.
    destruct u as [|e u].
    + exists (String c ""), []. split; [done|]. split; [by exists ""|done].
    + destruct (Py.isspace e) eqn:He.
      * eexists _, _. split; [done|]. split; [by exists ""|done].
      * destruct (Py.split (String e u)) as [|w ws] eqn:Hw;
          [by apply split_nonempty in Hw|].
        exists (String c w), ws. split; [done|]. split; [by exists w|done].
  - rewrite str_app_cons. destruct (Py.isspace d) eqn:Hd.
    + intros [= <- <-]. eexists _, _. split; [done|].
      split; [by exists ""|done].
    + destruct (Py.split (String d s)) as [|w ws] eqn:Hw;
        [by apply split_nonempty in Hw|].
      intros [= <- <-].
      destruct (IH w ws eq_refl) as (w' & ws' & Hsplit & [v ->] & Hsame).
      rewrite str_app_cons in Hsplit. rewrite Hsplit.
      exists (String c (w +:+ v)), ws'. split; [done|].
      split; [by exists v|]. intros Hne. by rewrite (Hsame Hne).
Qed.

(** *** [strip] *)

Lemma lstrip_first s c r :
  Py.lstrip s = String c r → Py.isspace c = false.
Proof.
  induction s as [|d s IH]; [done|]. cbn [Py.lstrip].
  destruct (Py.isspace d) eqn:Hd; [done|]. by intros [= <- _].
Qed.

Lemma rstrip_first s c r :
  Py.rstrip s = String c r → ∃ r', s = String c r'.
Proof.
  destruct s as [|d s]; [done|]. cbn [Py.rstrip].
  destruct (Py.rstrip s); [destruct (Py.isspace d)|];
    intros [= <- _]; eauto.
Qed.

Lemma strip_first s c r : Py.strip s = String c r → Py.isspace c = false.
Proof.
  unfold Py.strip. intros [r' H]%rstrip_first. by eapply lstrip_first.
Qed.

Lemma lstrip_plain c r : Py.isspace c = false → Py.lstrip (String c r) = String c r.
Proof. intros Hc. cbn [Py.lstrip]. by rewrite Hc. Qed.

Lemma rstrip_nonempty c r : Py.isspace c = false → Py.rstrip (String c r) ≠ "".
Proof.
  intros Hc. cbn [Py.rstrip]. destruct (Py.rstrip r); [by rewrite Hc | done].
Qed.

Lemma lstrip_split s : Py.split (blanked (Py.lstrip s)) = Py.split (blanked s).
Proof.
  induction s as [|c s IH]; [done|]. cbn [Py.lstrip].
  destruct (Py.isspace c) eqn:Hc; [|done].
  cbn [Py.replace_char]. rewrite (space_not_comma c Hc).
  cbn [Py.split]. by rewrite Hc.
Qed.

Lemma rstrip_spaces s :
  ∃ ws, s = Py.rstrip s +:+ ws ∧ all_chars Py.isspace ws = true.
Proof.
  induction s as [|c s (ws & Hs & Hws)]; [by exists ""|].
  cbn [Py.rstrip]. destruct (Py.rstrip s) as [|d r'] eqn:Hr.
  - rewrite str_app_nil_l in Hs. subst ws.
    destruct (Py.isspace c) eqn:Hc.
    + exists (String c s). split; [done|]. cbn [all_chars]. by rewrite Hc.
    + by exists s.
  - exists ws. split; [|done]. by rewrite str_app_cons, <- Hs.
Qed.

Lemma rstrip_split s : Py.split (blanked (Py.rstrip s)) = Py.split (blanked s).
Proof.
  destruct (rstrip_spaces s) as (ws & Hs & Hws).
  rewrite Hs at 2. rewrite replace_char_app, (blanked_spaces ws Hws).
  by rewrite split_app_spaces.
Qed.

Lemma strip_split s : Py.split (blanked (Py.strip s)) = Py.split (blanked s).
Proof. unfold Py.strip. by rewrite rstrip_split, lstrip_split. Qed.

(** *** [split('#')[0]] *)

Lemma split_on_first sep s :
  ∃ u, s = hd "" (Py.split_on sep s) +:+ u.
Proof.
  induction s as [|c s [u Hu]]; [by exists ""|]. cbn [Py.split_on].
  destruct (Ascii.eqb c sep); [by eexists|].
  destruct (Py.split_on sep s) as [|w ws]; cbn [hd] in *.
  - exists s. done.
  - exists u. by rewrite str_app_cons, <- Hu.
Qed.

Lemma split_on_first_char sep c r :
  Ascii.eqb c sep = false →
  ∃ r', hd "" (Py.split_on sep (String c r)) = String c r'.
Proof.
  intros Hc. cbn [Py.split_on]. rewrite Hc.
  destruct (Py.split_on sep r); by eexists.
Qed.

End Text.

(** ** The two passes count alike *)

Section Passes.
Import Assembler Pipeline.

Lemma nop_prefix_not_pseudo v : is_pseudo_branch (Py.lower "nop" +:+ v) = false.
Proof.
  apply bool_decide_eq_false. unfold pseudo_branches.
  change (Py.lower "nop" +:+ v) with (String "n" (String "o" (String "p" v))).
  rewrite !elem_of_cons, elem_of_nil. intros [?|[?|[?|[?|[]]]]]; discriminate.
Qed.

Lemma startswith_hash c r :
  Py.startswith "#" (String c r) = false → Ascii.eqb c "#" = false.
Proof.
  cbn [Py.startswith]. rewrite Ascii.eqb_sym.
  by destruct (Ascii.eqb c "#").
Qed.

(** The text of a line that is neither blank, nor a label, nor a
    comment: the part before the first ['#'], stripped, which is not
    empty and splits like that part. *)
Lemma instruction_text_plain raw :
  Py.endswith_char ":" (Py.strip raw) = false →
  Py.startswith "#" (Py.strip raw) = false →
  Py.strip raw ≠ "" →
  ∃ x u,
    Py.strip raw = x +:+ u
    ∧ instruction_text raw = Some (Py.strip x)
    ∧ Py.split (blanked (Py.strip x)) = Py.split (blanked x).
Proof.
  intros Hend Hhash Hne. unfold instruction_text.
  rewrite Hend, Hhash. cbn [orb].
  rewrite bool_decide_eq_false_2 by done.
  destruct (Py.strip raw) as [|c r] eqn:Hline; [done|].
  pose proof (strip_first _ _ _ Hline) as Hc.
  apply startswith_hash in Hhash.
  destruct (split_on_first "#" (String c r)) as [u Hu].
  destruct (split_on_first_char "#" c r Hhash) as [r' Hx].
  rewrite Hx in Hu |- *.
  exists (String c r'), u. split; [done|]. split; [|apply strip_split].
  rewrite bool_decide_eq_false_2; [done|].
  unfold Py.strip. rewrite lstrip_plain by done. by apply rstrip_nonempty.
Qed.

(** One turn of the second loop moves the address as the same turn of
    the first loop moves its counter. *)
Lemma passes_agree label_map m pc written raw pc' written' :
  second_pass_line label_map (pc, written) raw = OK (pc', written') →
  snd (first_pass_line (m, pc) raw) = pc'.
Proof.
  intros H. pose proof (second_pass_line_spec _ _ _ _ _ _ H) as Hspec.
  unfold first_pass_line.
  destruct (Py.endswith_char ":" (Py.strip raw)) eqn:Hend.
  { unfold instruction_text in Hspec. rewrite Hend in Hspec.
    destruct Hspec as [-> _]. by destruct (Py.split _). }
  destruct (Py.startswith "#" (Py.strip raw)) eqn:Hhash.
  { unfold instruction_text in Hspec. rewrite Hend, Hhash in Hspec.
    destruct Hspec as [-> _]. rewrite andb_false_r. by destruct (Py.split _). }
  destruct (decide (Py.strip raw = "")) as [Hempty|Hne].
  { unfold instruction_text in Hspec.
    rewrite Hend, Hhash, Hempty in Hspec. destruct Hspec as [-> _].
    by rewrite Hempty. }
  destruct (instruction_text_plain raw Hend Hhash Hne)
    as (x & u & Hline & Htext & Hsplit).
  rewrite Htext in Hspec.
  destruct Hspec as (opcode & operands & text & rs & Hparse & Hasm & _ & _ & _ & ->).
  unfold parse_instruction in Hparse. rewrite Hsplit in Hparse.
  destruct (Py.split (blanked x)) as [|p0 ops] eqn:Hx; [discriminate|].
  cbn in Hparse. injection Hparse as <- <-.
  rewrite Hline, replace_char_app.
  destruct (split_app_first _ (blanked u) _ _ Hx)
    as (t' & rest' & -> & [v ->] & Hsame).
  rewrite bool_decide_eq_false_2 by (by rewrite <- Hline). cbn [negb andb].
  assert (is_pseudo_branch (Py.lower (p0 +:+ v))
          = is_pseudo_branch (Py.lower p0)) as ->.
  { destruct ops as [|o ops].
    - apply assemble_instruction_no_operands in Hasm.
      rewrite lower_app, Hasm.
      change ("nop" +:+ Py.lower v) with (Py.lower "nop" +:+ Py.lower v).
      by rewrite nop_prefix_not_pseudo.
    - by rewrite Hsame. }
  unfold encoding_address. destruct (is_pseudo_branch (Py.lower p0)); cbn; lia.
Qed.

Lemma first_pass_counter label_map lines m pc written pc' written' :
  second_pass label_map lines (pc, written) = OK (pc', written') →
  snd (fold_left first_pass_line lines (m, pc)) = pc'.
Proof.
  revert m pc written. induction lines as [|raw lines IH]; intros m pc written H.
  - cbn in H. by injection H as <- _.
  - cbn [second_pass] in H. apply bind_OK in H as ([pc1 written1] & Hline & H).
    cbn [fold_left]. pose proof (passes_agree _ m _ _ _ _ _ Hline) as Hpc.
    destruct (first_pass_line (m, pc) raw) as [m1 pc1'].
    cbn in Hpc. subst pc1'. by eapply IH.
Qed.

(** What the next turn of the second loop does. *)
Lemma second_pass_line_step label_map pc written raw pc' written' :
  pc = Z.of_nat (length written) →
  second_pass_line label_map (pc, written) raw = OK (pc', written') →
  line_step label_map pc written raw pc' written'.
Proof.
  intros Hpc H. apply second_pass_line_spec in H. unfold line_step.
  destruct (instruction_text raw) as [line|]; [|done].
  destruct H as (opcode & operands & text & rs & Hparse & Hasm & Hrs & -> & Hl & ->).
  exists opcode, operands, text, rs. repeat (split; [done|]).
  unfold encoding_address in *.
  destruct (is_pseudo_branch opcode) eqn:Hp; [|repeat split; done].
  split; [done|]. split; [lia|].
  destruct (assemble_instruction_pseudo_words _ _ _ _ _ Hp Hasm)
    as (branch & w1 & w2 & target & Hbr & Hsplit & Htarget & Hbranch).
  rewrite Hsplit in Hrs. cbn [records] in Hrs.
  apply bind_OK in Hrs as (r1 & Hr1 & Hrs).
  apply bind_OK in Hrs as (rs2 & Hrs2 & Hrs).
  apply bind_OK in Hrs2 as (r2 & Hr2 & Hrs2).
  injection Hrs2 as <-. injection Hrs as <-.
  exists branch, w1, w2, target, r1, r2. repeat (split; [done|]).
  split; [|done]. subst pc.
  rewrite lookup_app_r by lia.
  replace (Z.to_nat (Z.of_nat (length written) + 1) - length written)%nat
    with 1%nat by lia.
  done.
Qed.

End Passes.

(** ** Hexadecimal text of a word *)

Section Hex.

Lemma hex_digit_value d :
  0 ≤ d < 16 →
  Py.digit_value (Py.hex_digit d) = Some d
  ∧ Py.is_digit 16 (Py.hex_digit d) = true.
Proof.
  intros Hd.
  assert (d = 0 ∨ d = 1 ∨ d = 2 ∨ d = 3 ∨ d = 4 ∨ d = 5 ∨ d = 6 ∨ d = 7
          ∨ d = 8 ∨ d = 9 ∨ d = 10 ∨ d = 11 ∨ d = 12 ∨ d = 13 ∨ d = 14
          ∨ d = 15) as H by lia.
  repeat destruct H as [->|H]; try subst d; split; reflexivity.
Qed.

Lemma hex_nat_acc fuel n acc :
  Py.hex_nat fuel n acc = Py.hex_nat fuel n "" +:+ acc.
Proof.
  revert n acc. induction fuel as [|fuel IH]; intros n acc; [done|].
  cbn [Py.hex_nat]. destruct (n <? 16); [done|].
  rewrite (IH _ (String _ acc)), (IH _ (String _ "")).
  by rewrite str_app_assoc.
Qed.

Lemma zeros_value_base base n s :
  digits_value base 0 (Py.zeros n +:+ s) = digits_value base 0 s.
Proof.
  induction n as [|n IH]; [done|]. cbn [Py.zeros]. rewrite str_app_cons.
  cbn [digits_value]. change (Py.digit_value "0") with (Some 0).
  cbn [default from_option id]. by rewrite Z.mul_0_l, Z.add_0_l.
Qed.

Lemma zeros_hex n : all_chars (Py.is_digit 16) (Py.zeros n) = true.
Proof. induction n as [|n IH]; [done|]. cbn [Py.zeros all_chars]. by rewrite IH. Qed.

(** With fuel for every digit, the digits written are those of [n]. *)
Lemma hex_nat_digits fuel n :
  0 ≤ n < 16 ^ Z.of_nat fuel →
  all_chars (Py.is_digit 16) (Py.hex_nat fuel n "") = true
  ∧ digits_value 16 0 (Py.hex_nat fuel n "") = n
  ∧ (∀ k : nat, n < 16 ^ Z.of_nat k → (0 < k)%nat →
     (String.length (Py.hex_nat fuel n "") ≤ k)%nat).
Proof.
  revert n. induction fuel as [|fuel IH]; intros n Hn.
  { assert (n = 0) as -> by (cbn in Hn; lia).
    split; [done|]. split; [done|]. intros k _ _. cbn. lia. }
  cbn [Py.hex_nat]. destruct (Z.ltb_spec n 16) as [Hlt|Hge].
  - destruct (hex_digit_value n) as [Hv Hd]; [lia|].
    cbn [all_chars digits_value String.length]. rewrite Hd, Hv.
    split; [done|]. split; [cbn [default from_option id]; lia|].
    intros k _ Hk. lia.
  - rewrite Nat2Z.inj_succ, Z.pow_succ_r in Hn by lia.
    destruct (IH (n / 16)) as (Hall & Hval & Hlen).
    { split; [apply Z.div_pos; lia | apply Z.div_lt_upper_bound; lia]. }
    destruct (hex_digit_value (n mod 16)) as [Hv Hd];
      [apply Z.mod_pos_bound; lia|].
    rewrite hex_nat_acc. split; [|split].
    + rewrite all_chars_app, Hall. cbn [all_chars]. by rewrite Hd.
    + rewrite digits_value_app, Hval. cbn [digits_value]. rewrite Hv.
      cbn [default from_option id]. pose proof (Z.div_mod n 16). lia.
    + intros k Hk Hpos. rewrite str_length_app. cbn [String.length].
      destruct k as [|k]; [lia|].
      rewrite Nat2Z.inj_succ, Z.pow_succ_r in Hk by lia.
      destruct (decide (k = 0%nat)) as [->|Hk0]; [cbn in Hk; lia|].
      specialize (Hlen k). 
      assert (n / 16 < 16 ^ Z.of_nat k) by (apply Z.div_lt_upper_bound; lia).
      lia.
Qed.

Lemma hex_fuel n : 0 ≤ n → n < 16 ^ Z.of_nat (S (Z.to_nat (Z.log2 n))).
Proof.
  intros Hn. rewrite Nat2Z.inj_succ, Z2Nat.id by apply Z.log2_nonneg.
  destruct (decide (n = 0)) as [->|Hne]; [done|].
  pose proof (Z.log2_spec n ltac:(lia)) as [_ Hlt].
  assert (2 ^ Z.succ (Z.log2 n) ≤ 16 ^ Z.succ (Z.log2 n)); [|lia].
  apply Z.pow_le_mono_l. lia.
Qed.

(** [f"{v:08X}"] of a 32-bit value is an 8-hex-digit word, and
    [int(_, 16)] reads the value back. *)
Lemma format_X_word v :
  0 ≤ v < 2 ^ 32 →
  is_hex_word (Py.format_X 8 v) = true
  ∧ Py.int (Py.format_X 8 v) 16 = Some v.
Proof.
  intros Hv. unfold Py.format_X.
  rewrite Z.abs_eq by lia. destruct (Z.ltb_spec v 0) as [?|_]; [lia|].
  destruct (hex_nat_digits _ v (conj (proj1 Hv) (hex_fuel v (proj1 Hv))))
    as (Hall & Hval & Hlen).
  specialize (Hlen 8%nat). rewrite zero_pad_plain.
  set (digits := Py.hex_nat _ v "") in *.
  assert (String.length digits ≤ 8)%nat as Hl by (apply Hlen; [cbn|]; lia).
  assert (is_hex_word (Py.zeros (8 - String.length digits) +:+ digits) = true)
    as Hw.
  { unfold is_hex_word. rewrite str_length_app, zeros_length.
    rewrite all_chars_app, zeros_hex, Hall.
    replace (8 - String.length digits + String.length digits)%nat with 8%nat
      by lia. done. }
  split; [done|].
  apply andb_prop in Hw as [Hw1%Nat.eqb_eq Hw2].
  rewrite int_digits;
    [|reflexivity|intros H0; rewrite H0 in Hw1; cbn in Hw1; lia|done].
  by rewrite zeros_value_base, Hval.
Qed.

Lemma format_X_zero v :
  0 ≤ v < 2 ^ 32 → Py.format_X 8 v = "00000000" → v = 0.
Proof.
  intros Hv H. destruct (format_X_word v Hv) as [_ Hint].
  rewrite H in Hint. by injection Hint.
Qed.

End Hex.

(** ** The fields of a word, as numbers *)

Section FieldValues.
Import Assembler Pipeline Scheduler.

Lemma bits_value_range n s :
  bits n s = true → 0 ≤ digits_value 2 0 s < 2 ^ Z.of_nat n.
Proof. intros [<- Hb]%bits_elim. by apply digits_value_range. Qed.

Lemma digits_value_bits_app n s t :
  bits n t = true →
  digits_value 2 0 (s +:+ t)
  = digits_value 2 0 s * 2 ^ Z.of_nat n + digits_value 2 0 t.
Proof.
  intros [<- _]%bits_elim. by rewrite digits_value_app, digits_value_acc.
Qed.

Lemma strip_us_field s t :
  all_chars is_bit s = true → strip_us (s +:+ "_" +:+ t) = s +:+ strip_us t.
Proof.
  intros Hs. rewrite !strip_us_app, (strip_us_bits s Hs).
  change (strip_us "_") with "". by rewrite str_app_nil_l.
Qed.

(** Appending a field of [n] bits shifts the value by [n]. *)
Lemma value_snoc n s t :
  bits n t = true →
  digits_value 2 0 (s +:+ t) = digits_value 2 0 s * 2 ^ Z.of_nat n
                               + digits_value 2 0 t.
Proof. apply digits_value_bits_app. Qed.

Lemma fields_i_value op rs rt imm :
  bits 6 op = true → bits 5 rs = true → bits 5 rt = true →
  bits 16 imm = true →
  digits_value 2 0 (strip_us (fields [op; rs; rt; imm]))
  = ((digits_value 2 0 op * 32 + digits_value 2 0 rs) * 32
     + digits_value 2 0 rt) * 65536 + digits_value 2 0 imm.
Proof.
  intros Ho Hs Ht Hi. rewrite !fields_cons. cbn [fields].
  rewrite !strip_us_field by (by eapply bits_elim).
  rewrite strip_us_bits by (by eapply bits_elim).
  rewrite <- !str_app_assoc.
  rewrite (value_snoc 16) by done. rewrite (value_snoc 5) by done.
  rewrite (value_snoc 5) by done. done.
Qed.

Lemma fields_r_value op rs rt rd shamt func :
  bits 6 op = true → bits 5 rs = true → bits 5 rt = true →
  bits 5 rd = true → bits 5 shamt = true → bits 6 func = true →
  digits_value 2 0 (strip_us (fields [op; rs; rt; rd; shamt; func]))
  = ((digits_value 2 0 op * 32 + digits_value 2 0 rs) * 32
     + digits_value 2 0 rt) * 65536
    + ((digits_value 2 0 rd * 32 + digits_value 2 0 shamt) * 64
       + digits_value 2 0 func).
Proof.
  intros Ho Hs Ht Hd Hh Hf. rewrite !fields_cons. cbn [fields].
  rewrite !strip_us_field by (by eapply bits_elim).
  rewrite strip_us_bits by (by eapply bits_elim).
  rewrite <- !str_app_assoc.
  rewrite (value_snoc 6) by done. rewrite (value_snoc 5) by done.
  rewrite (value_snoc 5) by done. rewrite (value_snoc 5) by done.
  rewrite (value_snoc 5) by done. lia.
Qed.

Lemma fields_j_value op address :
  bits 6 op = true → bits 26 address = true →
  digits_value 2 0 (strip_us (fields [op; address]))
  = digits_value 2 0 op * 2 ^ 26 + digits_value 2 0 address.
Proof.
  intros Ho Ha. rewrite !fields_cons. cbn [fields].
  rewrite !strip_us_field by (by eapply bits_elim).
  rewrite strip_us_bits by (by eapply bits_elim).
  by rewrite (value_snoc 26).
Qed.

(** What the decoder's shifts and masks take out of a word. *)
Lemma word_high_fields op rs rt low :
  0 ≤ op < 64 → 0 ≤ rs < 32 → 0 ≤ rt < 32 → 0 ≤ low < 65536 →
  let v := ((op * 32 + rs) * 32 + rt) * 65536 + low in
  0 ≤ v < 2 ^ 32
  ∧ Z.land (Z.shiftr v 26) 0x3F = op
  ∧ Z.land (Z.shiftr v 21) 0x1F = rs
  ∧ Z.land (Z.shiftr v 16) 0x1F = rt.
Proof.
  intros Ho Hs Ht Hl v. subst v.
  change 0x3F with (Z.ones 6). change 0x1F with (Z.ones 5).
  rewrite !Z.land_ones, !Z.shiftr_div_pow2 by lia.
  change (2 ^ 26) with 67108864. change (2 ^ 21) with 2097152.
  change (2 ^ 16) with 65536. change (2 ^ 6) with 64. change (2 ^ 5) with 32.
  change (2 ^ 32) with 4294967296.
  repeat split; try lia; Z.div_mod_to_equations; lia.
Qed.

Lemma word_low_fields high rd shamt func :
  0 ≤ high → 0 ≤ rd < 32 → 0 ≤ shamt < 32 → 0 ≤ func < 64 →
  let v := high * 65536 + ((rd * 32 + shamt) * 64 + func) in
  Z.land (Z.shiftr v 11) 0x1F = rd ∧ Z.land v 0x3F = func.
Proof.
  intros Hh Hd Hs Hf v. subst v.
  change 0x3F with (Z.ones 6). change 0x1F with (Z.ones 5).
  rewrite !Z.land_ones, !Z.shiftr_div_pow2 by lia.
  change (2 ^ 11) with 2048. change (2 ^ 6) with 64. change (2 ^ 5) with 32.
  split; Z.div_mod_to_equations; lia.
Qed.

(** The hex text the pipeline writes for a 32-bit word. *)
Lemma hex_instruction_word w :
  word_of 32 w →
  let v := digits_value 2 0 (strip_us w) in
  hex_instruction w = OK (Py.format_X 8 v)
  ∧ is_hex_word (Py.format_X 8 v) = true
  ∧ int16 (Py.format_X 8 v) = OK v
  ∧ 0 ≤ v < 2 ^ 32.
Proof.
  intros Hw v. destruct (word_value_bits 32 w ltac:(lia) Hw) as [Hv Hr].
  fold v in Hv, Hr. destruct (format_X_word v Hr) as [Hhex Hint].
  unfold hex_instruction. rewrite Hv, bind_OK_l.
  unfold int16. rewrite Hint. done.
Qed.

End FieldValues.

(** ** The decoder on a word given by its fields *)

Section DecodeFields.
Import Assembler Pipeline Scheduler.

Lemma int16_not_nop v :
  0 < v < 2 ^ 32 → Py.format_X 8 v ≠ "00000000".
Proof. intros Hv H. apply format_X_zero in H; lia. Qed.

Lemma elem_of_set3 (x a b c : Z) :
  x ∈ ({[a; b; c]} : gset Z) ↔ x = a ∨ x = b ∨ x = c.
Proof. rewrite !elem_of_union, !elem_of_singleton. tauto. Qed.

Lemma elem_of_set2 (x a b : Z) : x ∈ ({[a; b]} : gset Z) ↔ x = a ∨ x = b.
Proof. rewrite !elem_of_union, !elem_of_singleton. tauto. Qed.

Lemma elem_of_special (x : Z) :
  x ∈ special_opcodes
  ↔ x = 2 ∨ x = 3 ∨ x = 4 ∨ x = 5 ∨ x = 35 ∨ x = 43.
Proof.
  unfold special_opcodes. rewrite !elem_of_union, !elem_of_singleton. tauto.
Qed.

(** The decoder's view of a word whose fields are known. *)
Lemma decode_fields hex v op rs rt low :
  0 ≤ op < 64 → 0 ≤ rs < 32 → 0 ≤ rt < 32 → 0 ≤ low < 65536 →
  v = ((op * 32 + rs) * 32 + rt) * 65536 + low →
  hex ≠ "00000000" → int16 hex = OK v →
  is_special hex = OK (bool_decide (op ∈ special_opcodes))
  ∧ decode_mips hex
    = if decide (op = 0) then
        let funct := Z.land v 0x3F in
        let rd := Z.land (Z.shiftr v 11) 0x1F in
        if bool_decide (funct ∈ ({[0; 2; 3]} : gset Z)) then
          OK (Decoded TyR op (Some funct) {[rt]} {[rd]})
        else if decide (funct = 8) then
          OK (Decoded TyR op (Some funct) {[rs]} ∅)
        else OK (Decoded TyR op (Some funct) {[rs; rt]} {[rd]})
      else if bool_decide (op ∈ ({[2; 3]} : gset Z)) then
        if decide (op = 3) then OK (Decoded TyJ op None ∅ {[31]})
        else OK (Decoded TyJ op None ∅ ∅)
      else if bool_decide (op ∈ ({[4; 5]} : gset Z)) then
        OK (Decoded TyI op None {[rs; rt]} ∅)
      else if decide (op = 35) then OK (Decoded TyI op None {[rs]} {[rt]})
      else if decide (op = 43) then OK (Decoded TyI op None {[rs; rt]} ∅)
      else OK (Decoded TyI op None {[rs]} {[rt]}).
Proof.
  intros Ho Hs Ht Hl Hv Hnop Hint.
  destruct (word_high_fields op rs rt low Ho Hs Ht Hl) as (_ & Hop & Hrs & Hrt).
  cbv zeta in Hop, Hrs, Hrt. rewrite <- Hv in Hop, Hrs, Hrt.
  unfold is_special, decode_mips.
  rewrite !(decide_False (P := hex = "00000000")) by done.
  rewrite Hint, !bind_OK_l. cbv zeta. rewrite Hop, Hrs, Hrt. done.
Qed.

End DecodeFields.

(** ** From an encoded word to what the scheduler decodes *)

Section RoundTrip.
Import Assembler Pipeline Scheduler Terms.

Lemma register_number_Some name n :
  register_number name = Some n →
  ∃ code, registers !! name = Some code ∧ bits 5 code = true
          ∧ digits_value 2 0 code = n ∧ 0 ≤ n < 32.
Proof.
  unfold register_number. destruct (registers !! name) as [code|] eqn:H;
    [|done]. intros [= <-].
  pose proof (register_lookup _ _ H) as (Hb & _).
  exists code. repeat split; try done; by apply (bits_value_range 5).
Qed.

(** How [assemble_instruction] dispatches the mnemonics of the tables. *)
Lemma assemble_instruction_r_type opcode operands label_map current_address :
  is_Some (func_codes !! opcode) →
  assemble_instruction opcode operands label_map current_address
  = Some <$> assemble_r_type opcode operands.
Proof.
  intros Hf. unfold assemble_instruction.
  repeat (destruct (decide _) as [->|_];
          [exfalso; vm_compute in Hf; by destruct Hf|]).
  by rewrite bool_decide_eq_true_2.
Qed.

Lemma assemble_instruction_i_type opcode operands label_map current_address :
  opcode ∈ i_type_mnemonics →
  assemble_instruction opcode operands label_map current_address
  = Some <$> assemble_i_type opcode operands label_map current_address.
Proof.
  unfold i_type_mnemonics. rewrite !elem_of_cons, elem_of_nil. intros H.
  repeat destruct H as [->|H]; try done.
Qed.

Lemma assemble_instruction_j_type opcode operands label_map current_address :
  opcode ∈ ["j"; "jal"] →
  assemble_instruction opcode operands label_map current_address
  = Some <$> assemble_j_type opcode operands label_map.
Proof.
  rewrite !elem_of_cons, elem_of_nil. intros [->|[->|[]]]; reflexivity.
Qed.

(** The word of the pipeline's record, as the scheduler reads it. *)
Lemma encoded_word_hex w :
  word_of 32 w → word_number w ≠ 0 →
  ∃ hex,
    hex_instruction w = OK hex
    ∧ is_hex_word hex = true
    ∧ hex ≠ "00000000"
    ∧ int16 hex = OK (word_number w).
Proof.
  intros Hw Hne.
  destruct (hex_instruction_word w Hw) as (Hhex & Hword & Hint & Hr).
  fold (word_number w) in *.
  exists (Py.format_X 8 (word_number w)). repeat split; try done.
  apply int16_not_nop. lia.
Qed.

(** The tables on the three-register mnemonics. *)
Lemma three_register_tables opcode :
  opcode ∈ three_register_mnemonics →
  ∃ func,
    func_codes !! opcode = Some func ∧ opcodes !! opcode = Some "000000"
    ∧ (opcode ∉ shift_mnemonics) ∧ opcode ≠ "jr"
    ∧ 32 ≤ digits_value 2 0 func.
Proof.
  unfold three_register_mnemonics. rewrite !elem_of_cons, elem_of_nil.
  intros H. repeat destruct H as [->|H]; try done;
    (eexists; split; [reflexivity|]; split; [reflexivity|];
     split; [closed_not_elem|]; split; [discriminate|];
     vm_compute; discriminate).
Qed.

End RoundTrip.

(** * More results: from the assembler's words to the scheduler's view *)

Section RoundTripResults.
Import Assembler Pipeline Scheduler Terms.

(** X1.  An arithmetic or logical instruction on three registers is
    encoded as one 32-bit word; the pipeline writes it as an 8-hex-digit
    word which the scheduler decodes as reading the two source registers
    and writing the destination, and does not treat as special. *)
Theorem three_register_round_trip (opcode rd rs rt : string)
    (label_map : option (gmap string Z)) (current_address : option Z)
    (nd ns nt : Z) :
  opcode ∈ three_register_mnemonics →
  register_number rd = Some nd → register_number rs = Some ns →
  register_number rt = Some nt →
  ∃ word hex d,
    assemble_instruction opcode [rd; rs; rt] label_map current_address
      = OK (Some word)
    ∧ hex_instruction word = OK hex
    ∧ is_hex_word hex = true
    ∧ is_special hex = OK false
    ∧ decode_mips hex = OK d
    ∧ reads d = {[ns; nt]} ∧ writes d = {[nd]}.
Proof.
  intros Hop (cd & Hd & Hbd & Hvd & Hrd)%register_number_Some
    (cs & Hs & Hbs & Hvs & Hrs)%register_number_Some
    (ct & Ht & Hbt & Hvt & Hrt)%register_number_Some.
  destruct (three_register_tables opcode Hop)
    as (func & Hf & Ho & Hnsh & Hnjr & Hf32).
  pose proof (func_lookup _ _ Hf) as Hbf.
  pose proof (bits_value_range 6 func Hbf) as Hrf.
  set (word := fields ["000000"; cs; ct; cd; "00000"; func]).
  assert (word_of 32 word) as Hw by (by apply fields_r_type).
  assert (word_number word
          = ((0 * 32 + ns) * 32 + nt) * 65536
            + ((nd * 32 + 0) * 64 + digits_value 2 0 func)) as Hv.
  { unfold word_number, word. rewrite fields_r_value by done.
    by rewrite Hvs, Hvt, Hvd. }
  destruct (encoded_word_hex word Hw) as (hex & Hhex & Hword & Hnop & Hint);
    [lia|].
  assert (0 ≤ (nd * 32 + 0) * 64 + digits_value 2 0 func < 65536) as Hlow
    by lia.
  destruct (decode_fields hex _ 0 ns nt _ ltac:(lia) Hrs Hrt Hlow Hv Hnop Hint)
    as [Hsp Hdec].
  destruct (word_low_fields ((0 * 32 + ns) * 32 + nt) nd 0
              (digits_value 2 0 func) ltac:(lia) Hrd ltac:(lia) Hrf)
    as [Hfrd Hffn].
  cbv zeta in Hfrd, Hffn. rewrite <- Hv in Hfrd, Hffn.
  rewrite decide_True in Hdec by done. cbv zeta in Hdec.
  rewrite Hfrd, Hffn in Hdec.
  rewrite bool_decide_eq_false_2 in Hdec by (rewrite elem_of_set3; lia).
  rewrite decide_False in Hdec by lia.
  exists word, hex. eexists.
  split; [|split; [done|split; [done|split; [|split; [exact Hdec|done]]]]].
  - rewrite assemble_instruction_r_type by eauto.
    by rewrite (assemble_r_type_registers opcode rd rs rt cd cs ct func "000000").
  - rewrite Hsp. by rewrite bool_decide_eq_false_2 by (rewrite elem_of_special; lia).
Qed.

Lemma three_register_round_trip_witness :
  ∃ word hex d,
    assemble_instruction "sub" ["$7"; "$2"; "$4"] None None = OK (Some word)
    ∧ hex_instruction word = OK hex
    ∧ is_hex_word hex = true
    ∧ is_special hex = OK false
    ∧ decode_mips hex = OK d
    ∧ reads d = {[2; 4]} ∧ writes d = {[7]}.
Proof.
  apply (three_register_round_trip "sub" "$7" "$2" "$4" None None 7 2 4).
  - apply (bool_decide_unpack _). vm_compute. exact I.
  - vm_compute. reflexivity.
  - vm_compute. reflexivity.
  - vm_compute. reflexivity.
Defined.

End RoundTripResults.

Section RoundTripMore.
Import Assembler Pipeline Scheduler Terms.

(** An I-type word, as the pipeline writes it and the scheduler reads
    it. *)
Lemma i_type_word_decoded op cs ct imm :
  bits 6 op = true → bits 5 cs = true → bits 5 ct = true →
  bits 16 imm = true → digits_value 2 0 op ≠ 0 →
  let word := fields [op; cs; ct; imm] in
  let vop := digits_value 2 0 op in
  let rs := digits_value 2 0 cs in
  let rt := digits_value 2 0 ct in
  ∃ hex,
    hex_instruction word = OK hex
    ∧ is_hex_word hex = true
    ∧ word_number word `mod` 2 ^ 16 = digits_value 2 0 imm
    ∧ is_special hex = OK (bool_decide (vop ∈ special_opcodes))
    ∧ decode_mips hex
      = if bool_decide (vop ∈ ({[2; 3]} : gset Z)) then
          if decide (vop = 3) then OK (Decoded TyJ vop None ∅ {[31]})
          else OK (Decoded TyJ vop None ∅ ∅)
        else if bool_decide (vop ∈ ({[4; 5]} : gset Z)) then
          OK (Decoded TyI vop None {[rs; rt]} ∅)
        else if decide (vop = 35) then OK (Decoded TyI vop None {[rs]} {[rt]})
        else if decide (vop = 43) then OK (Decoded TyI vop None {[rs; rt]} ∅)
        else OK (Decoded TyI vop None {[rs]} {[rt]}).
Proof.
  intros Ho Hs Ht Hi Hne word vop rs rt.
  pose proof (bits_value_range 6 op Ho) as Hro.
  pose proof (bits_value_range 5 cs Hs) as Hrs.
  pose proof (bits_value_range 5 ct Ht) as Hrt.
  pose proof (bits_value_range 16 imm Hi) as Hri.
  fold vop in Hro, Hne. fold rs in Hrs. fold rt in Hrt.
  assert (word_of 32 word) as Hw by (by apply fields_i_type).
  assert (word_number word
          = ((vop * 32 + rs) * 32 + rt) * 65536 + digits_value 2 0 imm) as Hv
    by (by apply fields_i_value).
  destruct (encoded_word_hex word Hw) as (hex & Hhex & Hword & Hnop & Hint);
    [lia|].
  destruct (decode_fields hex _ vop rs rt _ Hro Hrs Hrt Hri Hv Hnop Hint)
    as [Hsp Hdec].
  rewrite decide_False in Hdec by done.
  exists hex. repeat split; try done.
  unfold word_number, word. by apply i_type_low_bits.
Qed.

Lemma register_no_paren name code :
  registers !! name = Some code →
  Py.contains_char "(" name = false ∧ Py.contains_char ")" name = false.
Proof.
  intros H.
  apply (table_lookup registers_list
           (λ name _, negb (Py.contains_char "(" name)
                      && negb (Py.contains_char ")" name))) in H;
    [|vm_compute; reflexivity].
  apply andb_prop in H as [H1%negb_true_iff H2%negb_true_iff]. done.
Qed.

(** The tables on the immediate mnemonics: none has a special or a
    jump opcode, and none is a branch. *)
Lemma immediate_tables opcode :
  opcode ∈ immediate_mnemonics →
  ∃ op,
    opcodes !! opcode = Some op ∧ opcode ∈ i_type_mnemonics
    ∧ (opcode ∉ ["beq"; "bne"])
    ∧ 8 ≤ digits_value 2 0 op ≤ 14.
Proof.
  unfold immediate_mnemonics. rewrite !elem_of_cons, elem_of_nil.
  intros H. repeat destruct H as [->|H]; try done;
    (eexists; split; [reflexivity|];
     split; [apply (bool_decide_unpack _); vm_compute; exact I|];
     split; [closed_not_elem|]; vm_compute; split; discriminate).
Qed.

End RoundTripMore.

Section ImmediateResults.
Import Assembler Pipeline Scheduler Terms.

Lemma assemble_i_type_literal opcode rt rs imm label_map current_address
    ct cs op v :
  opcode ∉ ["beq"; "bne"] →
  registers !! rt = Some ct → registers !! rs = Some cs →
  opcodes !! opcode = Some op → parse_immediate imm = OK v →
  assemble_i_type opcode [rt; rs; imm] label_map current_address
  = OK (fields [op; cs; ct; Py.format_b 16 (Z.land v 0xFFFF)]).
Proof.
  intros Hop Ht Hs Ho Hv. unfold assemble_i_type.
  rewrite operand_1, !bind_OK_l.
  destruct (register_lookup _ _ Hs) as (_ & -> & _).
  rewrite andb_false_l, bool_decide_eq_false_2 by done. cbn [andb].
  rewrite operand_0, operand_2, !bind_OK_l.
  rewrite (register_Some _ _ Ht), bind_OK_l, (register_Some _ _ Hs), bind_OK_l.
  rewrite Hv, !bind_OK_l. unfold opcode_bits. by rewrite Ho.
Qed.

(** X2.  An instruction on a register and an immediate takes any
    integer the literal denotes and keeps its low 16 bits; the word is
    one the scheduler decodes as reading the source register and writing
    the target, and does not treat as special. *)
Theorem immediate_round_trip (opcode rt rs imm : string)
    (label_map : option (gmap string Z)) (current_address : option Z)
    (nt ns v : Z) :
  opcode ∈ immediate_mnemonics →
  register_number rt = Some nt → register_number rs = Some ns →
  parse_immediate imm = OK v →
  ∃ word hex d,
    assemble_instruction opcode [rt; rs; imm] label_map current_address
      = OK (Some word)
    ∧ word_number word `mod` 2 ^ 16 = v `mod` 2 ^ 16
    ∧ hex_instruction word = OK hex
    ∧ is_hex_word hex = true
    ∧ is_special hex = OK false
    ∧ decode_mips hex = OK d
    ∧ reads d = {[ns]} ∧ writes d = {[nt]}.
Proof.
  intros Hop (ct & Ht & Hbt & Hvt & Hrt)%register_number_Some
    (cs & Hs & Hbs & Hvs & Hrs)%register_number_Some Hv.
  destruct (immediate_tables opcode Hop) as (op & Ho & Hi & Hnb & Hrange).
  pose proof (opcode_lookup _ _ Ho) as Hbo.
  destruct (format_b_masked v) as [Hbi Hvi].
  destruct (i_type_word_decoded op cs ct _ Hbo Hbs Hbt Hbi ltac:(lia))
    as (hex & Hhex & Hword & Hlow & Hsp & Hdec).
  rewrite Hvs, Hvt in Hdec.
  rewrite bool_decide_eq_false_2 in Hsp by (rewrite elem_of_special; lia).
  rewrite bool_decide_eq_false_2 in Hdec by (rewrite elem_of_set2; lia).
  rewrite bool_decide_eq_false_2 in Hdec by (rewrite elem_of_set2; lia).
  rewrite !decide_False in Hdec by lia.
  eexists _, hex, _.
  split; [|split; [|split; [exact Hhex|split; [done|split; [done|split;
    [exact Hdec|done]]]]]].
  - rewrite assemble_instruction_i_type by done.
    by rewrite (assemble_i_type_literal opcode rt rs imm _ _ ct cs op v).
  - by rewrite Hlow, Hvi.
Qed.

Lemma immediate_round_trip_witness :
  ∃ word hex d,
    assemble_instruction "addi" ["$5"; "$6"; "-1"] None None = OK (Some word)
    ∧ word_number word `mod` 2 ^ 16 = (-1) `mod` 2 ^ 16
    ∧ hex_instruction word = OK hex
    ∧ is_hex_word hex = true
    ∧ is_special hex = OK false
    ∧ decode_mips hex = OK d
    ∧ reads d = {[6]} ∧ writes d = {[5]}.
Proof.
  apply (immediate_round_trip "addi" "$5" "$6" "-1" None None 5 6 (-1)).
  - apply (bool_decide_unpack _). vm_compute. exact I.
  - vm_compute. reflexivity.
  - vm_compute. reflexivity.
  - vm_compute. reflexivity.
Defined.

End ImmediateResults.

Section BranchJumpResults.
Import Assembler Pipeline Scheduler Terms.

(** X3.  A [beq] or [bne] on two registers whose label is bound is
    encoded as a word the scheduler treats as special and decodes as
    reading both registers and writing none. *)
Theorem branch_round_trip (opcode r1 r2 label : string)
    (label_map : gmap string Z) (A B n1 n2 : Z) :
  opcode ∈ ["beq"; "bne"] →
  register_number r1 = Some n1 → register_number r2 = Some n2 →
  label_map !! label = Some A →
  ∃ word hex d,
    assemble_instruction opcode [r1; r2; label] (Some label_map) (Some B)
      = OK (Some word)
    ∧ hex_instruction word = OK hex
    ∧ is_hex_word hex = true
    ∧ is_special hex = OK true
    ∧ decode_mips hex = OK d
    ∧ reads d = {[n1; n2]} ∧ writes d = ∅.
Proof.
  intros Hop (c1 & H1 & Hb1 & Hv1 & Hr1)%register_number_Some
    (c2 & H2 & Hb2 & Hv2 & Hr2)%register_number_Some HA.
  assert (label_map ≠ ∅) as Hne by (intros ->; by rewrite lookup_empty in HA).
  assert (∃ op, opcodes !! opcode = Some op
                ∧ (digits_value 2 0 op = 4 ∨ digits_value 2 0 op = 5))
    as (op & Ho & Hvo).
  { revert Hop. rewrite !elem_of_cons, elem_of_nil.
    intros [->|[->|[]]]; eexists; (split; [reflexivity|]);
      [by left | by right]. }
  pose proof (opcode_lookup _ _ Ho) as Hbo.
  destruct (format_b_masked (A - B)) as [Hbi _].
  destruct (i_type_word_decoded op c1 c2 _ Hbo Hb1 Hb2 Hbi ltac:(lia))
    as (hex & Hhex & Hword & _ & Hsp & Hdec).
  rewrite Hv1, Hv2 in Hdec.
  rewrite bool_decide_eq_true_2 in Hsp by (rewrite elem_of_special; lia).
  rewrite bool_decide_eq_false_2 in Hdec by (rewrite elem_of_set2; lia).
  rewrite bool_decide_eq_true_2 in Hdec by (rewrite elem_of_set2; lia).
  eexists _, hex, _.
  split; [|split; [exact Hhex|split; [done|split; [done|split;
    [exact Hdec|done]]]]].
  rewrite assemble_instruction_branch by done.
  rewrite (assemble_i_type_branch opcode r1 r2 label label_map B c1 c2 op)
    by done.
  by rewrite HA.
Qed.

Lemma branch_round_trip_witness :
  ∃ word hex d,
    assemble_instruction "bne" ["$1"; "$2"; "loop"]
      (Some {["loop" := 0]}) (Some 2) = OK (Some word)
    ∧ hex_instruction word = OK hex
    ∧ is_hex_word hex = true
    ∧ is_special hex = OK true
    ∧ decode_mips hex = OK d
    ∧ reads d = {[1; 2]} ∧ writes d = ∅.
Proof.
  apply (branch_round_trip "bne" "$1" "$2" "loop" {["loop" := 0]} 0 2 1 2).
  - apply (bool_decide_unpack _). vm_compute. exact I.
  - vm_compute. reflexivity.
  - vm_compute. reflexivity.
  - vm_compute. reflexivity.
Defined.

Lemma jump_word_fields op A :
  0 ≤ A < 2 ^ 26 →
  op * 2 ^ 26 + A
  = ((op * 32 + A / 2 ^ 21) * 32 + (A / 2 ^ 16) `mod` 32) * 65536
    + A `mod` 65536
  ∧ 0 ≤ A / 2 ^ 21 < 32.
Proof.
  intros HA. change (2 ^ 26) with 67108864 in *.
  change (2 ^ 21) with 2097152. change (2 ^ 16) with 65536.
  split; Z.div_mod_to_equations; lia.
Qed.

(** X4.  A [j] or [jal] to a bound label whose address fits in 26 bits
    is encoded with that address in its low 26 bits; the scheduler
    treats the word as special and decodes it as reading nothing and
    writing register 31 for [jal], nothing for [j]. *)
Theorem jump_round_trip (opcode label : string)
    (label_map : gmap string Z) (current_address : option Z) (A : Z) :
  opcode ∈ ["j"; "jal"] →
  label_map !! label = Some A → 0 ≤ A < 2 ^ 26 →
  ∃ word hex d,
    assemble_instruction opcode [label] (Some label_map) current_address
      = OK (Some word)
    ∧ word_number word `mod` 2 ^ 26 = A
    ∧ hex_instruction word = OK hex
    ∧ is_hex_word hex = true
    ∧ is_special hex = OK true
    ∧ decode_mips hex = OK d
    ∧ reads d = ∅
    ∧ writes d = (if decide (opcode = "jal") then {[31]} else ∅).
Proof.
  intros Hop HA Hrange.
  assert (label_map ≠ ∅) as Hne by (intros ->; by rewrite lookup_empty in HA).
  assert (∃ op, opcodes !! opcode = Some op
                ∧ ((opcode = "j" ∧ digits_value 2 0 op = 2)
                   ∨ (opcode = "jal" ∧ digits_value 2 0 op = 3)))
    as (op & Ho & Hvo).
  { revert Hop. rewrite !elem_of_cons, elem_of_nil.
    intros [->|[->|[]]]; eexists; (split; [reflexivity|]);
      [by left | by right]. }
  pose proof (opcode_lookup _ _ Ho) as Hbo.
  destruct (format_b_fits 26 A ltac:(lia) Hrange) as [Hba Hva].
  set (word := fields [op; Py.format_b 26 A]).
  assert (word_of 32 word) as Hw by (by apply fields_j_type).
  assert (word_number word = digits_value 2 0 op * 2 ^ 26 + A) as Hv.
  { unfold word_number, word. by rewrite fields_j_value, Hva. }
  destruct (jump_word_fields (digits_value 2 0 op) A Hrange) as [Hform Hrs].
  rewrite <- Hv in Hform.
  destruct (encoded_word_hex word Hw) as (hex & Hhex & Hword & Hnop & Hint);
    [lia|].
  destruct (decode_fields hex _ (digits_value 2 0 op) _ _ _
              ltac:(lia) Hrs ltac:(apply Z.mod_pos_bound; lia)
              ltac:(apply Z.mod_pos_bound; lia) Hform Hnop Hint)
    as [Hsp Hdec].
  rewrite bool_decide_eq_true_2 in Hsp by (rewrite elem_of_special; lia).
  rewrite decide_False in Hdec by lia.
  rewrite bool_decide_eq_true_2 in Hdec by (rewrite elem_of_set2; lia).
  assert (assemble_instruction opcode [label] (Some label_map) current_address
          = OK (Some word)) as Hasm.
  { rewrite assemble_instruction_j_type by done.
    unfold assemble_j_type, jump_target.
    rewrite has_labels_nonempty by done.
    rewrite operand_0, bind_OK_l. unfold lookup_label. cbn [mbind option_bind].
    rewrite HA, of_option_Some, bind_OK_l. unfold opcode_bits.
    by rewrite Ho. }
  assert (word_number word `mod` 2 ^ 26 = A) as Hlow.
  { rewrite Hv, Z.add_comm, Z.mod_add by lia. apply Z.mod_small. lia. }
  destruct Hvo as [[-> Hop2]|[-> Hop3]].
  - rewrite decide_False in Hdec by lia.
    exists word, hex. eexists. repeat (split; [done|]). done.
  - rewrite decide_True in Hdec by lia.
    exists word, hex. eexists. repeat (split; [done|]). done.
Qed.

Lemma jump_round_trip_witness :
  ∃ word hex d,
    assemble_instruction "jal" ["sub"] (Some {["sub" := 12]}) None
      = OK (Some word)
    ∧ word_number word `mod` 2 ^ 26 = 12
    ∧ hex_instruction word = OK hex
    ∧ is_hex_word hex = true
    ∧ is_special hex = OK true
    ∧ decode_mips hex = OK d
    ∧ reads d = ∅
    ∧ writes d = (if decide ("jal" = "jal") then {[31]} else ∅).
Proof.
  apply (jump_round_trip "jal" "sub" {["sub" := 12]} None 12).
  - apply (bool_decide_unpack _). vm_compute. exact I.
  - vm_compute. reflexivity.
  - lia.
Defined.

End BranchJumpResults.

(** ** Memory operands *)

Section MemoryOperands.
Import Assembler Pipeline Scheduler Terms.

Lemma contains_char_app c s t :
  Py.contains_char c (s +:+ t) = Py.contains_char c s || Py.contains_char c t.
Proof.
  induction s as [|a s IH]; [done|]. rewrite str_app_cons.
  cbn [Py.contains_char]. by rewrite IH, orb_assoc.
Qed.

Lemma replace_char_absent a b s :
  Py.contains_char a s = false → Py.replace_char a b s = s.
Proof.
  induction s as [|c s IH]; [done|]. cbn [Py.contains_char Py.replace_char].
  intros [-> Hs]%orb_false_elim. by rewrite IH.
Qed.

Lemma split_on_absent sep s :
  Py.contains_char sep s = false → Py.split_on sep s = [s].
Proof.
  induction s as [|c s IH]; [done|]. cbn [Py.contains_char Py.split_on].
  intros [-> Hs]%orb_false_elim. by rewrite IH.
Qed.

Lemma split_on_first_sep sep s t :
  Py.contains_char sep s = false →
  Py.split_on sep (s +:+ String sep t) = s :: Py.split_on sep t.
Proof.
  induction s as [|c s IH].
  - intros _. rewrite str_app_nil_l. cbn [Py.split_on].
    by rewrite Ascii.eqb_refl.
  - cbn [Py.contains_char]. intros [Hc Hs]%orb_false_elim.
    rewrite str_app_cons. cbn [Py.split_on]. by rewrite Hc, IH.
Qed.

(** A character [int()] lets through. *)
Lemma literal_char_plain c :
  Py.int_isspace c = true ∨ Py.is_underscore c = true
  ∨ is_Some (Py.digit_value c) ∨ c = "+"%char ∨ c = "-"%char →
  Ascii.eqb c "(" = false ∧ Ascii.eqb c ")" = false.
Proof.
  each_char c; vm_compute; intros [H|[H|[[? H]|[H|H]]]];
    first [discriminate H | done].
Qed.

Lemma skip_space_plain c s :
  Py.contains_char c (Py.skip_space s) = false →
  (∀ a, Py.int_isspace a = true → Ascii.eqb a c = false) →
  Py.contains_char c s = false.
Proof.
  intros H Hc. induction s as [|a s IH]; [done|].
  cbn [Py.skip_space] in H. cbn [Py.contains_char].
  destruct (Py.int_isspace a) eqn:Ha; [|done].
  by rewrite (Hc a Ha), IH.
Qed.

Lemma scan_digits_plain c base acc prev s v rest :
  Py.scan_digits base acc prev s = Some (v, rest) →
  (∀ a, Py.is_underscore a = true ∨ is_Some (Py.digit_value a) →
        Ascii.eqb a c = false) →
  Py.contains_char c rest = false → Py.contains_char c s = false.
Proof.
  intros H Hc Hrest. revert acc prev H.
  induction s as [|a s IH]; intros acc prev H; [done|].
  cbn [Py.scan_digits] in H. cbn [Py.contains_char].
  destruct (Py.is_underscore a) eqn:Hus.
  - rewrite (Hc a (or_introl Hus)). destruct prev; [done|]. by eapply IH.
  - destruct (Py.digit_value a) as [d|] eqn:Hd.
    + rewrite (Hc a) by (right; by rewrite Hd).
      destruct (d <? base); [by eapply IH|].
      destruct prev; [done|]. injection H as _ <-.
      cbn [Py.contains_char] in Hrest. by apply orb_false_elim in Hrest as [_ ?].
    + destruct prev; [done|]. injection H as _ <-. done.
Qed.

(** A literal that [int()] accepts holds no parenthesis. *)
Lemma int_no_paren s base v :
  Py.int s base = Some v →
  Py.contains_char "(" s = false ∧ Py.contains_char ")" s = false.
Proof.
  unfold Py.int. intros H.
  assert (∀ c, (c = "(" ∨ c = ")")%char →
            Py.contains_char c s = false) as Hall; [|split; apply Hall; auto].
  intros c Hc.
  assert (∀ a, Py.int_isspace a = true ∨ Py.is_underscore a = true
               ∨ is_Some (Py.digit_value a) ∨ a = "+"%char ∨ a = "-"%char →
               Ascii.eqb a c = false) as Hplain.
  { intros a Ha. destruct (literal_char_plain a Ha). by destruct Hc as [->| ->]. }
  apply skip_space_plain; [|intros a Ha; apply Hplain; auto].
  destruct (Py.skip_sign (Py.skip_space s)) as [neg body] eqn:Hsign.
  assert (Py.contains_char c body = false →
          Py.contains_char c (Py.skip_space s) = false) as Hbody.
  { unfold Py.skip_sign in Hsign.
    destruct (Py.skip_space s) as [|a r]; [by injection Hsign as _ <-|].
    destruct (decide (a = "+"%char)) as [->|Hp].
    { injection Hsign as _ <-. intros Hr. cbn [Py.contains_char].
      by rewrite (Hplain "+"%char), Hr by auto 6. }
    destruct (decide (a = "-"%char)) as [->|Hm].
    { injection Hsign as _ <-. intros Hr. cbn [Py.contains_char].
      by rewrite (Hplain "-"%char), Hr by auto 6. }
    assert ((neg, body) = (false, String a r)) as [= _ ->]; [|done].
    rewrite <- Hsign. revert Hp Hm. clear. each_char a; intros; congruence. }
  apply Hbody. clear Hbody Hsign.
  destruct (Py.first_is_digit base (Py.skip_prefix base body)); [|done].
  destruct (Py.scan_digits base 0 false (Py.skip_prefix base body))
    as [[v' rest]|] eqn:Hscan; [|done].
  destruct (Py.too_long base (Py.skip_prefix base body)); [done|].
  assert (Py.contains_char c rest = false) as Hrest.
  { apply skip_space_plain; [|intros a Ha; apply Hplain; auto].
    by destruct (Py.skip_space rest). }
  pose proof (scan_digits_plain c _ _ _ _ _ _ Hscan
                (λ a Ha, Hplain a ltac:(tauto)) Hrest) as Hdigits.
  revert Hdigits. unfold Py.skip_prefix.
  destruct body as [|a [|b r]]; try done.
  - intros Hd. destruct (decide (a = "0"%char)) as [->|Hz]; [done|].
    revert Hd. each_char a; first [done | congruence].
  - assert (Ascii.eqb b c = false → Py.contains_char c r = false →
            Py.contains_char c (String a (String b r)) = false
            ∨ Ascii.eqb a c = true) as Hcons.
    { intros Hb Hr. cbn [Py.contains_char]. rewrite Hb, Hr.
      destruct (Ascii.eqb a c); auto. }
    destruct (decide (a = "0"%char)) as [->|Hz].
    + destruct (Py.prefix_letter base b) eqn:Hpre.
      * assert (is_Some (Py.digit_value b)) as Hb.
        { revert Hpre. unfold Py.prefix_letter.
          destruct (prefix_letter_digit b) as (Hx & Ho & Hbb).
          intros H'. repeat apply orb_prop in H' as [H'|H'];
            apply andb_prop in H' as [_ H'];
            [rewrite (Hx H') | rewrite (Ho H') | rewrite (Hbb H')]; eauto. }
        intros Hd. cbn [Py.contains_char].
        rewrite (Hplain "0"%char) by (right; right; left; by eexists).
        rewrite (Hplain b) by auto. cbn [orb].
        destruct r as [|u r']; [done|].
        destruct (decide (u = "_"%char)) as [->|Hu].
        -- cbn [Py.contains_char].
           by rewrite (Hplain "_"%char), Hd by (right; left; done).
        -- revert Hd. each_char u; first [done | congruence].
      * done.
    + intros Hd. revert Hd. each_char a; first [done | congruence].
Qed.

Lemma parse_immediate_no_paren s v :
  parse_immediate s = OK v →
  Py.contains_char "(" s = false ∧ Py.contains_char ")" s = false.
Proof.
  unfold parse_immediate, int10.
  destruct (Py.startswith _ _); intros H%of_option_OK; by eapply int_no_paren.
Qed.

End MemoryOperands.

Section MemoryResults.
Import Assembler Pipeline Scheduler Terms.

Lemma memory_operand_split offset base :
  Py.contains_char "(" offset = false → Py.contains_char ")" offset = false →
  Py.contains_char "(" base = false → Py.contains_char ")" base = false →
  let op1 := memory_operand offset base in
  Py.contains_char "(" op1 && Py.contains_char ")" op1 = true
  ∧ Py.split_on "(" (Py.replace_char ")" "" op1) = [offset; base].
Proof.
  intros Ho1 Ho2 Hb1 Hb2 op1. unfold op1, memory_operand. split.
  - rewrite !contains_char_app. cbn [Py.contains_char].
    rewrite !contains_char_app. cbn [Py.contains_char].
    rewrite Ho1, Ho2, Hb1, Hb2. reflexivity.
  - rewrite replace_char_app, (replace_char_absent _ _ offset) by done.
    cbn [Py.replace_char]. change (Ascii.eqb "(" ")") with false. cbv iota.
    rewrite replace_char_app, (replace_char_absent _ _ base) by done.
    cbn [Py.replace_char]. change (Ascii.eqb ")" ")") with true. cbv iota.
    rewrite !str_app_nil_r.
    rewrite split_on_first_sep by done. by rewrite split_on_absent.
Qed.

Lemma assemble_i_type_memory opcode rt offset base label_map current_address
    ct cb op v :
  registers !! rt = Some ct → registers !! base = Some cb →
  opcodes !! opcode = Some op → parse_immediate offset = OK v →
  assemble_i_type opcode [rt; memory_operand offset base]
    label_map current_address
  = OK (fields [op; cb; ct; Py.format_b 16 (Z.land v 0xFFFF)]).
Proof.
  intros Ht Hb Ho Hv.
  destruct (parse_immediate_no_paren _ _ Hv) as [Ho1 Ho2].
  destruct (register_no_paren _ _ Hb) as [Hb1 Hb2].
  destruct (memory_operand_split offset base Ho1 Ho2 Hb1 Hb2) as [Hin Hsplit].
  unfold assemble_i_type. rewrite operand_1, !bind_OK_l.
  rewrite Hin, Hsplit, !bind_OK_l. rewrite Hv, !bind_OK_l.
  rewrite operand_0, !bind_OK_l.
  rewrite (register_Some _ _ Ht), bind_OK_l, (register_Some _ _ Hb), !bind_OK_l.
  unfold opcode_bits. by rewrite Ho.
Qed.

(** X5.  A load or store written [op rt, offset(base)] encodes with the
    base register in the rs field and the low 16 bits of the offset; the
    scheduler treats the word as special, and decodes a load as reading
    the base and writing rt, a store as reading both and writing
    nothing. *)
Theorem memory_round_trip (opcode rt offset base : string)
    (label_map : option (gmap string Z)) (current_address : option Z)
    (nt nb v : Z) :
  opcode ∈ ["lw"; "sw"] →
  register_number rt = Some nt → register_number base = Some nb →
  parse_immediate offset = OK v →
  ∃ word hex d,
    assemble_instruction opcode [rt; memory_operand offset base]
      label_map current_address = OK (Some word)
    ∧ word_number word `mod` 2 ^ 16 = v `mod` 2 ^ 16
    ∧ hex_instruction word = OK hex
    ∧ is_hex_word hex = true
    ∧ is_special hex = OK true
    ∧ decode_mips hex = OK d
    ∧ reads d = (if decide (opcode = "lw") then {[nb]} else {[nb; nt]})
    ∧ writes d = (if decide (opcode = "lw") then {[nt]} else ∅).
Proof.
  intros Hop (ct & Ht & Hbt & Hvt & Hrt)%register_number_Some
    (cb & Hb & Hbb & Hvb & Hrb)%register_number_Some Hv.
  assert (∃ op, opcodes !! opcode = Some op ∧ opcode ∈ i_type_mnemonics
                ∧ (opcode = "lw" ∧ digits_value 2 0 op = 35
                   ∨ opcode = "sw" ∧ digits_value 2 0 op = 43))
    as (op & Ho & Hi & Hcode).
  { revert Hop. rewrite !elem_of_cons, elem_of_nil. intros [->|[->|[]]];
      (eexists; split; [reflexivity|];
       split; [apply (bool_decide_unpack _); vm_compute; exact I|]);
      [left|right]; split; reflexivity. }
  pose proof (opcode_lookup _ _ Ho) as Hbo.
  destruct (format_b_masked v) as [Hbi Hvi].
  destruct (i_type_word_decoded op cb ct _ Hbo Hbb Hbt Hbi
              ltac:(destruct Hcode as [[_ ->]|[_ ->]]; lia))
    as (hex & Hhex & Hword & Hlow & Hsp & Hdec).
  rewrite Hvb, Hvt in Hdec.
  rewrite bool_decide_eq_true_2 in Hsp
    by (rewrite elem_of_special; destruct Hcode as [[_ ->]|[_ ->]]; lia).
  rewrite bool_decide_eq_false_2 in Hdec
    by (rewrite elem_of_set2; destruct Hcode as [[_ ->]|[_ ->]]; lia).
  rewrite bool_decide_eq_false_2 in Hdec
    by (rewrite elem_of_set2; destruct Hcode as [[_ ->]|[_ ->]]; lia).
  assert (assemble_instruction opcode [rt; memory_operand offset base]
            label_map current_address
          = OK (Some (fields [op; cb; ct; Py.format_b 16 (Z.land v 0xFFFF)])))
    as Hasm.
  { rewrite assemble_instruction_i_type by done.
    by rewrite (assemble_i_type_memory opcode rt offset base _ _ ct cb op v). }
  assert (word_number (fields [op; cb; ct; Py.format_b 16 (Z.land v 0xFFFF)])
            `mod` 2 ^ 16 = v `mod` 2 ^ 16) as Hlow'
    by (by rewrite Hlow, Hvi).
  destruct Hcode as [[-> Hc]|[-> Hc]]; rewrite Hc in Hdec.
  - rewrite decide_True in Hdec by done.
    eexists _, hex, _. repeat split; [exact Hasm|exact Hlow'|exact Hhex|
      exact Hword|exact Hsp|exact Hdec|done|done].
  - rewrite decide_False, decide_True in Hdec by done.
    eexists _, hex, _. repeat split; [exact Hasm|exact Hlow'|exact Hhex|
      exact Hword|exact Hsp|exact Hdec|done|done].
Qed.

Lemma memory_round_trip_witness :
  ∃ word hex d,
    assemble_instruction "sw" ["$9"; memory_operand "0x10" "$29"] None None
      = OK (Some word)
    ∧ word_number word `mod` 2 ^ 16 = 16 `mod` 2 ^ 16
    ∧ hex_instruction word = OK hex
    ∧ is_hex_word hex = true
    ∧ is_special hex = OK true
    ∧ decode_mips hex = OK d
    ∧ reads d = (if decide ("sw" = "lw") then {[29]} else {[29; 9]})
    ∧ writes d = (if decide ("sw" = "lw") then {[9]} else ∅).
Proof.
  apply (memory_round_trip "sw" "$9" "0x10" "$29" None None 9 29 16).
  - apply (bool_decide_unpack _). vm_compute. exact I.
  - vm_compute. reflexivity.
  - vm_compute. reflexivity.
  - vm_compute. reflexivity.
Defined.

End MemoryResults.

Section ShiftResults.
Import Assembler Pipeline Scheduler Terms.

(** An R-type word, as the pipeline writes it and the scheduler reads
    it. *)
Lemma r_type_word_decoded cs ct cd sh func :
  bits 5 cs = true → bits 5 ct = true → bits 5 cd = true →
  bits 5 sh = true → bits 6 func = true →
  let word := fields ["000000"; cs; ct; cd; sh; func] in
  let rs := digits_value 2 0 cs in
  let rt := digits_value 2 0 ct in
  let rd := digits_value 2 0 cd in
  let f := digits_value 2 0 func in
  word_number word
  = (rs * 32 + rt) * 65536 + ((rd * 32 + digits_value 2 0 sh) * 64 + f)
  ∧ ∃ hex,
      hex_instruction word = OK hex
      ∧ is_hex_word hex = true
      ∧ is_special hex = OK false
      ∧ decode_mips hex
        = if decide (word_number word = 0) then OK (Decoded TyNop 0 None ∅ ∅)
          else if bool_decide (f ∈ ({[0; 2; 3]} : gset Z)) then
            OK (Decoded TyR 0 (Some f) {[rt]} {[rd]})
          else if decide (f = 8) then OK (Decoded TyR 0 (Some f) {[rs]} ∅)
          else OK (Decoded TyR 0 (Some f) {[rs; rt]} {[rd]}).
Proof.
  intros Hs Ht Hd Hh Hf word rs rt rd f.
  pose proof (bits_value_range 5 cs Hs) as Hrs.
  pose proof (bits_value_range 5 ct Ht) as Hrt.
  pose proof (bits_value_range 5 cd Hd) as Hrd.
  pose proof (bits_value_range 5 sh Hh) as Hrh.
  pose proof (bits_value_range 6 func Hf) as Hrf.
  fold rs in Hrs. fold rt in Hrt. fold rd in Hrd. fold f in Hrf.
  assert (word_of 32 word) as Hw by (by apply fields_r_type).
  assert (word_number word
          = ((0 * 32 + rs) * 32 + rt) * 65536
            + ((rd * 32 + digits_value 2 0 sh) * 64 + f)) as Hv.
  { unfold word_number, word. by rewrite fields_r_value. }
  split; [rewrite Hv; lia|].
  destruct (hex_instruction_word word Hw) as (Hhex & Hword & Hint & Hr).
  fold (word_number word) in *. cbv zeta in Hhex, Hword, Hint, Hr.
  exists (Py.format_X 8 (word_number word)).
  split; [done|]. split; [done|].
  destruct (decide (word_number word = 0)) as [Hz|Hnz].
  - rewrite Hz. split; reflexivity.
  - assert (Py.format_X 8 (word_number word) ≠ "00000000") as Hnop
      by (apply int16_not_nop; lia).
    assert (0 ≤ (rd * 32 + digits_value 2 0 sh) * 64 + f < 65536) as Hlow
      by lia.
    destruct (decode_fields _ _ 0 rs rt _ ltac:(lia) Hrs Hrt Hlow Hv Hnop Hint)
      as [Hsp Hdec].
    destruct (word_low_fields ((0 * 32 + rs) * 32 + rt) rd
                (digits_value 2 0 sh) f ltac:(lia) Hrd Hrh Hrf)
      as [Hfrd Hffn].
    cbv zeta in Hfrd, Hffn. rewrite <- Hv in Hfrd, Hffn.
    rewrite decide_True in Hdec by done. cbv zeta in Hdec.
    rewrite Hfrd, Hffn in Hdec. split; [|exact Hdec].
    rewrite Hsp. by rewrite bool_decide_eq_false_2
      by (rewrite elem_of_special; lia).
Qed.

Lemma assemble_r_type_shift opcode rd rt count cd ct func op n :
  opcode ∈ shift_mnemonics →
  registers !! rd = Some cd → registers !! rt = Some ct →
  func_codes !! opcode = Some func → opcodes !! opcode = Some op →
  int10 count = OK n →
  assemble_r_type opcode [rd; rt; count]
  = OK (fields [op; "00000"; ct; cd; Py.format_b 5 n; func]).
Proof.
  intros Hop Hd Ht Hf Ho Hn. unfold assemble_r_type, shift_count.
  rewrite bool_decide_eq_true_2 by done.
  rewrite operand_0, operand_1, operand_2, !bind_OK_l.
  rewrite (register_Some _ _ Hd), bind_OK_l, (register_Some _ _ Ht), bind_OK_l.
  rewrite Hn, !bind_OK_l. unfold func_bits, opcode_bits.
  by rewrite Hf, Ho.
Qed.

Lemma assemble_r_type_jr rs cs :
  registers !! rs = Some cs →
  assemble_r_type "jr" [rs]
  = OK (fields ["000000"; cs; "00000"; "00000"; "00000"; "001000"]).
Proof.
  intros Hs. unfold assemble_r_type.
  rewrite bool_decide_eq_false_2 by closed_not_elem.
  rewrite decide_True by done.
  rewrite operand_0, !bind_OK_l, (register_Some _ _ Hs), !bind_OK_l.
  reflexivity.
Qed.

(** X6.  A shift by a constant, [sll], [srl] or [sra] with a count from
    0 to 31, is encoded as one word that the scheduler does not treat as
    special.  It decodes as reading rt and writing rd, except
    [sll $0,$0,0]: that word is all zeros, which is the NOP, and decodes
    with no reads and no writes. *)
Theorem shift_round_trip (opcode rd rt count : string)
    (label_map : option (gmap string Z)) (current_address : option Z)
    (nd nt n : Z) :
  opcode ∈ ["sll"; "srl"; "sra"] →
  register_number rd = Some nd → register_number rt = Some nt →
  int10 count = OK n → 0 ≤ n < 32 →
  ∃ word hex d,
    assemble_instruction opcode [rd; rt; count] label_map current_address
      = OK (Some word)
    ∧ hex_instruction word = OK hex
    ∧ is_hex_word hex = true
    ∧ is_special hex = OK false
    ∧ decode_mips hex = OK d
    ∧ (hex = "00000000" ↔ opcode = "sll" ∧ nd = 0 ∧ nt = 0 ∧ n = 0)
    ∧ (hex = "00000000" → d_type d = TyNop ∧ reads d = ∅ ∧ writes d = ∅)
    ∧ (hex ≠ "00000000" →
       d_type d = TyR ∧ reads d = {[nt]} ∧ writes d = {[nd]}).
Proof.
  intros Hop (cd & Hd & Hbd & Hvd & Hrd)%register_number_Some
    (ct & Ht & Hbt & Hvt & Hrt)%register_number_Some Hn Hrn.
  assert (∃ func, func_codes !! opcode = Some func
                  ∧ opcodes !! opcode = Some "000000"
                  ∧ opcode ∈ shift_mnemonics
                  ∧ (opcode = "sll" ∧ digits_value 2 0 func = 0
                     ∨ opcode ≠ "sll" ∧ (digits_value 2 0 func = 2
                                         ∨ digits_value 2 0 func = 3)))
    as (func & Hf & Ho & Hsh & Hfv).
  { revert Hop. rewrite !elem_of_cons, elem_of_nil.
    intros [->|[->|[->|[]]]];
      (eexists; split; [reflexivity|]; split; [reflexivity|];
       split; [apply (bool_decide_unpack _); vm_compute; exact I|]);
      [left; by split | right; split; [done|by left]
       | right; split; [done|by right]]. }
  pose proof (func_lookup _ _ Hf) as Hbf.
  destruct (format_b_fits 5 n ltac:(lia) Hrn) as [Hbn Hvn].
  destruct (r_type_word_decoded "00000" ct cd (Py.format_b 5 n) func
              eq_refl Hbt Hbd Hbn Hbf) as (Hv & hex & Hhex & Hword & Hsp & Hdec).
  cbv zeta in Hv, Hhex, Hdec.
  rewrite Hvn, Hvt, Hvd in Hv. change (digits_value 2 0 "00000") with 0 in *.
  rewrite Hvt, Hvd in Hdec.
  set (word := fields ["000000"; "00000"; ct; cd; Py.format_b 5 n; func]) in *.
  assert (hex = "00000000" ↔ word_number word = 0) as Hzero.
  { destruct (hex_instruction_word word) as (Hhex' & _ & _ & Hr).
    { by apply fields_r_type. }
    cbv zeta in Hhex', Hr. fold (word_number word) in Hhex', Hr.
    rewrite Hhex' in Hhex. injection Hhex as <-. split.
    - by apply format_X_zero.
    - intros ->. reflexivity. }
  assert (word_number word = 0
          ↔ opcode = "sll" ∧ nd = 0 ∧ nt = 0 ∧ n = 0) as Hall.
  { rewrite Hv. split.
    - intros Hz. destruct Hfv as [[-> Hfz]|[_ Hfz]]; [|lia].
      repeat split; lia.
    - intros (-> & -> & -> & ->). destruct Hfv as [[_ ->]|[? _]]; done. }
  exists word, hex.
  destruct (decide (word_number word = 0)) as [Hz|Hnz].
  - eexists. split; [|split; [done|split; [done|split; [done|split;
      [exact Hdec|]]]]].
    + rewrite assemble_instruction_r_type by eauto.
      by rewrite (assemble_r_type_shift opcode rd rt count cd ct func
                    "000000" n).
    + split; [by rewrite Hzero, Hall|]. split; [done|].
      intros Hne. by rewrite Hzero in Hne.
  - rewrite bool_decide_eq_true_2 in Hdec
      by (rewrite elem_of_set3; destruct Hfv as [[_ ->]|[_ [-> | ->]]]; lia).
    eexists. split; [|split; [done|split; [done|split; [done|split;
      [exact Hdec|]]]]].
    + rewrite assemble_instruction_r_type by eauto.
      by rewrite (assemble_r_type_shift opcode rd rt count cd ct func
                    "000000" n).
    + split; [by rewrite Hzero, Hall|]. split; [|done].
      intros Hne. by rewrite Hzero in Hne.
Qed.

Lemma shift_round_trip_witness :
  ∃ word hex d,
    assemble_instruction "sra" ["$8"; "$9"; "31"] None None = OK (Some word)
    ∧ hex_instruction word = OK hex
    ∧ is_hex_word hex = true
    ∧ is_special hex = OK false
    ∧ decode_mips hex = OK d
    ∧ (hex = "00000000" ↔ "sra" = "sll" ∧ 8 = 0 ∧ 9 = 0 ∧ 31 = 0)
    ∧ (hex = "00000000" → d_type d = TyNop ∧ reads d = ∅ ∧ writes d = ∅)
    ∧ (hex ≠ "00000000" →
       d_type d = TyR ∧ reads d = {[9]} ∧ writes d = {[8]}).
Proof.
  apply (shift_round_trip "sra" "$8" "$9" "31" None None 8 9 31).
  - apply (bool_decide_unpack _). vm_compute. exact I.
  - vm_compute. reflexivity.
  - vm_compute. reflexivity.
  - vm_compute. reflexivity.
  - lia.
Defined.

(** X7.  [jr] on a valid register is encoded as one word with the
    register in the rs field; the scheduler decodes it as reading that
    register and writing none, and, although it is a jump, does not
    treat it as special. *)
Theorem jr_round_trip (rs : string)
    (label_map : option (gmap string Z)) (current_address : option Z)
    (ns : Z) :
  register_number rs = Some ns →
  ∃ word hex d,
    assemble_instruction "jr" [rs] label_map current_address = OK (Some word)
    ∧ word_number word = ns * 2 ^ 21 + 8
    ∧ hex_instruction word = OK hex
    ∧ is_hex_word hex = true
    ∧ is_special hex = OK false
    ∧ decode_mips hex = OK d
    ∧ d_type d = TyR ∧ reads d = {[ns]} ∧ writes d = ∅.
Proof.
  intros (cs & Hs & Hbs & Hvs & Hrs)%register_number_Some.
  destruct (r_type_word_decoded cs "00000" "00000" "00000" "001000"
              Hbs eq_refl eq_refl eq_refl eq_refl)
    as (Hv & hex & Hhex & Hword & Hsp & Hdec).
  cbv zeta in Hv, Hhex, Hdec. rewrite Hvs in Hv, Hdec.
  change (digits_value 2 0 "00000") with 0 in *.
  change (digits_value 2 0 "001000") with 8 in *.
  rewrite decide_False in Hdec by lia.
  rewrite bool_decide_eq_false_2 in Hdec by (rewrite elem_of_set3; lia).
  rewrite decide_True in Hdec by done.
  eexists _, hex, _.
  split; [|split; [|split; [exact Hhex|split; [done|split; [done|split;
    [exact Hdec|done]]]]]].
  - rewrite assemble_instruction_r_type by (vm_compute; eauto).
    by rewrite (assemble_r_type_jr rs cs).
  - rewrite Hv. lia.
Qed.

Lemma jr_round_trip_witness :
  ∃ word hex d,
    assemble_instruction "jr" ["$31"] None None = OK (Some word)
    ∧ word_number word = 31 * 2 ^ 21 + 8
    ∧ hex_instruction word = OK hex
    ∧ is_hex_word hex = true
    ∧ is_special hex = OK false
    ∧ decode_mips hex = OK d
    ∧ d_type d = TyR ∧ reads d = {[31]} ∧ writes d = ∅.
Proof.
  apply (jr_round_trip "$31" None None 31). vm_compute. reflexivity.
Defined.

End ShiftResults.

(** * More results: tables, words and decoded sets *)

Section TableResults.
Import Assembler Pipeline Scheduler Terms.

(** X8.  The register table holds exactly the names [$0] to [$31],
    written in decimal, and the code of [$i] is the number [i]: no other
    spelling of a register is accepted. *)
Theorem register_names (name : string) (n : Z) :
  register_number name = Some n
  ↔ ∃ i : nat, (i < 32)%nat ∧ name = "$" +:+ Py.str_nat i ∧ n = Z.of_nat i.
Proof.
  split.
  - unfold register_number.
    destruct (registers !! name) as [code|] eqn:H; [|done]. intros [= <-].
    apply (table_lookup registers_list register_row) in H;
      [|vm_compute; reflexivity].
    unfold register_row in H. apply existsb_exists in H as (i & Hi & H).
    apply andb_prop in H as [Hname%String.eqb_eq Hcode%Z.eqb_eq].
    apply in_seq in Hi. exists i. split; [lia|done].
  - intros (i & Hi & -> & ->).
    do 32 (destruct i as [|i]; [vm_compute; reflexivity|]). lia.
Qed.

(** X9.  The hex text the pipeline writes for a 32-bit word has exactly
    8 hex digits, and read back in base 16, as the scheduler does, it is
    the number the word's binary digits denote; it is the NOP text only
    for the all-zero word. *)
Theorem hex_round_trip (w : string) :
  word_of 32 w →
  ∃ hex,
    hex_instruction w = OK hex
    ∧ is_hex_word hex = true
    ∧ int16 hex = OK (word_number w)
    ∧ 0 ≤ word_number w < 2 ^ 32
    ∧ (hex = "00000000" ↔ word_number w = 0).
Proof.
  intros Hw. destruct (hex_instruction_word w Hw) as (Hhex & Hword & Hint & Hr).
  cbv zeta in Hhex, Hword, Hint, Hr. fold (word_number w) in *.
  exists (Py.format_X 8 (word_number w)). repeat split; try done; try lia.
  - by apply format_X_zero.
  - intros ->. reflexivity.
Qed.

Lemma hex_round_trip_witness :
  ∃ hex,
    hex_instruction "100011_00010_00011_1111111111111100" = OK hex
    ∧ is_hex_word hex = true
    ∧ int16 hex = OK (word_number "100011_00010_00011_1111111111111100")
    ∧ 0 ≤ word_number "100011_00010_00011_1111111111111100" < 2 ^ 32
    ∧ (hex = "00000000"
       ↔ word_number "100011_00010_00011_1111111111111100" = 0).
Proof.
  apply (hex_round_trip "100011_00010_00011_1111111111111100").
  split; vm_compute; reflexivity.
Defined.

Lemma land_5_range x : 0 ≤ Z.land x 0x1F ≤ 31.
Proof.
  change (Z.land x 0x1F) with (Z.land x (Z.ones 5)).
  rewrite Z.land_ones by lia. change (2 ^ 5) with 32. pose proof (Z.mod_pos_bound x 32 ltac:(lia)). lia.
Qed.

Lemma size_pair (a b : Z) : (size ({[a; b]} : gset Z) ≤ 2)%nat.
Proof.
  destruct (decide (a = b)) as [->|Hne].
  - assert (({[b; b]} : gset Z) = {[b]}) as ->.
    { apply set_eq. intros x. rewrite elem_of_union, !elem_of_singleton.
      tauto. }
    rewrite size_singleton. lia.
  - rewrite size_union, !size_singleton; [lia|].
    apply disjoint_singleton_l. by rewrite elem_of_singleton.
Qed.

(** X10.  Whatever text the decoder accepts, be it 8 hex digits or not,
    the registers it reports are numbers from 0 to 31, at most two read
    and at most one written. *)
Theorem decode_mips_registers (hex : string) (d : decoded) :
  decode_mips hex = OK d →
  (∀ r, r ∈ reads d ∪ writes d → 0 ≤ r ≤ 31)
  ∧ (size (reads d) ≤ 2)%nat ∧ (size (writes d) ≤ 1)%nat.
Proof.
  unfold decode_mips. intros H.
  destruct (decide (hex = "00000000")).
  { injection H as <-. cbn [reads writes]. split.
    - intros r. rewrite elem_of_union, !elem_of_empty. tauto.
    - rewrite size_empty. lia. }
  apply bind_OK in H as (instr & _ & H). cbv zeta in H.
  pose proof (land_5_range (Z.shiftr instr 21)) as Hrs.
  pose proof (land_5_range (Z.shiftr instr 16)) as Hrt.
  pose proof (land_5_range (Z.shiftr instr 11)) as Hrd.
  pose proof (size_pair (Z.land (Z.shiftr instr 21) 0x1F)
                (Z.land (Z.shiftr instr 16) 0x1F)) as Hpair.
  repeat first [case_decide | case_bool_decide]; injection H as <-;
    cbn [reads writes];
    (split;
     [intros r; rewrite ?elem_of_union, ?elem_of_singleton, ?elem_of_empty;
      intros Hr; repeat destruct Hr as [Hr|Hr]; subst; first [lia | done]
     |rewrite ?size_singleton, ?size_empty; split; first [lia | done]]).
Qed.

Lemma decode_mips_registers_witness :
  ∃ d, decode_mips "8C430000" = OK d
       ∧ (∀ r, r ∈ reads d ∪ writes d → 0 ≤ r ≤ 31)
       ∧ (size (reads d) ≤ 2)%nat ∧ (size (writes d) ≤ 1)%nat.
Proof.
  eexists. split; [vm_compute; reflexivity|].
  apply (decode_mips_registers "8C430000"). vm_compute. reflexivity.
Defined.

End TableResults.

(** * More results: how the scheduler fills a packet *)

Section FirstFit.
Import Scheduler Terms.
Local Open Scope nat_scope.

(** The inner loop stops at the first index that is free and passes the
    test. *)
Lemma find_candidate_seq_Some test instructions used a len j :
  find_candidate test instructions used (seq a len) = OK (Some j) →
  ∀ j', a ≤ j' < j →
    used !! j' = Some true ∨ test (hex_of instructions j') = OK false.
Proof.
  revert a. induction len as [|len IH]; intros a; cbn [seq find_candidate];
    [discriminate|].
  intros H j' Hj'. apply bind_OK in H as (u & Hu & H).
  apply of_option_OK in Hu. destruct u; cbn [negb] in H.
  - destruct (decide (j' = a)) as [->|]; [by left|].
    apply (IH _ H). lia.
  - apply bind_OK in H as ([line hex] & Hi & H). apply of_option_OK in Hi.
    apply bind_OK in H as (ok & Hok & H). destruct ok.
    + injection H as <-. lia.
    + destruct (decide (j' = a)) as [->|].
      * right. by rewrite (hex_of_lookup _ _ _ _ Hi).
      * apply (IH _ H). lia.
Qed.

Lemma find_candidate_seq_None test instructions used a len :
  find_candidate test instructions used (seq a len) = OK None →
  ∀ j', a ≤ j' < a + len →
    used !! j' = Some true ∨ test (hex_of instructions j') = OK false.
Proof.
  revert a. induction len as [|len IH]; intros a; cbn [seq find_candidate].
  { intros _ j' Hj'. lia. }
  intros H j' Hj'. apply bind_OK in H as (u & Hu & H).
  apply of_option_OK in Hu. destruct u; cbn [negb] in H.
  - destruct (decide (j' = a)) as [->|]; [by left|].
    apply (IH _ H). lia.
  - apply bind_OK in H as ([line hex] & Hi & H). apply of_option_OK in Hi.
    apply bind_OK in H as (ok & Hok & H). destruct ok; [discriminate|].
    destruct (decide (j' = a)) as [->|].
    + right. by rewrite (hex_of_lookup _ _ _ _ Hi).
    + apply (IH _ H). lia.
Qed.

Lemma partner_test_at instructions i line hex sp :
  instructions !! i = Some (line, hex) → is_special hex = OK sp →
  partner_test instructions i
  = if sp then slot1_test hex else safe_pair hex.
Proof.
  intros Hi Hsp. unfold partner_test. rewrite (hex_of_lookup _ _ _ _ Hi).
  rewrite Hsp. by destruct sp.
Qed.

Lemma fits_snoc instructions plan p :
  fits instructions plan → first_fit instructions plan p →
  fits instructions (plan ++ [p]).
Proof.
  intros Hfits Hp k q Hq.
  destruct (decide (k < length plan)) as [Hk|Hk].
  - rewrite lookup_app_l in Hq by done.
    rewrite take_app_le by lia. by apply Hfits.
  - rewrite lookup_app_r in Hq by lia.
    destruct (k - length plan) as [|m] eqn:Hm; [|done].
    injection Hq as <-. assert (k = length plan) as -> by lia.
    by rewrite take_app_length.
Qed.

(** One turn of the loop: either the instruction was placed already, or
    a packet is appended that it anchors and that first fit fills. *)
Lemma schedule_step_first_fit instructions i used packets plan used' packets' :
  loop_inv instructions i used packets plan →
  schedule_step instructions (length instructions) i (used, packets)
    = OK (used', packets') →
  (used' = used ∧ packets' = packets ∧ used !! i = Some true)
  ∨ ∃ p, anchor p = i
         ∧ loop_inv instructions (S i) used' packets' (plan ++ [p])
         ∧ first_fit instructions plan p.
Proof.
  intros Hinv H. unfold schedule_step in H.
  apply bind_OK in H as (u & Hu & H). apply of_option_OK in Hu.
  destruct u.
  { injection H as <- <-. by left. }
  right.
  apply bind_OK in H as ([curr_line curr_hex] & Hi & H).
  apply of_option_OK in Hi.
  apply bind_OK in H as (sp & Hsp & H).
  pose proof (partner_test_at _ _ _ _ _ Hi Hsp) as Htest.
  assert (i < length used) as Hlt by (by eapply lookup_lt_Some).
  assert (length used = length instructions) as Hlen by apply Hinv.
  pose proof (hex_of_lookup _ _ _ _ Hi) as Hhex.
  pose proof (line_of_lookup _ _ _ _ Hi) as Hline.
  assert (∀ k, used !! k = Some true → k ∈ flat_map members plan) as Hplaced
    by (intros k; apply Hinv).
  destruct sp; apply bind_OK in H as (cand & Hc & H); destruct cand as [j|].
  - (* a special instruction and a partner for slot1 *)
    pose proof (find_candidate_seq_Some _ _ _ _ _ _ Hc) as Hfirst.
    apply find_candidate_Some in Hc as (Hj & Huj & cl & ch & Hij & Ht).
    apply elem_of_range_after in Hj.
    pose proof Ht as Ht'. apply slot1_test_true in Ht as [Hns Hhz].
    rewrite Hij in H. cbn in H. injection H as <- <-.
    exists (Placement i (Some j) (Some i)). split; [done|]. split.
    + replace (cl, curr_line)
        with (emit instructions (Placement i (Some j) (Some i)))
        by (unfold emit; cbn [slot1 slot2];
            by rewrite Hline, (line_of_lookup _ _ _ _ Hij)).
      apply (loop_inv_extend _ _ used); try done.
      * split; cbn.
        -- apply elem_of_pair. by right.
        -- intros k [->| ->]%elem_of_pair; lia.
        -- intros a [= <-]. by rewrite (hex_of_lookup _ _ _ _ Hij).
        -- intros a b [= <-] [= <-].
           by rewrite Hhex, (hex_of_lookup _ _ _ _ Hij).
      * apply NoDup_pair. lia.
      * intros k [->| ->]%elem_of_pair; done.
      * by rewrite !length_insert.
      * intros k. cbn. rewrite elem_of_pair, used_insert
          by (rewrite length_insert; lia).
        rewrite used_insert by (apply lookup_lt_Some in Huj; lia). tauto.
    + unfold first_fit, partner. cbn [anchor slot1 slot2].
      rewrite decide_False by lia. rewrite Htest. split.
      * intros b [= <-]. by rewrite (hex_of_lookup _ _ _ _ Hij).
      * intros j' Hj' Hb. specialize (Hb j eq_refl).
        destruct (Hfirst j' ltac:(lia)) as [Hu'|Hu']; [left|right]; auto.
  - (* a special instruction alone *)
    pose proof (find_candidate_seq_None _ _ _ _ _ Hc) as Hfirst.
    injection H as <- <-.
    exists (Placement i None (Some i)). split; [done|]. split.
    + replace (nop_line, curr_line)
        with (emit instructions (Placement i None (Some i)))
        by (unfold emit; cbn [slot1 slot2]; by rewrite Hline).
      apply (loop_inv_extend _ _ used); try done.
      * apply well_placed_alone2.
      * apply NoDup_singleton.
      * intros k ->%list_elem_of_singleton. done.
      * by rewrite length_insert.
      * intros k. cbn. rewrite list_elem_of_singleton, used_insert by done.
        tauto.
    + unfold first_fit, partner. cbn [anchor slot1 slot2].
      rewrite Htest. split; [done|].
      intros j' Hj' _.
      destruct (Hfirst j' ltac:(lia)) as [Hu'|Hu']; [left|right]; auto.
  - (* an ordinary instruction and a partner for slot2 *)
    pose proof (find_candidate_seq_Some _ _ _ _ _ _ Hc) as Hfirst.
    apply find_candidate_Some in Hc as (Hj & Huj & cl & ch & Hij & Ht).
    apply elem_of_range_after in Hj.
    pose proof Ht as Ht'. apply safe_pair_true in Ht.
    rewrite Hij in H. cbn in H. injection H as <- <-.
    exists (Placement i (Some i) (Some j)). split; [done|]. split.
    + replace (curr_line, cl)
        with (emit instructions (Placement i (Some i) (Some j)))
        by (unfold emit; cbn [slot1 slot2];
            by rewrite Hline, (line_of_lookup _ _ _ _ Hij)).
      apply (loop_inv_extend _ _ used); try done.
      * split; cbn.
        -- apply elem_of_pair. by left.
        -- intros k [->| ->]%elem_of_pair; lia.
        -- intros a [= <-]. by rewrite Hhex.
        -- intros a b [= <-] [= <-].
           by rewrite Hhex, (hex_of_lookup _ _ _ _ Hij).
      * apply NoDup_pair. lia.
      * intros k [->| ->]%elem_of_pair; done.
      * by rewrite !length_insert.
      * intros k. cbn. rewrite elem_of_pair, used_insert
          by (rewrite length_insert; apply lookup_lt_Some in Huj; lia).
        rewrite used_insert by done. tauto.
    + unfold first_fit, partner. cbn [anchor slot1 slot2].
      rewrite decide_True by done. rewrite Htest. split.
      * intros b [= <-]. by rewrite (hex_of_lookup _ _ _ _ Hij).
      * intros j' Hj' Hb. specialize (Hb j eq_refl).
        destruct (Hfirst j' ltac:(lia)) as [Hu'|Hu']; [left|right]; auto.
  - (* an ordinary instruction alone *)
    pose proof (find_candidate_seq_None _ _ _ _ _ Hc) as Hfirst.
    injection H as <- <-.
    exists (Placement i (Some i) None). split; [done|]. split.
    + replace (curr_line, nop_line)
        with (emit instructions (Placement i (Some i) None))
        by (unfold emit; cbn [slot1 slot2]; by rewrite Hline).
      apply (loop_inv_extend _ _ used); try done.
      * apply well_placed_alone1. by rewrite Hhex.
      * apply NoDup_singleton.
      * intros k ->%list_elem_of_singleton. done.
      * by rewrite length_insert.
      * intros k. cbn. rewrite list_elem_of_singleton, used_insert by done.
        tauto.
    + unfold first_fit, partner. cbn [anchor slot1 slot2].
      rewrite Htest. split; [done|].
      intros j' Hj' _.
      destruct (Hfirst j' ltac:(lia)) as [Hu'|Hu']; [left|right]; auto.
Qed.

Lemma schedule_loop_first_fit instructions len i used packets plan
    used' packets' :
  loop_inv instructions i used packets plan → fits instructions plan →
  schedule_loop instructions (length instructions) (seq i len) (used, packets)
    = OK (used', packets') →
  ∃ plan', loop_inv instructions (i + len) used' packets' plan'
           ∧ fits instructions plan'.
Proof.
  revert i used packets plan.
  induction len as [|len IH]; intros i used packets plan Hinv Hfits H;
    cbn [seq schedule_loop] in H.
  - injection H as <- <-. exists plan. by rewrite Nat.add_0_r.
  - apply bind_OK in H as ([used1 packets1] & Hstep & H).
    replace (i + S len) with (S i + len) by lia.
    destruct (schedule_step_first_fit _ _ _ _ _ _ _ Hinv Hstep)
      as [(-> & -> & Hu)|(p & Hp & Hinv1 & Hfit)].
    + apply (IH (S i) used packets plan);
        [by apply loop_inv_skip|done|done].
    + apply (IH (S i) used1 packets1 (plan ++ [p]));
        [done|by apply fits_snoc|done].
Qed.

Lemma plan_sizes instructions plan :
  Forall (well_placed instructions) plan →
  length plan ≤ length (flat_map members plan) ≤ 2 * length plan.
Proof.
  induction 1 as [|p plan Hp _ IH]; cbn [flat_map length]; [lia|].
  rewrite length_app.
  assert (1 ≤ length (members p) ≤ 2); [|lia].
  split.
  - destruct (wp_anchor _ _ Hp) as [|]; cbn; lia.
  - unfold members. rewrite length_app.
    destruct (slot1 p), (slot2 p); cbn; lia.
Qed.

End FirstFit.

Section FirstFitResults.
Import Scheduler Terms.
Local Open Scope nat_scope.

(** X11.  The scheduler fills packets by first fit.  The packets come
    from a plan whose anchors, each the earliest input instruction of
    its packet, come in input order.  The partner of a packet's anchor
    passes the test of the anchor ([slot1_test] for a special anchor,
    [safe_pair] otherwise), and every instruction after the anchor and
    before the partner, or every later instruction when the other slot
    holds the NOP, either sits in an earlier packet or fails that
    test. *)
Theorem packets_first_fit (instructions : list instruction)
    (packets : list packet) :
  schedule_instructions_enhanced instructions = OK packets →
  ∃ plan,
    packets = map (emit instructions) plan
    ∧ flat_map members plan ≡ₚ seq 0 (length instructions)
    ∧ StronglySorted lt (map anchor plan)
    ∧ ∀ k p, plan !! k = Some p →
        anchor p ∈ members p
        ∧ (∀ j, j ∈ members p → anchor p ≤ j)
        ∧ first_fit instructions (take k plan) p.
Proof.
  unfold schedule_instructions_enhanced. intros H.
  apply bind_OK in H as ([used' packets'] & Hloop & H).
  injection H as <-. cbn.
  destruct (schedule_loop_first_fit _ _ _ _ _ _ _ _
              (loop_inv_start instructions) ltac:(by intros k p) Hloop)
    as (plan & [Hpk Hlen Hnd Hused Hdone Hord Hbef Hpl] & Hfits).
  exists plan. split; [done|]. split; [|split; [done|]].
  - apply NoDup_Permutation; [done | apply NoDup_seq |].
    intros k. rewrite Hused, elem_of_seq. split.
    + intros Hk%lookup_lt_Some. lia.
    + intros Hk. apply Hdone. lia.
  - intros k p Hp.
    assert (well_placed instructions p) as Hwp.
    { rewrite Forall_forall in Hpl. apply Hpl.
      by eapply list_elem_of_lookup_2. }
    split; [apply Hwp|]. split; [apply (wp_later _ _ Hwp)|by apply Hfits].
Qed.

Lemma packets_first_fit_witness :
  schedule_instructions_enhanced demo_input = OK demo_packets
  ∧ ∃ plan,
      demo_packets = map (emit demo_input) plan
      ∧ flat_map members plan ≡ₚ seq 0 (length demo_input)
      ∧ StronglySorted lt (map anchor plan)
      ∧ ∀ k p, plan !! k = Some p →
          anchor p ∈ members p
          ∧ (∀ j, j ∈ members p → anchor p ≤ j)
          ∧ first_fit demo_input (take k plan) p.
Proof.
  split; [vm_compute; reflexivity|].
  apply (packets_first_fit demo_input demo_packets).
  vm_compute; reflexivity.
Defined.

(** X12.  The scheduler returns between half as many packets as there
    are instructions and as many: every packet holds one or two of them. *)
Theorem packet_count (instructions : list instruction)
    (packets : list packet) :
  schedule_instructions_enhanced instructions = OK packets →
  length packets ≤ length instructions ≤ 2 * length packets.
Proof.
  intros (plan & -> & Hperm & _ & Hwp)%schedule_plan.
  rewrite length_map. pose proof (plan_sizes _ _ Hwp) as Hs.
  rewrite Hperm, length_seq in Hs. done.
Qed.

Lemma packet_count_witness :
  schedule_instructions_enhanced demo_input = OK demo_packets
  ∧ length demo_packets ≤ length demo_input ≤ 2 * length demo_packets.
Proof.
  split; [vm_compute; reflexivity|].
  apply (packet_count demo_input demo_packets).
  vm_compute; reflexivity.
Defined.

End FirstFitResults.

(** * More results: source lines *)

Section Mnemonics.
Import Assembler Pipeline Terms.

Lemma fmap_Some_not_None {A} (r : result A) : Some <$> r ≠ OK None.
Proof. by destruct r. Qed.

Lemma bind_not_None {A B} (m : result A) (k : A → result (option B)) :
  (∀ a, k a ≠ OK None) → m ≫= k ≠ OK None.
Proof. intros Hk. destruct m as [a|e]; [apply Hk | done]. Qed.

Lemma elem_of_mnemonics opcode :
  opcode ∈ mnemonics
  ↔ opcode ∈ ["nop"; "sgt"; "move"; "li"; "blt"; "bgt"; "ble"; "bge"]
    ∨ is_Some (func_codes !! opcode)
    ∨ opcode ∈ i_type_mnemonics ∨ opcode ∈ ["j"; "jal"].
Proof.
  unfold mnemonics. rewrite !elem_of_app, elem_of_elements, elem_of_dom.
  tauto.
Qed.

Lemma assemble_instruction_None opcode operands label_map current_address :
  assemble_instruction opcode operands label_map current_address = OK None
  ↔ opcode ∉ mnemonics.
Proof.
  rewrite elem_of_mnemonics, !elem_of_cons, elem_of_nil.
  unfold assemble_instruction.
  repeat (destruct (decide _) as [->|?];
          [split; [intros H; exfalso; revert H;
                   first [discriminate
                         | repeat first [apply fmap_Some_not_None
                                        | apply bind_not_None; intros ?]]
                  | intros H; exfalso; apply H; tauto]|]).
  repeat (case_bool_decide;
          [split; [intros Hx; exfalso; revert Hx; apply fmap_Some_not_None
                  | intros Hx; exfalso; apply Hx;
                    rewrite ?elem_of_cons, ?elem_of_nil in *; tauto]|]).
  split; [|done]. intros _.
  rewrite ?elem_of_cons, ?elem_of_nil in *. tauto.
Qed.

End Mnemonics.

Section MnemonicResults.
Import Assembler Pipeline Terms.

(** X13.  [assemble_instruction] returns [None] exactly for the
    mnemonics it has no branch for, whatever the operands; the second
    pass then fails on [None.splitlines()] with an AttributeError, so a
    line with an unknown mnemonic stops the run instead of being
    reported or skipped. *)
Theorem unknown_mnemonic_none (opcode : string) (operands : list string)
    (label_map : option (gmap string Z)) (current_address : option Z) :
  (assemble_instruction opcode operands label_map current_address = OK None
   ↔ opcode ∉ mnemonics)
  ∧ (opcode ∉ mnemonics →
     ∀ labels pc written raw line,
       instruction_text raw = Some line →
       parse_instruction line = OK (opcode, operands) →
       second_pass_line labels (pc, written) raw = Raise AttributeError_None).
Proof.
  split; [apply assemble_instruction_None|].
  intros Hop labels pc written raw line Htext Hparse.
  unfold second_pass_line. rewrite Htext, Hparse, bind_OK_l.
  cbv zeta.
  by rewrite (proj2 (assemble_instruction_None opcode operands _ _) Hop).
Qed.

Lemma unknown_mnemonic_none_witness :
  second_pass_line ∅ (0, []) "mul $1,$2,$3 # product"
  = Raise AttributeError_None.
Proof.
  apply (proj2 (unknown_mnemonic_none "mul" ["$1"; "$2"; "$3"] None None))
    with (line := "mul $1,$2,$3").
  - closed_not_elem.
  - vm_compute. reflexivity.
  - vm_compute. reflexivity.
Defined.

End MnemonicResults.

Section SourceLines.
Import Assembler Pipeline Terms.

Lemma endswith_char_snoc c s :
  Py.endswith_char c (s +:+ String c "") = true.
Proof.
  induction s as [|a s IH].
  - rewrite str_app_nil_l. cbn. apply Ascii.eqb_refl.
  - rewrite str_app_cons. cbn [Py.endswith_char].
    destruct (s +:+ String c "") eqn:Hs; [|done].
    by destruct s.
Qed.

Lemma drop_last_snoc c s : Py.drop_last (s +:+ String c "") = s.
Proof.
  induction s as [|a s IH]; [done|].
  rewrite str_app_cons. cbn [Py.drop_last].
  destruct (s +:+ String c "") eqn:Hs; [by destruct s|].
  by rewrite IH.
Qed.

Lemma endswith_drop_last c s :
  Py.endswith_char c s = true → s = Py.drop_last s +:+ String c "".
Proof.
  induction s as [|a s IH]; [done|]. cbn [Py.endswith_char Py.drop_last].
  destruct s as [|b s'].
  - intros ->%Ascii.eqb_eq. done.
  - intros H. rewrite str_app_cons. by rewrite <- IH.
Qed.

(** A text that ends in a colon has a token. *)
Lemma split_label s : Py.split (blanked (s +:+ ":")) ≠ [].
Proof.
  induction s as [|a s IH]; [done|].
  rewrite str_app_cons. cbn [Py.replace_char].
  destruct (Ascii.eqb a ",") eqn:Ha.
  - change (" " +:+ blanked (s +:+ ":"))
      with (String " " (blanked (s +:+ ":"))).
    cbn [Py.split]. change (Py.isspace " ") with true. cbv iota. exact IH.
  - destruct (Py.isspace a) eqn:Hsp.
    + cbn [Py.split]. by rewrite Hsp.
    + by apply split_nonempty.
Qed.

(** The first loop at a label line. *)
Lemma first_pass_line_label m pc raw name :
  Py.strip raw = name +:+ ":" →
  first_pass_line (m, pc) raw = (<[name := pc]> m, pc).
Proof.
  intros Hraw. unfold first_pass_line. rewrite Hraw.
  destruct (Py.split (blanked (name +:+ ":"))) eqn:Hs;
    [by apply split_label in Hs|].
  by rewrite endswith_char_snoc, drop_last_snoc.
Qed.

(** The first loop at any other line leaves the label alone. *)
Lemma first_pass_line_other m pc raw name :
  Py.strip raw ≠ name +:+ ":" →
  fst (first_pass_line (m, pc) raw) !! name = m !! name.
Proof.
  intros Hraw. unfold first_pass_line.
  destruct (Py.split _); [done|].
  destruct (Py.endswith_char ":" (Py.strip raw)) eqn:Hend.
  - cbn [fst]. apply lookup_insert_ne. intros Hname. apply Hraw.
    rewrite (endswith_drop_last _ _ Hend) at 1. by rewrite Hname.
  - destruct (_ && _); [|done]. by destruct (is_pseudo_branch _).
Qed.

Lemma first_pass_other post m pc name :
  Forall (λ r, Py.strip r ≠ name +:+ ":") post →
  fst (fold_left first_pass_line post (m, pc)) !! name = m !! name.
Proof.
  intros Hpost. revert m pc.
  induction Hpost as [|r post Hr _ IH]; intros m pc; [done|].
  cbn [fold_left].
  pose proof (first_pass_line_other m pc r name Hr) as Hm.
  destruct (first_pass_line (m, pc) r) as [m1 pc1]. by rewrite IH.
Qed.

Lemma first_pass_line_passed_over st raw :
  passed_over raw → first_pass_line st raw = st.
Proof.
  destruct st as [m pc]. unfold first_pass_line.
  intros [Hraw|[Hhash Hend]].
  - by rewrite Hraw.
  - destruct (Py.split _); [done|].
    by rewrite Hend, Hhash, andb_false_r.
Qed.

Lemma second_pass_line_passed_over label_map st raw :
  passed_over raw → second_pass_line label_map st raw = OK st.
Proof.
  destruct st as [pc written]. unfold second_pass_line, instruction_text.
  intros [Hraw|[Hhash Hend]].
  - by rewrite Hraw.
  - by rewrite Hhash, orb_true_r.
Qed.

Lemma second_pass_app label_map l1 l2 st :
  second_pass label_map (l1 ++ l2) st
  = second_pass label_map l1 st ≫= second_pass label_map l2.
Proof.
  revert st. induction l1 as [|raw l1 IH]; intros st; [done|].
  cbn [app second_pass].
  destruct (second_pass_line label_map st raw) as [st1|e]; [|done].
  rewrite !bind_OK_l. apply IH.
Qed.

End SourceLines.

Section SourceLineResults.
Import Assembler Pipeline Terms.

(** X14.  The first pass binds a label to the counter it has reached at
    the label's line, and a later line changes that only if it defines
    the same label again; when the second pass gets through the lines
    before the label, that counter is the number of records written for
    them, so a label stands for the position of the next record in the
    output. *)
Theorem label_bound_to_counter (pre post : list string) (raw name : string) :
  Py.strip raw = name +:+ ":" →
  Forall (λ r, Py.strip r ≠ name +:+ ":") post →
  fst (first_pass (pre ++ raw :: post)) !! name = Some (snd (first_pass pre))
  ∧ ∀ labels pc written,
      second_pass labels pre (0, []) = OK (pc, written) →
      snd (first_pass pre) = Z.of_nat (length written).
Proof.
  intros Hraw Hpost. split.
  - unfold first_pass. rewrite fold_left_app. cbn [fold_left].
    destruct (fold_left first_pass_line pre (∅, 0)) as [m pc].
    rewrite (first_pass_line_label m pc raw name Hraw).
    rewrite first_pass_other by done. apply lookup_insert_eq.
  - intros labels pc written H. unfold first_pass.
    rewrite (first_pass_counter _ _ _ _ _ _ _ H).
    by eapply second_pass_counts.
Qed.

Lemma label_bound_to_counter_witness :
  fst (first_pass (["addi $1,$1,1"] ++ " loop: " :: ["j loop"])) !! "loop"
    = Some (snd (first_pass ["addi $1,$1,1"]))
  ∧ ∀ labels pc written,
      second_pass labels ["addi $1,$1,1"] (0, []) = OK (pc, written) →
      snd (first_pass ["addi $1,$1,1"]) = Z.of_nat (length written).
Proof.
  apply (label_bound_to_counter ["addi $1,$1,1"] ["j loop"] " loop: " "loop").
  - vm_compute. reflexivity.
  - apply Forall_cons_2; [vm_compute; discriminate | apply Forall_nil_2].
Defined.

(** X15.  A blank line, or a comment line that does not end in a colon,
    can be put anywhere in the source without changing what [main]
    writes or how it fails. *)
Theorem passed_over_line (pre post : list string) (raw : string) :
  passed_over raw →
  main (pre ++ raw :: post) = main (pre ++ post).
Proof.
  intros Hraw. unfold main, first_pass.
  rewrite !fold_left_app. cbn [fold_left].
  rewrite (first_pass_line_passed_over _ raw Hraw).
  destruct (fold_left first_pass_line post _) as [label_map pc].
  rewrite !second_pass_app. cbn [second_pass].
  destruct (second_pass label_map pre (0, [])) as [st|e]; [|done].
  rewrite !bind_OK_l.
  by rewrite (second_pass_line_passed_over _ _ raw Hraw), bind_OK_l.
Qed.

Lemma passed_over_line_witness :
  main (["addi $1,$1,1"] ++ "  # count up" :: ["j 0"])
  = main (["addi $1,$1,1"] ++ ["j 0"]).
Proof.
  apply (passed_over_line ["addi $1,$1,1"] ["j 0"] "  # count up").
  right. split; vm_compute; reflexivity.
Defined.

End SourceLineResults.

(** * More results: from the assembler's file to the scheduler's list *)

Section Records.
Import Assembler Pipeline Scheduler Terms.

(** ** [rstrip], [strip] and [split] on a text with a last token *)

Lemma rstrip_all_spaces ws :
  all_chars Py.isspace ws = true → Py.rstrip ws = "".
Proof.
  induction ws as [|c ws IH]; [done|]. cbn [all_chars Py.rstrip].
  intros [Hc Hs]%andb_prop. by rewrite IH, Hc.
Qed.

Lemma rstrip_app_spaces s ws :
  all_chars Py.isspace ws = true → Py.rstrip (s +:+ ws) = Py.rstrip s.
Proof.
  intros Hws. induction s as [|c s IH].
  - rewrite str_app_nil_l. by apply rstrip_all_spaces.
  - rewrite str_app_cons. cbn [Py.rstrip]. by rewrite IH.
Qed.

Lemma rstrip_last s c :
  Py.isspace c = false → Py.rstrip (s +:+ String c "") = s +:+ String c "".
Proof.
  intros Hc. induction s as [|a s IH].
  - rewrite str_app_nil_l. cbn [Py.rstrip]. by rewrite Hc.
  - rewrite str_app_cons. cbn [Py.rstrip]. rewrite IH.
    destruct (s +:+ String c "") eqn:Hs; [by destruct s|done].
Qed.

Lemma split_token t u :
  all_chars (λ c, negb (Py.isspace c)) t = true → t ≠ "" →
  Py.split (t +:+ String " " u) = t :: Py.split u.
Proof.
  induction t as [|a t IH]; [done|]. cbn [all_chars].
  intros [Ha%negb_true_iff Ht]%andb_prop _.
  rewrite str_app_cons. cbn [Py.split]. rewrite Ha.
  destruct t as [|b t'].
  - rewrite str_app_nil_l. change (Py.isspace " ") with true. cbv iota.
    cbn [Py.split]. change (Py.isspace " ") with true. done.
  - rewrite str_app_cons. rewrite <- str_app_cons.
    cbn [all_chars] in Ht. apply andb_prop in Ht as [Hb Ht'].
    apply negb_true_iff in Hb. rewrite Hb.
    rewrite IH; [done| |done]. cbn [all_chars]. by rewrite Hb.
Qed.

(** ** [in] and [split] with the separator [hex:] *)

Lemma startswith_app_long sep s t :
  (String.length sep ≤ String.length s)%nat →
  Py.startswith sep (s +:+ t) = Py.startswith sep s.
Proof.
  revert s. induction sep as [|a sep IH]; intros s Hlen; [done|].
  destruct s as [|b s]; [cbn in Hlen; lia|].
  rewrite str_app_cons. cbn [Py.startswith].
  destruct (Ascii.eqb a b); [|done]. apply IH. cbn in Hlen. lia.
Qed.

Lemma contains_cons sep c s :
  Py.contains sep (String c s)
  = Py.startswith sep (String c s) || Py.contains sep s.
Proof. reflexivity. Qed.

Lemma split_sep_from_skip sep u B :
  Py.split_sep_from sep (String.length u) (u +:+ B)
  = match B with
    | "" => [""]
    | _ => Py.split_sep_from sep 0 B
    end.
Proof.
  induction u as [|a u IH].
  - rewrite str_app_nil_l. by destruct B.
  - rewrite str_app_cons. cbn [String.length Py.split_sep_from]. exact IH.
Qed.

Lemma split_sep_from_absent sep s :
  sep ≠ "" → Py.contains sep s = false →
  Py.split_sep_from sep 0 s = [s].
Proof.
  intros Hsep. induction s as [|c s IH]; [done|].
  rewrite contains_cons. intros [Hst Hs]%orb_false_elim.
  cbn [Py.split_sep_from]. by rewrite Hst, IH.
Qed.

Lemma startswith_self sep B : Py.startswith sep (sep +:+ B) = true.
Proof.
  induction sep as [|x sep IH]; [done|].
  rewrite str_app_cons. cbn [Py.startswith]. by rewrite Ascii.eqb_refl.
Qed.

(** The first separator of a text. *)
Lemma split_sep_first sep A B :
  sep ≠ "" → no_match_inside sep (sep +:+ B) A = true →
  Py.contains sep B = false → B ≠ "" →
  Py.split_sep sep (A +:+ sep +:+ B) = [A; B].
Proof.
  intros Hsep HA HB HBne. unfold Py.split_sep.
  induction A as [|c A IH].
  - rewrite str_app_nil_l. destruct sep as [|x sep]; [done|].
    pose proof (startswith_self (String x sep) B) as Hself.
    rewrite str_app_cons in Hself |- *. cbn [Py.split_sep_from].
    rewrite Hself.
    replace (String.length (String x sep) - 1)%nat with (String.length sep)
      by (cbn [String.length]; lia).
    rewrite split_sep_from_skip. destruct B; [done|].
    by rewrite split_sep_from_absent.
  - cbn [no_match_inside] in HA.
    apply andb_prop in HA as [Hst%negb_true_iff HA].
    rewrite str_app_cons in Hst |- *. cbn [Py.split_sep_from].
    rewrite Hst. by rewrite IH.
Qed.

Lemma no_match_inside_app sep rest s t :
  no_match_inside sep rest (s +:+ t)
  = no_match_inside sep (t +:+ rest) s && no_match_inside sep rest t.
Proof.
  induction s as [|c s IH]; [by rewrite str_app_nil_l|].
  rewrite str_app_cons. cbn [no_match_inside].
  rewrite IH, <- !str_app_cons, str_app_assoc. by rewrite andb_assoc.
Qed.

(** No match starts at a character that is not the first of [sep]. *)
Lemma no_match_inside_chars x sep rest s :
  all_chars (λ c, negb (Ascii.eqb x c)) s = true →
  no_match_inside (String x sep) rest s = true.
Proof.
  induction s as [|c s IH]; [done|]. cbn [all_chars no_match_inside].
  intros [Hc%negb_true_iff Hs]%andb_prop.
  rewrite str_app_cons. cbn [Py.startswith]. by rewrite Hc, IH.
Qed.

(** A match of [hex:] does not run over a blank. *)
Lemma startswith_hex_blank u t :
  Py.startswith "hex:" (u +:+ String " " t) = Py.startswith "hex:" u.
Proof.
  destruct u as [|a [|b [|c [|d u]]]];
    rewrite ?str_app_cons, ?str_app_nil_l; cbn [Py.startswith];
    repeat match goal with
           | |- context [Ascii.eqb ?x ?y] =>
               first [is_var y; destruct (Ascii.eqb x y)
                     | change (Ascii.eqb x y) with false; cbv iota]
           end; reflexivity.
Qed.

Lemma no_match_inside_hex s t :
  Py.contains "hex:" s = false →
  no_match_inside "hex:" (String " " t) s = true.
Proof.
  induction s as [|c s IH]; [done|]. rewrite contains_cons.
  intros [Hst Hs]%orb_false_elim. cbn [no_match_inside].
  by rewrite startswith_hex_blank, Hst, IH.
Qed.

Lemma contains_chars x sep s :
  all_chars (λ c, negb (Ascii.eqb x c)) s = true →
  Py.contains (String x sep) s = false.
Proof.
  induction s as [|c s IH]; [done|]. cbn [all_chars].
  intros [Hc%negb_true_iff Hs]%andb_prop.
  rewrite contains_cons. cbn [Py.startswith]. by rewrite Hc, IH.
Qed.

Lemma contains_app_l sep s t :
  Py.startswith sep t = true → Py.contains sep (s +:+ t) = true.
Proof.
  intros Ht. induction s as [|c s IH].
  - rewrite str_app_nil_l. destruct t; unfold Py.contains;
      fold Py.contains; by rewrite Ht.
  - rewrite str_app_cons, contains_cons, IH. apply orb_true_r.
Qed.

End Records.

Section ReadBack.
Import Assembler Pipeline Scheduler Terms.

Lemma hex_digit_plain c :
  Py.is_digit 16 c = true →
  Py.isspace c = false ∧ Ascii.eqb "h" c = false.
Proof. each_char c; vm_compute; first [discriminate | done]. Qed.

Lemma field_char_plain c :
  field_char c = true → Ascii.eqb "h" c = false.
Proof. each_char c; vm_compute; first [discriminate | done]. Qed.

Lemma lstrip_nonspace c r t :
  Py.isspace c = false → Py.lstrip (String c r +:+ t) = String c r +:+ t.
Proof. intros Hc. rewrite str_app_cons. by apply lstrip_plain. Qed.

(** [strip] of a text that starts and ends with a visible character,
    followed by whitespace. *)
Lemma strip_visible c r z ws :
  Py.isspace c = false → Py.isspace z = false →
  all_chars Py.isspace ws = true →
  Py.strip ((String c r +:+ String z "") +:+ ws) = String c r +:+ String z "".
Proof.
  intros Hc Hz Hws. unfold Py.strip.
  rewrite str_app_assoc, lstrip_nonspace by done.
  rewrite <- str_app_assoc, rstrip_app_spaces by done.
  by apply rstrip_last.
Qed.

Lemma str_app_regroup (a b c d e f : string) :
  a +:+ b +:+ c +:+ (d +:+ e +:+ f) = (a +:+ b +:+ c +:+ d) +:+ e +:+ f.
Proof. by rewrite !str_app_assoc. Qed.

Lemma str_app_last (a b c d e f g : string) :
  a +:+ b +:+ c +:+ d +:+ e +:+ (f +:+ g)
  = (a +:+ b +:+ c +:+ d +:+ e +:+ f) +:+ g.
Proof. by rewrite !str_app_assoc. Qed.

Lemma record_text_parts line w hex :
  record_text line w hex
  = (line +:+ " --> [ binary: " +:+ w +:+ ", ") +:+ "hex:"
    +:+ (" " +:+ hex +:+ " ]").
Proof.
  exact (str_app_regroup line " --> [ binary: " w ", " "hex:"
           (" " +:+ hex +:+ " ]")).
Qed.

Lemma record_text_ends line w hex c r :
  line = String c r →
  record_text line w hex
  = String c (r +:+ " --> [ binary: " +:+ w +:+ ", hex: " +:+ hex +:+ " ")
    +:+ "]".
Proof.
  intros ->.
  exact (str_app_last (String c r) " --> [ binary: " w ", hex: " hex " " "]").
Qed.

Lemma read_line_record line w hex :
  line ≠ "" → Py.strip line = line → Py.contains "hex:" line = false →
  all_chars field_char w = true → is_hex_word hex = true →
  read_line (record_text line w hex +:+ newline)
  = OK (Some (record_text line w hex, hex)).
Proof.
  intros Hne Hstrip Hline Hw Hhex.
  destruct line as [|c r] eqn:Hl; [done|]. rewrite <- Hl in *.
  assert (Py.isspace c = false) as Hc.
  { apply (strip_first line c r). by rewrite Hstrip. }
  unfold is_hex_word in Hhex. apply andb_prop in Hhex as [Hlen Hdigits].
  destruct hex as [|h0 hex']; [discriminate|].
  set (hex := String h0 hex') in *.
  assert (all_chars (λ c, negb (Py.isspace c)) hex = true) as Hvis.
  { eapply all_chars_impl; [|exact Hdigits]. intros x Hx.
    by destruct (hex_digit_plain x Hx) as [-> _]. }
  assert (all_chars (λ c, negb (Ascii.eqb "h" c)) hex = true) as Hnoh.
  { eapply all_chars_impl; [|exact Hdigits]. intros x Hx.
    by destruct (hex_digit_plain x Hx) as [_ ->]. }
  assert (Py.isspace h0 = false) as Hh0.
  { cbn [all_chars] in Hvis. apply andb_prop in Hvis as [H0 _].
    by apply negb_true_iff. }
  unfold read_line.
  assert (Py.strip (record_text line w hex +:+ newline)
          = record_text line w hex) as ->.
  { rewrite (record_text_ends line w hex c r Hl).
    by apply strip_visible. }
  rewrite bool_decide_eq_false_2
    by (rewrite (record_text_ends line w hex c r Hl); done).
  set (A := line +:+ " --> [ binary: " +:+ w +:+ ", ").
  set (B := " " +:+ hex +:+ " ]").
  assert (record_text line w hex = A +:+ "hex:" +:+ B) as Hparts
    by apply record_text_parts.
  assert (Py.contains "hex:" (record_text line w hex) = true) as ->.
  { rewrite Hparts. apply contains_app_l, startswith_self. }
  assert (Py.split_sep "hex:" (record_text line w hex) = [A; B]) as ->.
  { rewrite Hparts. apply split_sep_first; [done| | |done].
    - unfold A. rewrite no_match_inside_app. apply andb_true_intro. split.
      + by apply no_match_inside_hex.
      + apply no_match_inside_chars. rewrite !all_chars_app.
        apply andb_true_intro. split; [reflexivity|].
        apply andb_true_intro. split; [|reflexivity].
        eapply all_chars_impl; [|exact Hw]. intros x Hx.
        by rewrite (field_char_plain x Hx).
    - unfold B. apply contains_chars. rewrite !all_chars_app.
      apply andb_true_intro. split; [reflexivity|].
      apply andb_true_intro. split; [exact Hnoh|reflexivity]. }
  cbn [lookup list_lookup]. rewrite of_option_Some, bind_OK_l.
  assert (Py.strip B = hex +:+ " ]") as ->.
  { unfold B, Py.strip.
    change (" " +:+ hex +:+ " ]") with (String " " (hex +:+ " ]")).
    cbn [Py.lstrip]. change (Py.isspace " ") with true. cbv iota.
    unfold hex at 1. rewrite lstrip_nonspace by done. fold hex.
    change (hex +:+ " ]") with (hex +:+ (" " +:+ String "]" "")).
    rewrite <- str_app_assoc. by apply rstrip_last. }
  change (hex +:+ " ]") with (hex +:+ String " " "]").
  rewrite split_token by done.
  reflexivity.
Qed.

End ReadBack.

Section ReadBackResults.
Import Assembler Pipeline Scheduler Terms.

(** X16.  The scheduler reads back what the assembler wrote: for an
    instruction text that is stripped, not empty and without [hex:], and
    a 32-bit word, the record written by the assembler's [main] is read
    by [read_instructions] as the record without its newline, paired
    with the 8 hex digits of the word. *)
Theorem record_read_back (line w : string) :
  line ≠ "" → Py.strip line = line → Py.contains "hex:" line = false →
  word_of 32 w →
  ∃ hex,
    record line w = OK (record_text line w hex +:+ newline)
    ∧ is_hex_word hex = true
    ∧ int16 hex = OK (word_number w)
    ∧ read_line (record_text line w hex +:+ newline)
      = OK (Some (record_text line w hex, hex)).
Proof.
  intros Hne Hstrip Hline Hw.
  destruct (hex_instruction_word w Hw) as (Hhex & Hword & Hint & _).
  cbv zeta in Hhex, Hword, Hint. fold (word_number w) in *.
  exists (Py.format_X 8 (word_number w)).
  split; [|split; [done|split; [done|]]].
  - unfold record. rewrite Hhex, bind_OK_l. f_equal.
    unfold record_text. by rewrite !str_app_assoc.
  - apply read_line_record; try done. apply Hw.
Qed.

Lemma record_read_back_witness :
  ∃ hex,
    record "add $1,$2,$3" "000000_00010_00011_00001_00000_100000"
      = OK (record_text "add $1,$2,$3"
              "000000_00010_00011_00001_00000_100000" hex +:+ newline)
    ∧ is_hex_word hex = true
    ∧ int16 hex
      = OK (word_number "000000_00010_00011_00001_00000_100000")
    ∧ read_line
        (record_text "add $1,$2,$3"
           "000000_00010_00011_00001_00000_100000" hex +:+ newline)
      = OK (Some (record_text "add $1,$2,$3"
                    "000000_00010_00011_00001_00000_100000" hex, hex)).
Proof.
  apply (record_read_back "add $1,$2,$3"
           "000000_00010_00011_00001_00000_100000").
  - discriminate.
  - vm_compute. reflexivity.
  - vm_compute. reflexivity.
  - split; vm_compute; reflexivity.
Defined.

End ReadBackResults.

(** * More results: literals *)

Section Literals.
Import Assembler Terms.

Lemma decimal_digit_lower c :
  Py.is_digit 10 c = true →
  Py.lower_char c = c ∧ Ascii.eqb "x" c = false.
Proof. each_char c; vm_compute; first [discriminate | done]. Qed.

Lemma hex_digit_first c :
  Py.is_digit 16 c = true → Ascii.eqb c "_" = false.
Proof. each_char c; vm_compute; first [discriminate | done]. Qed.

(** A decimal literal does not start like a hex literal. *)
Lemma decimal_no_prefix ds :
  all_chars (Py.is_digit 10) ds = true →
  Py.startswith "0x" (Py.lower ds) = false.
Proof.
  destruct ds as [|a [|b ds]]; [done| |].
  - cbn [Py.lower Py.startswith]. by destruct (Ascii.eqb _ _).
  - cbn [all_chars Py.lower Py.startswith].
    intros [_ [Hb _]%andb_prop]%andb_prop.
    destruct (decimal_digit_lower b Hb) as [-> ->].
    by destruct (Ascii.eqb _ _).
Qed.

(** The limit on the digits of a decimal literal. *)
Lemma too_long_decimal ds :
  all_chars (Py.is_digit 10) ds = true →
  Py.too_long 10 ds = (4300 <? String.length ds)%nat.
Proof.
  intros Hall. unfold Py.too_long, Py.max_str_digits.
  rewrite (digit_count_all 10 ds Hall).
  change (Py.binary_base 10) with false. cbn [negb andb].
  destruct (Nat.ltb_spec 4300 (String.length ds));
    [apply Z.ltb_lt | apply Z.ltb_ge]; lia.
Qed.

(** A minus sign before digits negates. *)
Lemma int_minus base c r :
  Py.is_digit base c = true →
  Py.int (String "-" (String c r)) base = Z.opp <$> Py.int (String c r) base.
Proof.
  intros Hc. destruct (digit_plain _ _ Hc) as (Hsp & _ & _ & Hsign).
  unfold Py.int. cbn [Py.skip_space].
  change (Py.int_isspace "-") with false. cbv iota.
  cbn [Py.skip_sign]. rewrite Hsp, Hsign.
  destruct (Py.first_is_digit _ _); [|done].
  destruct (Py.scan_digits _ _ _ _) as [[v rest]|]; [|done].
  destruct (Py.too_long _ _); [done|].
  by destruct (Py.skip_space rest).
Qed.

(** Digits beyond the limit are refused. *)
Lemma int_over_limit base s :
  all_chars (Py.is_digit base) s = true → Py.too_long base s = true →
  Py.int s base = None.
Proof.
  intros Hall Hlimit. destruct s as [|c s]; [done|].
  pose proof Hall as Hall'.
  cbn [all_chars] in Hall. apply andb_prop in Hall as [Hc Hs].
  destruct (digit_plain _ _ Hc) as (Hsp & Hus & Hpre & Hsign).
  unfold Py.int. cbn [Py.skip_space]. rewrite Hsp, Hsign.
  assert (Py.skip_prefix base (String c s) = String c s) as ->.
  { unfold Py.skip_prefix.
    destruct s as [|d s']; [each_char c; reflexivity|].
    cbn [all_chars] in Hs. apply andb_prop in Hs as [Hd _].
    destruct (digit_plain _ _ Hd) as (_ & _ & -> & _).
    each_char c; reflexivity. }
  cbn [Py.first_is_digit]. rewrite Hc.
  rewrite scan_digits_all by exact Hall'.
  by rewrite Hlimit.
Qed.

Lemma int_hex_prefix x hs :
  x = "x"%char ∨ x = "X"%char →
  hs ≠ "" → all_chars (Py.is_digit 16) hs = true →
  Py.int (String "0" (String x hs)) 16 = Some (digits_value 16 0 hs).
Proof.
  intros Hx Hne Hall. destruct hs as [|c r]; [done|].
  pose proof Hall as Hall'. cbn [all_chars] in Hall.
  apply andb_prop in Hall as [Hc _].
  pose proof (hex_digit_first c Hc) as Hus.
  unfold Py.int. cbn [Py.skip_space].
  change (Py.int_isspace "0") with false. cbv iota.
  change (Py.skip_sign (String "0" (String x (String c r))))
    with (false, String "0" (String x (String c r))).
  cbv beta iota zeta.
  assert (Py.skip_prefix 16 (String "0" (String x (String c r)))
          = String c r) as ->.
  { unfold Py.skip_prefix.
    assert (Py.prefix_letter 16 x = true) as ->
      by (destruct Hx as [-> | ->]; reflexivity).
    revert Hus. clear. each_char c; first [reflexivity | discriminate]. }
  cbn [Py.first_is_digit]. rewrite Hc.
  rewrite scan_digits_all by done.
  by rewrite (too_long_binary 16).
Qed.

End Literals.

Section LiteralResults.
Import Assembler Terms.

(** X17.  The literals [parse_immediate] takes: decimal digits, with a
    minus sign for a negative number, up to the 4300 digits that
    [int()] reads in base 10, and hex digits, however many, after [0x]
    or [0X].  A decimal literal of more digits is refused with a
    ValueError, with or without the sign, and so is a hex literal with
    a minus sign, whatever follows the prefix. *)
Theorem parse_immediate_literals (ds big hs t : string) :
  ds ≠ "" → all_chars (Py.is_digit 10) ds = true →
  (String.length ds ≤ 4300)%nat →
  all_chars (Py.is_digit 10) big = true →
  (4300 < String.length big)%nat →
  hs ≠ "" → all_chars (Py.is_digit 16) hs = true →
  parse_immediate ds = OK (digits_value 10 0 ds)
  ∧ parse_immediate ("-" +:+ ds) = OK (- digits_value 10 0 ds)
  ∧ parse_immediate big = Raise (ValueError_int big)
  ∧ parse_immediate ("-" +:+ big) = Raise (ValueError_int ("-" +:+ big))
  ∧ parse_immediate ("0x" +:+ hs) = OK (digits_value 16 0 hs)
  ∧ parse_immediate ("0X" +:+ hs) = OK (digits_value 16 0 hs)
  ∧ parse_immediate ("-0x" +:+ t) = Raise (ValueError_int ("-0x" +:+ t)).
Proof.
  intros Hds Hdec Hfits Hbig Hover Hhs Hhex.
  assert (Py.too_long 10 ds = false) as Hin.
  { rewrite too_long_decimal by done. apply Nat.ltb_ge. lia. }
  assert (Py.too_long 10 big = true) as Hout.
  { rewrite too_long_decimal by done. apply Nat.ltb_lt. lia. }
  split; [|split; [|split; [|split; [|split; [|split]]]]].
  - unfold parse_immediate, int10.
    by rewrite decimal_no_prefix, int_digits_in_limit.
  - destruct ds as [|c r]; [done|].
    pose proof Hdec as Hdec'. cbn [all_chars] in Hdec'.
    apply andb_prop in Hdec' as [Hc _].
    unfold parse_immediate, int10.
    change (Py.startswith "0x" (Py.lower ("-" +:+ String c r))) with false.
    cbv iota. change ("-" +:+ String c r) with (String "-" (String c r)).
    by rewrite int_minus, int_digits_in_limit.
  - unfold parse_immediate, int10.
    by rewrite decimal_no_prefix, int_over_limit.
  - destruct big as [|c r]; [cbn in Hover; lia|].
    pose proof Hbig as Hbig'. cbn [all_chars] in Hbig'.
    apply andb_prop in Hbig' as [Hc _].
    unfold parse_immediate, int10.
    change (Py.startswith "0x" (Py.lower ("-" +:+ String c r))) with false.
    cbv iota. change ("-" +:+ String c r) with (String "-" (String c r)).
    by rewrite int_minus, int_over_limit.
  - unfold parse_immediate.
    change (Py.startswith "0x" (Py.lower ("0x" +:+ hs))) with true.
    cbv iota. change ("0x" +:+ hs) with (String "0" (String "x" hs)).
    rewrite int_hex_prefix by auto. reflexivity.
  - unfold parse_immediate.
    change (Py.startswith "0x" (Py.lower ("0X" +:+ hs))) with true.
    cbv iota. change ("0X" +:+ hs) with (String "0" (String "X" hs)).
    rewrite int_hex_prefix by auto. reflexivity.
  - reflexivity.
Qed.

Lemma parse_immediate_literals_witness :
  parse_immediate "42" = OK (digits_value 10 0 "42")
  ∧ parse_immediate ("-" +:+ "42") = OK (- digits_value 10 0 "42")
  ∧ parse_immediate (Py.zeros 4301) = Raise (ValueError_int (Py.zeros 4301))
  ∧ parse_immediate ("-" +:+ Py.zeros 4301)
    = Raise (ValueError_int ("-" +:+ Py.zeros 4301))
  ∧ parse_immediate ("0x" +:+ "fF") = OK (digits_value 16 0 "fF")
  ∧ parse_immediate ("0X" +:+ "fF") = OK (digits_value 16 0 "fF")
  ∧ parse_immediate ("-0x" +:+ "10")
    = Raise (ValueError_int ("-0x" +:+ "10")).
Proof.
  apply (parse_immediate_literals "42" (Py.zeros 4301) "fF" "10").
  - discriminate.
  - vm_compute. reflexivity.
  - vm_compute. lia.
  - vm_compute. reflexivity.
  - assert ((4300 <? String.length (Py.zeros 4301))%nat = true) as H
      by (vm_compute; reflexivity).
    by apply Nat.ltb_lt.
  - discriminate.
  - vm_compute. reflexivity.
Defined.

End LiteralResults.

(** * More results: the conditional pseudo-branches *)

Section PseudoBranches.
Import Assembler Pipeline Scheduler Terms.

Lemma lowered_branch_fields branch a b ra rb label label_map A B x y cx cy op :
  [ra; rb; label] !! a = Some x → [ra; rb; label] !! b = Some y →
  registers !! x = Some cx → registers !! y = Some cy →
  branch ∈ ["beq"; "bne"] → opcodes !! branch = Some op →
  label_map !! label = Some A →
  lowered_branch branch a b [ra; rb; label] (Some label_map) (Some B)
  = OK (fields ["000000"; cx; cy; "11001"; "00000"; "101010"]
        +:+ newline
        +:+ fields [op; "11001"; "00000";
                    Py.format_b 16 (Z.land (A - B) 0xFFFF)]).
Proof.
  intros Ha Hb Hx Hy Hbr Ho HA.
  assert (label_map ≠ ∅) as Hne by (intros ->; by rewrite lookup_empty in HA).
  unfold lowered_branch, operand. rewrite Ha, Hb, !of_option_Some, !bind_OK_l.
  rewrite (assemble_r_type_registers "slt" temp_reg x y "11001" cx cy
             "101010" "000000");
    [|closed_not_elem|done|done|done|done|done|done].
  rewrite bind_OK_l. cbn [lookup list_lookup].
  rewrite of_option_Some, bind_OK_l.
  rewrite (assemble_i_type_branch branch temp_reg "$0" label label_map B
             "11001" "00000" op) by done.
  by rewrite HA, bind_OK_l.
Qed.

(** The two words of a lowered branch, as the scheduler reads them. *)
Lemma lowered_words_decoded cx cy op imm :
  bits 5 cx = true → bits 5 cy = true → bits 6 op = true →
  bits 16 imm = true →
  digits_value 2 0 op = 4 ∨ digits_value 2 0 op = 5 →
  let slt_word := fields ["000000"; cx; cy; "11001"; "00000"; "101010"] in
  let branch_word := fields [op; "11001"; "00000"; imm] in
  let nx := digits_value 2 0 cx in
  let ny := digits_value 2 0 cy in
  Py.splitlines (slt_word +:+ newline +:+ branch_word)
    = [slt_word; branch_word]
  ∧ word_number slt_word = (nx * 32 + ny) * 65536 + 25 * 2048 + 42
  ∧ word_number branch_word
    = ((digits_value 2 0 op * 32 + 25) * 32 + 0) * 65536
      + digits_value 2 0 imm
  ∧ ∃ hex1 hex2,
      hex_instruction slt_word = OK hex1
      ∧ hex_instruction branch_word = OK hex2
      ∧ is_special hex1 = OK false
      ∧ decode_mips hex1 = OK (Decoded TyR 0 (Some 42) {[nx; ny]} {[25]})
      ∧ is_special hex2 = OK true
      ∧ decode_mips hex2
        = OK (Decoded TyI (digits_value 2 0 op) None {[25; 0]} ∅).
Proof.
  intros Hx Hy Ho Hi Hop slt_word branch_word nx ny.
  pose proof (bits_value_range 5 cx Hx) as Hrx.
  pose proof (bits_value_range 5 cy Hy) as Hry.
  fold nx in Hrx. fold ny in Hry.
  destruct (r_type_word_decoded cx cy "11001" "00000" "101010"
              Hx Hy eq_refl eq_refl eq_refl)
    as (Hv1 & hex1 & Hhex1 & _ & Hsp1 & Hdec1).
  cbv zeta in Hv1, Hhex1, Hdec1. fold slt_word nx ny in Hv1, Hhex1, Hdec1.
  change (digits_value 2 0 "11001") with 25 in *.
  change (digits_value 2 0 "00000") with 0 in *.
  change (digits_value 2 0 "101010") with 42 in *.
  rewrite decide_False in Hdec1 by lia.
  rewrite bool_decide_eq_false_2 in Hdec1 by (rewrite elem_of_set3; lia).
  rewrite decide_False in Hdec1 by lia.
  destruct (i_type_word_decoded op "11001" "00000" imm Ho eq_refl eq_refl Hi
              ltac:(lia))
    as (hex2 & Hhex2 & _ & _ & Hsp2 & Hdec2).
  fold branch_word in Hhex2.
  change (digits_value 2 0 "11001") with 25 in *.
  change (digits_value 2 0 "00000") with 0 in *.
  rewrite bool_decide_eq_true_2 in Hsp2 by (rewrite elem_of_special; lia).
  rewrite bool_decide_eq_false_2 in Hdec2 by (rewrite elem_of_set2; lia).
  rewrite bool_decide_eq_true_2 in Hdec2 by (rewrite elem_of_set2; lia).
  assert (word_of 32 slt_word) as Hw1 by (by apply fields_r_type).
  assert (word_of 32 branch_word) as Hw2 by (by apply fields_i_type).
  split; [|split; [|split]].
  - rewrite splitlines_two by apply field_chars_one_line, Hw1.
    by rewrite (word_of_line 32) by (done || lia).
  - rewrite Hv1. lia.
  - unfold word_number, branch_word. by rewrite fields_i_value.
  - by exists hex1, hex2.
Qed.

End PseudoBranches.

Section PseudoBranchResults.
Import Assembler Pipeline Scheduler Terms.

(** X18.  How [blt], [bgt], [ble] and [bge] on two registers [a], [b]
    and a bound label are lowered: two words, first a [slt] into
    register 25 that compares [a] with [b] for [blt] and [bge] and [b]
    with [a] for [bgt] and [ble], then a branch on register 25 against
    register 0, [bne] for [blt] and [bgt], [beq] for [ble] and [bge],
    with the low 16 bits of the label's address minus the address given.
    The scheduler decodes the first as writing register 25 and the
    second, which it treats as special, as reading it. *)
Theorem pseudo_branch_lowering (opcode ra rb label : string)
    (label_map : gmap string Z) (A B na nb : Z) :
  opcode ∈ pseudo_branches →
  register_number ra = Some na → register_number rb = Some nb →
  label_map !! label = Some A →
  let nx := if bool_decide (opcode ∈ ["blt"; "bge"]) then na else nb in
  let ny := if bool_decide (opcode ∈ ["blt"; "bge"]) then nb else na in
  let op := if bool_decide (opcode ∈ ["blt"; "bgt"]) then 5 else 4 in
  ∃ slt_word branch_word hex1 hex2,
    assemble_instruction opcode [ra; rb; label] (Some label_map) (Some B)
      = OK (Some (slt_word +:+ newline +:+ branch_word))
    ∧ Py.splitlines (slt_word +:+ newline +:+ branch_word)
      = [slt_word; branch_word]
    ∧ word_number slt_word = (nx * 32 + ny) * 65536 + 25 * 2048 + 42
    ∧ word_number branch_word
      = ((op * 32 + 25) * 32 + 0) * 65536 + (A - B) `mod` 2 ^ 16
    ∧ hex_instruction slt_word = OK hex1
    ∧ hex_instruction branch_word = OK hex2
    ∧ is_special hex1 = OK false
    ∧ decode_mips hex1 = OK (Decoded TyR 0 (Some 42) {[nx; ny]} {[25]})
    ∧ is_special hex2 = OK true
    ∧ decode_mips hex2 = OK (Decoded TyI op None {[25; 0]} ∅).
Proof.
  intros Hop (ca & Ha & Hba & Hva & Hra)%register_number_Some
    (cb & Hb & Hbb & Hvb & Hrb)%register_number_Some HA nx ny op.
  destruct (format_b_masked (A - B)) as [Hbi Hvi].
  assert (∃ branch a b x y cx cy cop,
            assemble_instruction opcode [ra; rb; label] (Some label_map)
              (Some B)
            = Some <$> lowered_branch branch a b [ra; rb; label]
                         (Some label_map) (Some B)
            ∧ [ra; rb; label] !! a = Some x ∧ [ra; rb; label] !! b = Some y
            ∧ registers !! x = Some cx ∧ registers !! y = Some cy
            ∧ branch ∈ ["beq"; "bne"] ∧ opcodes !! branch = Some cop
            ∧ bits 5 cx = true ∧ bits 5 cy = true ∧ bits 6 cop = true
            ∧ digits_value 2 0 cx = nx ∧ digits_value 2 0 cy = ny
            ∧ digits_value 2 0 cop = op)
    as (branch & a & b & x & y & cx & cy & cop & Hasm & Hx & Hy & Hcx & Hcy
        & Hbr & Hcop & Hbx & Hby & Hbo & Hnx & Hny & Hno).
  { revert Hop. unfold pseudo_branches, nx, ny, op.
    rewrite !elem_of_cons, elem_of_nil. intros [->|[->|[->|[->|[]]]]].
    - exists "bne", 0%nat, 1%nat, ra, rb, ca, cb, "000101".
      repeat split; try done. apply (bool_decide_unpack _). by vm_compute.
    - exists "bne", 1%nat, 0%nat, rb, ra, cb, ca, "000101".
      repeat split; try done. apply (bool_decide_unpack _). by vm_compute.
    - exists "beq", 1%nat, 0%nat, rb, ra, cb, ca, "000100".
      repeat split; try done. apply (bool_decide_unpack _). by vm_compute.
    - exists "beq", 0%nat, 1%nat, ra, rb, ca, cb, "000100".
      repeat split; try done. apply (bool_decide_unpack _). by vm_compute. }
  assert (digits_value 2 0 cop = 4 ∨ digits_value 2 0 cop = 5) as Hcase
    by (rewrite Hno; unfold op; case_bool_decide; [right|left]; reflexivity).
  destruct (lowered_words_decoded cx cy cop _ Hbx Hby Hbo Hbi Hcase)
    as (Hlines & Hv1 & Hv2 & hex1 & hex2 & Hh1 & Hh2 & Hs1 & Hd1 & Hs2 & Hd2).
  rewrite Hnx, Hny in Hv1, Hd1. rewrite Hno in Hv2, Hd2. rewrite Hvi in Hv2.
  eexists _, _, hex1, hex2.
  split; [|split; [exact Hlines|split; [exact Hv1|split; [exact Hv2|
    split; [exact Hh1|split; [exact Hh2|split; [exact Hs1|split; [exact Hd1|
    split; [exact Hs2|exact Hd2]]]]]]]]].
  rewrite Hasm.
  by rewrite (lowered_branch_fields branch a b ra rb label label_map A B
                x y cx cy cop).
Qed.

Lemma pseudo_branch_lowering_witness :
  ∃ slt_word branch_word hex1 hex2,
    assemble_instruction "bgt" ["$3"; "$4"; "done"]
      (Some {["done" := 7]}) (Some 2)
      = OK (Some (slt_word +:+ newline +:+ branch_word))
    ∧ Py.splitlines (slt_word +:+ newline +:+ branch_word)
      = [slt_word; branch_word]
    ∧ word_number slt_word = (4 * 32 + 3) * 65536 + 25 * 2048 + 42
    ∧ word_number branch_word
      = ((5 * 32 + 25) * 32 + 0) * 65536 + (7 - 2) `mod` 2 ^ 16
    ∧ hex_instruction slt_word = OK hex1
    ∧ hex_instruction branch_word = OK hex2
    ∧ is_special hex1 = OK false
    ∧ decode_mips hex1 = OK (Decoded TyR 0 (Some 42) {[4; 3]} {[25]})
    ∧ is_special hex2 = OK true
    ∧ decode_mips hex2 = OK (Decoded TyI 5 None {[25; 0]} ∅).
Proof.
  apply (pseudo_branch_lowering "bgt" "$3" "$4" "done" {["done" := 7]}
           7 2 3 4).
  - apply (bool_decide_unpack _). vm_compute. exact I.
  - vm_compute. reflexivity.
  - vm_compute. reflexivity.
  - vm_compute. reflexivity.
Defined.

End PseudoBranchResults.

(** * More results: when the scheduler returns *)

Section Readable.
Import Scheduler Terms.
Local Open Scope nat_scope.

Lemma is_special_readable s : (∃ b, is_special s = OK b) ↔ readable s.
Proof.
  unfold is_special, readable. destruct (decide (s = "00000000")) as [->|].
  { split; [intros _; by eexists|eauto]. }
  unfold int16. destruct (Py.int s 16) as [v|].
  - rewrite of_option_Some, bind_OK_l. split; eauto.
  - split; [intros [b H]; discriminate H|intros [v H]; discriminate H].
Qed.

Lemma decode_mips_readable s : (∃ d, decode_mips s = OK d) ↔ readable s.
Proof.
  unfold decode_mips, readable. destruct (decide (s = "00000000")) as [->|].
  { split; [intros _; by eexists|eauto]. }
  unfold int16. destruct (Py.int s 16) as [v|].
  - rewrite of_option_Some, bind_OK_l. cbv zeta. split; [eauto|]. intros _.
    repeat first [case_decide | case_bool_decide]; eexists; reflexivity.
  - split; [intros [b H]; discriminate H|intros [v H]; discriminate H].
Qed.

Lemma safe_pair_readable a b :
  (∃ r, safe_pair a b = OK r) ↔ readable a ∧ readable b.
Proof.
  rewrite <- !decode_mips_readable. unfold safe_pair. split.
  - intros [r H]. ok_inv H. eauto.
  - intros [[da ->] [db ->]]. rewrite !bind_OK_l.
    destruct (truthy _); [eauto|]. destruct (truthy _); eauto.
Qed.

Lemma slot1_test_readable curr cand :
  readable curr → readable cand → ∃ b, slot1_test curr cand = OK b.
Proof.
  intros Hc Hd. unfold slot1_test.
  destruct (proj2 (is_special_readable cand) Hd) as [s ->].
  rewrite bind_OK_l. destruct s; cbn [negb]; [eauto|].
  apply (safe_pair_readable cand curr). done.
Qed.

Lemma readable_lookup instructions k line hex :
  readable_words instructions → instructions !! k = Some (line, hex) →
  readable hex.
Proof.
  unfold readable_words. rewrite Forall_forall. intros Hw Hk.
  apply (Hw (line, hex)). by eapply list_elem_of_lookup_2.
Qed.

Lemma find_candidate_readable test instructions used js :
  readable_words instructions →
  (∀ hex, readable hex → ∃ b, test hex = OK b) →
  Forall (λ j, j < length used ∧ j < length instructions) js →
  ∃ c, find_candidate test instructions used js = OK c.
Proof.
  intros Hw Htest. induction 1 as [|j js [Hju Hji] _ IH];
    cbn [find_candidate]; [eauto|].
  destruct (lookup_lt_is_Some_2 used j Hju) as [u ->].
  destruct (lookup_lt_is_Some_2 instructions j Hji) as [[line hex] Hj].
  rewrite of_option_Some, bind_OK_l. destruct u; cbn [negb]; [done|].
  rewrite Hj, of_option_Some, bind_OK_l.
  destruct (Htest hex) as [b ->]; [by eapply readable_lookup|].
  rewrite bind_OK_l. destruct b; eauto.
Qed.

Lemma schedule_step_readable instructions i used packets :
  readable_words instructions →
  length used = length instructions → i < length instructions →
  ∃ used' packets',
    schedule_step instructions (length instructions) i (used, packets)
      = OK (used', packets')
    ∧ length used' = length instructions.
Proof.
  intros Hw Hlen Hi. unfold schedule_step.
  destruct (lookup_lt_is_Some_2 used i) as [u ->]; [lia|].
  rewrite of_option_Some, bind_OK_l. destruct u; [eauto|].
  destruct (lookup_lt_is_Some_2 instructions i Hi) as [[line hex] Hl].
  rewrite Hl, of_option_Some, bind_OK_l.
  pose proof (readable_lookup _ _ _ _ Hw Hl) as Hhex.
  assert (Forall (λ j, j < length used ∧ j < length instructions)
            (range_after i (length instructions))) as Hrange.
  { apply Forall_forall. intros j Hj%elem_of_range_after. lia. }
  destruct (proj2 (is_special_readable hex) Hhex) as [sp ->].
  rewrite bind_OK_l. destruct sp.
  - destruct (find_candidate_readable (slot1_test hex) instructions used _ Hw
                (λ h, slot1_test_readable hex h Hhex) Hrange) as [c Hc].
    rewrite Hc, bind_OK_l. pose proof Hc as Hc'. destruct c as [j|].
    + apply find_candidate_Some in Hc' as (_ & _ & cl & ch & -> & _).
      rewrite of_option_Some, bind_OK_l. do 2 eexists. split; [done|].
      by rewrite !length_insert.
    + do 2 eexists. split; [done|]. by rewrite length_insert.
  - destruct (find_candidate_readable (safe_pair hex) instructions used _ Hw
                (λ h Hh, proj2 (safe_pair_readable hex h) (conj Hhex Hh))
                Hrange) as [c Hc].
    rewrite Hc, bind_OK_l. pose proof Hc as Hc'. destruct c as [j|].
    + apply find_candidate_Some in Hc' as (_ & _ & cl & ch & -> & _).
      rewrite of_option_Some, bind_OK_l. do 2 eexists. split; [done|].
      by rewrite !length_insert.
    + do 2 eexists. split; [done|]. by rewrite length_insert.
Qed.

Lemma schedule_loop_readable instructions len i used packets :
  readable_words instructions →
  length used = length instructions → i + len ≤ length instructions →
  ∃ st, schedule_loop instructions (length instructions) (seq i len)
          (used, packets) = OK st.
Proof.
  intros Hw. revert i used packets.
  induction len as [|len IH]; intros i used packets Hlen Hi;
    cbn [seq schedule_loop]; [eauto|].
  destruct (schedule_step_readable instructions i used packets Hw Hlen)
    as (used' & packets' & -> & Hlen'); [lia|].
  rewrite bind_OK_l. apply IH; [done | lia].
Qed.

Lemma schedule_step_read instructions n i used packets used' packets' :
  read_so_far instructions used →
  schedule_step instructions n i (used, packets) = OK (used', packets') →
  read_so_far instructions used'
  ∧ used' !! i = Some true
  ∧ ∀ k, used !! k = Some true → used' !! k = Some true.
Proof.
  intros Hread H. unfold schedule_step in H.
  apply bind_OK in H as (u & Hu & H). apply of_option_OK in Hu.
  destruct u.
  { injection H as <- <-. done. }
  apply bind_OK in H as ([curr_line curr_hex] & Hi & H).
  apply of_option_OK in Hi.
  apply bind_OK in H as (sp & Hsp & H).
  assert (i < length used) as Hlt by (by eapply lookup_lt_Some).
  assert (readable (hex_of instructions i)) as Hri.
  { rewrite (hex_of_lookup _ _ _ _ Hi). apply is_special_readable. eauto. }
  assert (∀ j ch cl test,
            find_candidate test instructions used (range_after i n)
              = OK (Some j) →
            (∀ h, test h = OK true → readable h) →
            instructions !! j = Some (cl, ch) →
            j < length used ∧ readable (hex_of instructions j)) as Hcand.
  { intros j ch cl test Hc Htest Hj.
    apply find_candidate_Some in Hc as (_ & Huj & cl' & ch' & Hij & Ht).
    split; [by eapply lookup_lt_Some|].
    rewrite (hex_of_lookup _ _ _ _ Hij). by apply Htest. }
  assert (∀ h, slot1_test curr_hex h = OK true → readable h) as Hslot1.
  { intros h [Hns _]%slot1_test_true. apply is_special_readable. eauto. }
  assert (∀ h, safe_pair curr_hex h = OK true → readable h) as Hsafe.
  { intros h Hh. apply (safe_pair_readable curr_hex h). eauto. }
  destruct sp; apply bind_OK in H as (cand & Hc & H); destruct cand as [j|].
  - apply bind_OK in H as ([cl ch] & Hj%of_option_OK & H).
    injection H as <- <-.
    destruct (Hcand j ch cl _ Hc Hslot1 Hj) as [Hjl Hrj].
    split; [|split].
    + intros k. rewrite used_insert by (rewrite length_insert; lia).
      rewrite used_insert by lia. intros [->|[->|Hk]]; auto.
    + apply used_insert; [rewrite length_insert; lia | by left].
    + intros k Hk. apply used_insert; [rewrite length_insert; lia|].
      right. apply used_insert; [lia | by right].
  - injection H as <- <-. split; [|split].
    + intros k. rewrite used_insert by lia. intros [->|Hk]; auto.
    + apply used_insert; [lia | by left].
    + intros k Hk. apply used_insert; [lia | by right].
  - apply bind_OK in H as ([cl ch] & Hj%of_option_OK & H).
    injection H as <- <-.
    destruct (Hcand j ch cl _ Hc Hsafe Hj) as [Hjl Hrj].
    split; [|split].
    + intros k. rewrite used_insert by (rewrite length_insert; lia).
      rewrite used_insert by lia. intros [->|[->|Hk]]; auto.
    + apply used_insert; [rewrite length_insert; lia|].
      right. apply used_insert; [lia | by left].
    + intros k Hk. apply used_insert; [rewrite length_insert; lia|].
      right. apply used_insert; [lia | by right].
  - injection H as <- <-. split; [|split].
    + intros k. rewrite used_insert by lia. intros [->|Hk]; auto.
    + apply used_insert; [lia | by left].
    + intros k Hk. apply used_insert; [lia | by right].
Qed.

Lemma schedule_loop_read instructions n len i used packets used' packets' :
  read_so_far instructions used →
  schedule_loop instructions n (seq i len) (used, packets)
    = OK (used', packets') →
  read_so_far instructions used'
  ∧ (∀ k, used !! k = Some true → used' !! k = Some true)
  ∧ ∀ k, i ≤ k < i + len → used' !! k = Some true.
Proof.
  revert i used packets.
  induction len as [|len IH]; intros i used packets Hread H;
    cbn [seq schedule_loop] in H.
  - injection H as <- <-. split; [done|]. split; [done|]. intros k Hk. lia.
  - apply bind_OK in H as ([used1 packets1] & Hstep & H).
    destruct (schedule_step_read _ _ _ _ _ _ _ Hread Hstep)
      as (Hread1 & Hi1 & Hmono1).
    destruct (IH _ _ _ Hread1 H) as (Hread' & Hmono' & Hall').
    split; [done|]. split; [auto|].
    intros k Hk. destruct (decide (k = i)) as [->|]; [auto|].
    apply Hall'. lia.
Qed.

End Readable.

Section ReadableResults.
Import Scheduler Terms.
Local Open Scope nat_scope.

(** X19.  The scheduler returns exactly when [int(x, 16)] accepts the
    hex field of every instruction: it reads every one of them, as an
    anchor or as a candidate, and nothing else can fail. *)
Theorem scheduler_returns_iff (instructions : list instruction) :
  (∃ packets, schedule_instructions_enhanced instructions = OK packets)
  ↔ readable_words instructions.
Proof.
  unfold schedule_instructions_enhanced. split.
  - intros [packets H]. apply bind_OK in H as ([used' packets'] & Hloop & _).
    assert (read_so_far instructions (replicate (length instructions) false))
      as Hstart by (intros k [? _]%lookup_replicate; done).
    destruct (schedule_loop_read _ _ _ _ _ _ _ _ Hstart Hloop)
      as (Hread & _ & Hall).
    apply Forall_lookup. intros k [line hex] Hk.
    specialize (Hread k (Hall k ltac:(apply lookup_lt_Some in Hk; lia))).
    by rewrite (hex_of_lookup _ _ _ _ Hk) in Hread.
  - intros Hw.
    destruct (schedule_loop_readable instructions (length instructions) 0
                (replicate (length instructions) false) [] Hw)
      as [st ->]; [apply length_replicate | lia |].
    rewrite bind_OK_l. eauto.
Qed.

End ReadableResults.

(** * More results: the scheduler on the assembler's file *)

Section EndToEnd.
Import Assembler Pipeline Scheduler Terms.

Lemma plain_record_read item :
  plain_record item →
  record (fst item) (snd item)
    = OK (record_text (fst item) (snd item) (snd (read_entry item))
          +:+ newline)
  ∧ is_hex_word (snd (read_entry item)) = true
  ∧ read_line (record_text (fst item) (snd item) (snd (read_entry item))
               +:+ newline)
    = OK (Some (read_entry item)).
Proof.
  destruct item as [line w]. intros (Hne & Hstrip & Hline & Hw).
  cbn [fst snd] in *. unfold read_entry. cbn [fst snd].
  destruct (hex_instruction_word w Hw) as (Hhex & Hword & _ & _).
  cbv zeta in Hhex, Hword. fold (word_number w) in *.
  split; [|split; [done|]].
  - unfold record. rewrite Hhex, bind_OK_l. f_equal.
    unfold record_text. by rewrite !str_app_assoc.
  - apply read_line_record; try done. apply Hw.
Qed.

Lemma plain_records_read items :
  Forall plain_record items →
  ∃ lines,
    Forall2 (λ item raw, record (fst item) (snd item) = OK raw) items lines
    ∧ read_instructions lines = OK (map read_entry items)
    ∧ hex_words (map read_entry items).
Proof.
  induction 1 as [|item items Hitem _ (lines & Hrec & Hread & Hwords)].
  - exists []. split; [constructor|]. split; [done|constructor].
  - destruct (plain_record_read item Hitem) as (Hr & Hhex & Hline).
    eexists (_ :: lines). split; [constructor; [exact Hr|exact Hrec]|].
    split.
    + cbn [read_instructions map]. by rewrite Hline, bind_OK_l, Hread.
    + cbn [map]. constructor; [exact Hhex|exact Hwords].
Qed.

End EndToEnd.

Section EndToEndResults.
Import Assembler Pipeline Scheduler Terms.

(** X20.  The scheduler's [main] on a file of records the assembler
    wrote for 32-bit words, the instruction texts stripped, not empty
    and without [hex:]: every record is read, the scheduler returns, and
    [main] writes the packets, numbered from 1, between half as many as
    there are records and as many. *)
Theorem scheduler_main_on_records (items : list (string * string)) :
  items ≠ [] → Forall plain_record items →
  ∃ lines packets,
    Forall2 (λ item raw, record (fst item) (snd item) = OK raw) items lines
    ∧ read_instructions lines = OK (map read_entry items)
    ∧ schedule_instructions_enhanced (map read_entry items) = OK packets
    ∧ Scheduler.main lines = OK (Some (packets_text 1 packets))
    ∧ (length packets ≤ length items ≤ 2 * length packets)%nat.
Proof.
  intros Hne Hitems.
  destruct (plain_records_read items Hitems) as (lines & Hrec & Hread & Hw).
  destruct (schedule_total _ Hw) as [packets Hrun].
  exists lines, packets. split; [done|]. split; [done|]. split; [done|].
  split.
  - unfold Scheduler.main. rewrite Hread, bind_OK_l.
    destruct items as [|item items]; [done|]. cbn [map].
    cbn [map] in Hrun. by rewrite Hrun, bind_OK_l.
  - destruct (schedule_plan _ _ Hrun) as (plan & -> & Hperm & _ & Hwp).
    rewrite length_map. pose proof (plan_sizes _ _ Hwp) as Hs.
    by rewrite Hperm, length_seq, length_map in Hs.
Qed.

Lemma scheduler_main_on_records_witness :
  ∃ lines packets,
    Forall2 (λ item raw, record (fst item) (snd item) = OK raw)
      [("lw $3,0($2)", "100011_00010_00011_0000000000000000");
       ("add $5,$6,$7", "000000_00110_00111_00101_00000_100000")] lines
    ∧ read_instructions lines
      = OK (map read_entry
              [("lw $3,0($2)", "100011_00010_00011_0000000000000000");
               ("add $5,$6,$7", "000000_00110_00111_00101_00000_100000")])
    ∧ schedule_instructions_enhanced
        (map read_entry
           [("lw $3,0($2)", "100011_00010_00011_0000000000000000");
            ("add $5,$6,$7", "000000_00110_00111_00101_00000_100000")])
      = OK packets
    ∧ Scheduler.main lines = OK (Some (packets_text 1 packets))
    ∧ (length packets ≤ 2 ≤ 2 * length packets)%nat.
Proof.
  apply (scheduler_main_on_records
           [("lw $3,0($2)", "100011_00010_00011_0000000000000000");
            ("add $5,$6,$7", "000000_00110_00111_00101_00000_100000")]).
  - discriminate.
  - apply Forall_cons_2; [|apply Forall_cons_2; [|apply Forall_nil_2]];
      (split; [discriminate|]; split; [vm_compute; reflexivity|];
       split; [vm_compute; reflexivity|]; split; vm_compute; reflexivity).
Defined.

End EndToEndResults.

(** * More results: operands *)

Section Operands.
Import Assembler Terms.

Lemma operand_extra a b c extra k :
  (k < 3)%nat → operand (a :: b :: c :: extra) k = operand [a; b; c] k.
Proof.
  intros Hk. destruct k as [|[|[|k]]]; [reflexivity..|lia].
Qed.

Lemma assemble_r_type_extra opcode a b c extra :
  assemble_r_type opcode (a :: b :: c :: extra)
  = assemble_r_type opcode [a; b; c].
Proof. reflexivity. Qed.

Lemma assemble_i_type_extra opcode a b c extra label_map current_address :
  assemble_i_type opcode (a :: b :: c :: extra) label_map current_address
  = assemble_i_type opcode [a; b; c] label_map current_address.
Proof. reflexivity. Qed.

Lemma assemble_j_type_extra opcode a b c extra label_map :
  assemble_j_type opcode (a :: b :: c :: extra) label_map
  = assemble_j_type opcode [a; b; c] label_map.
Proof. reflexivity. Qed.

Lemma lowered_branch_extra branch x y a b c extra label_map current_address :
  (x < 3)%nat → (y < 3)%nat →
  lowered_branch branch x y (a :: b :: c :: extra) label_map current_address
  = lowered_branch branch x y [a; b; c] label_map current_address.
Proof.
  intros Hx Hy. unfold lowered_branch.
  rewrite (operand_extra a b c extra x), (operand_extra a b c extra y) by lia.
  reflexivity.
Qed.

End Operands.

Section OperandResults.
Import Assembler Terms.

(** X21.  Operands after the third are never looked at: whatever the
    mnemonic, a line with surplus operands is encoded, or fails, exactly
    as the line without them. *)
Theorem surplus_operands_ignored (opcode a b c : string)
    (extra : list string) (label_map : option (gmap string Z))
    (current_address : option Z) :
  assemble_instruction opcode (a :: b :: c :: extra) label_map current_address
  = assemble_instruction opcode [a; b; c] label_map current_address.
Proof.
  unfold assemble_instruction.
  rewrite !lowered_branch_extra by lia.
  rewrite assemble_r_type_extra, assemble_i_type_extra, assemble_j_type_extra.
  reflexivity.
Qed.

End OperandResults.

Section Tokens.
Import Assembler Terms.

Lemma split_Forall (p : ascii → bool) s :
  all_chars p s = true →
  Forall (λ t, t ≠ "" ∧ all_chars (λ c, p c && negb (Py.isspace c)) t = true)
    (Py.split s).
Proof.
  induction s as [|c s IH]; [constructor|].
  cbn [all_chars]. intros [Hc Hs]%andb_prop. specialize (IH Hs).
  cbn [Py.split]. destruct (Py.isspace c) eqn:Hsp; [done|].
  assert (all_chars (λ c, p c && negb (Py.isspace c)) (String c "") = true)
    as Hone by (cbn [all_chars]; by rewrite Hc, Hsp).
  destruct s as [|d s']; [by repeat constructor|].
  destruct (Py.isspace d); [by constructor|].
  destruct (Py.split (String d s')) as [|w ws]; [by repeat constructor|].
  apply Forall_cons in IH as [[_ Hw] Hws]. constructor; [|done].
  split; [done|]. cbn [all_chars]. by rewrite Hc, Hsp, Hw.
Qed.

Lemma split_nil s : Py.split s = [] ↔ all_chars Py.isspace s = true.
Proof.
  split; [|apply split_spaces].
  induction s as [|c s IH]; [done|]. cbn [Py.split all_chars].
  destruct (Py.isspace c) eqn:Hsp; [intros H; by rewrite IH|].
  destruct s as [|d s']; [done|].
  destruct (Py.isspace d); [done|].
  by destruct (Py.split (String d s')).
Qed.

Lemma blanked_no_comma s :
  all_chars (λ c, negb (Ascii.eqb c ",")) (blanked s) = true.
Proof.
  induction s as [|c s IH]; [done|]. cbn [Py.replace_char].
  destruct (Ascii.eqb c ",") eqn:Hc.
  - change (" " +:+ blanked s) with (String " " (blanked s)). exact IH.
  - cbn [all_chars]. by rewrite Hc, IH.
Qed.

Lemma blanked_all_spaces s :
  all_chars Py.isspace (blanked s)
  = all_chars (λ c, Ascii.eqb c "," || Py.isspace c) s.
Proof.
  induction s as [|c s IH]; [done|]. cbn [Py.replace_char all_chars].
  destruct (Ascii.eqb c ",") eqn:Hc.
  - change (" " +:+ blanked s) with (String " " (blanked s)).
    cbn [all_chars orb]. by rewrite IH.
  - cbn [all_chars orb]. by rewrite IH.
Qed.

Lemma lower_char_token c :
  token_char (Py.lower_char c) = token_char c
  ∧ Py.lower_char (Py.lower_char c) = Py.lower_char c.
Proof. each_char c; vm_compute; done. Qed.

Lemma lower_token t : token t → token (Py.lower t) ∧ Py.lower (Py.lower t) = Py.lower t.
Proof.
  intros [Hne Hall]. split; [split|].
  - by destruct t.
  - clear Hne. induction t as [|c t IH]; [done|].
    cbn [all_chars Py.lower] in *. apply andb_prop in Hall as [Hc Ht].
    destruct (lower_char_token c) as [-> _]. by rewrite Hc, IH.
  - clear. induction t as [|c t IH]; [done|]. cbn [Py.lower].
    destruct (lower_char_token c) as [_ ->]. by rewrite IH.
Qed.

End Tokens.

Section TokenResults.
Import Assembler Terms.

(** X22.  What [parse_instruction] returns: the mnemonic in lower case
    and the operands, each a non-empty text without comma or whitespace,
    so that commas and blanks separate operands alike; it fails, with an
    IndexError, exactly on a line of nothing but commas and whitespace. *)
Theorem parse_instruction_tokens (line : string) :
  match parse_instruction line with
  | OK (opcode, operands) =>
      Forall token (opcode :: operands) ∧ Py.lower opcode = opcode
      ∧ all_chars (λ c, Ascii.eqb c "," || Py.isspace c) line = false
  | Raise e =>
      e = IndexError_list
      ∧ all_chars (λ c, Ascii.eqb c "," || Py.isspace c) line = true
  end.
Proof.
  unfold parse_instruction.
  pose proof (split_Forall _ _ (blanked_no_comma line)) as Htok.
  pose proof (split_nil (blanked line)) as Hnil.
  rewrite blanked_all_spaces in Hnil.
  destruct (Py.split (blanked line)) as [|p0 parts].
  - cbn. split; [done|]. by apply Hnil.
  - cbn [lookup list_lookup]. rewrite of_option_Some, bind_OK_l.
    apply Forall_cons in Htok as [Hp0 Hparts].
    destruct (lower_token p0 Hp0) as [Hlow Hidem].
    split; [|split; [done|]].
    + cbn [drop]. constructor; [done|done].
    + destruct (all_chars _ line); [|done].
      discriminate (proj2 Hnil eq_refl).
Qed.

End TokenResults.

Section LabelComment.
Import Assembler Pipeline Terms.

Lemma blanked_plain s :
  all_chars (λ c, negb (Ascii.eqb c ",")) s = true → blanked s = s.
Proof.
  induction s as [|c s IH]; [done|]. cbn [all_chars Py.replace_char].
  intros [Hc%negb_true_iff Hs]%andb_prop. by rewrite Hc, IH.
Qed.

Lemma split_single t :
  all_chars (λ c, negb (Py.isspace c)) t = true → t ≠ "" →
  Py.split t = [t].
Proof.
  induction t as [|a t IH]; [done|]. cbn [all_chars].
  intros [Ha%negb_true_iff Ht]%andb_prop _. cbn [Py.split]. rewrite Ha.
  destruct t as [|b t']; [done|].
  pose proof Ht as Ht'. cbn [all_chars] in Ht'.
  apply andb_prop in Ht' as [Hb%negb_true_iff _]. rewrite Hb.
  by rewrite IH.
Qed.

Lemma mnemonics_no_colon opcode :
  opcode ∈ mnemonics → Py.endswith_char ":" opcode = false.
Proof.
  intros H%list_elem_of_In.
  assert (forallb (λ o, negb (Py.endswith_char ":" o)) mnemonics = true)
    as Hall by (vm_compute; reflexivity).
  rewrite forallb_forall in Hall. by apply negb_true_iff, Hall.
Qed.

Lemma label_char_parts c :
  label_char c = true →
  Py.isspace c = false ∧ Ascii.eqb c "," = false ∧ Ascii.eqb c "#" = false
  ∧ Ascii.eqb "#" c = false.
Proof. each_char c; vm_compute; first [discriminate | done]. Qed.

(** A label and its colon: one token, without a comment sign. *)
Lemma label_text name :
  all_chars label_char name = true →
  let L := name +:+ ":" in
  all_chars (λ c, negb (Py.isspace c)) L = true
  ∧ all_chars (λ c, negb (Ascii.eqb c ",")) L = true
  ∧ Py.contains_char "#" L = false
  ∧ L ≠ ""
  ∧ Py.startswith "#" L = false.
Proof.
  intros Hname L. subst L. repeat split.
  - rewrite all_chars_app. apply andb_true_intro. split; [|done].
    eapply all_chars_impl; [|exact Hname]. intros c Hc.
    by destruct (label_char_parts c Hc) as (-> & _).
  - rewrite all_chars_app. apply andb_true_intro. split; [|done].
    eapply all_chars_impl; [|exact Hname]. intros c Hc.
    by destruct (label_char_parts c Hc) as (_ & -> & _).
  - rewrite contains_char_app. apply orb_false_intro; [|done].
    clear -Hname. induction name as [|c s IH]; [done|].
    cbn [all_chars Py.contains_char] in *.
    apply andb_prop in Hname as [Hc Hs].
    destruct (label_char_parts c Hc) as (_ & _ & -> & _). by apply IH.
  - by destruct name.
  - destruct name as [|c s]; [done|]. rewrite str_app_cons.
    cbn [all_chars] in Hname. apply andb_prop in Hname as [Hc _].
    destruct (label_char_parts c Hc) as (_ & _ & _ & Hh).
    cbn [Py.startswith]. by rewrite Hh.
Qed.

End LabelComment.

Section LabelCommentResults.
Import Assembler Pipeline Terms.

(** X23.  A label followed by a comment on its line is not a label.
    The line does not end in a colon, so the first pass counts it as an
    instruction and binds nothing, and the second pass takes the label
    and its colon for a mnemonic, which no branch of
    [assemble_instruction] knows: the run stops with an
    AttributeError. *)
Theorem label_with_comment (raw name comment : string)
    (labels m : gmap string Z) (pc : Z) (written : list string) :
  all_chars label_char name = true →
  Py.strip raw = (name +:+ ":") +:+ " #" +:+ comment →
  Py.endswith_char ":" (Py.strip raw) = false →
  first_pass_line (m, pc) raw = (m, pc + 1)
  ∧ instruction_text raw = Some (name +:+ ":")
  ∧ second_pass_line labels (pc, written) raw = Raise AttributeError_None.
Proof.
  intros Hname Hraw Hend.
  destruct (label_text name Hname) as (Hvis & Hnc & Hnh & Hne & Hst).
  cbv zeta in Hvis, Hnc, Hnh, Hne, Hst.
  set (L := name +:+ ":") in *.
  assert (Py.lower L ∉ mnemonics) as Hunknown.
  { intros Hin%mnemonics_no_colon. unfold L in Hin.
    rewrite lower_app in Hin.
    change (Py.lower ":") with (String ":" "") in Hin.
    by rewrite endswith_char_snoc in Hin. }
  assert (Py.startswith "#" (Py.strip raw) = false) as Hhash.
  { rewrite Hraw. destruct L as [|c r]; [done|].
    rewrite str_app_cons. cbn [Py.startswith] in Hst |- *.
    by destruct (Ascii.eqb "#" c). }
  assert (Py.strip raw ≠ "") as Hline.
  { rewrite Hraw. destruct L; [done|]. by rewrite str_app_cons. }
  assert (instruction_text raw = Some L) as Htext.
  { unfold instruction_text. rewrite Hend, Hhash. cbn [orb].
    rewrite bool_decide_eq_false_2 by done. rewrite Hraw.
    change (L +:+ " #" +:+ comment)
      with (L +:+ String " " (String "#" comment)).
    rewrite <- (str_app_nil_l (String "#" comment)).
    change (L +:+ String " " ("" +:+ String "#" comment))
      with (L +:+ (" " +:+ String "#" comment)).
    rewrite <- str_app_assoc.
    rewrite split_on_first_sep
      by (rewrite contains_char_app, Hnh; reflexivity).
    cbn [hd].
    assert (Py.strip (L +:+ " ") = L) as ->.
    { unfold Py.strip. destruct L as [|c r] eqn:HL; [done|].
      rewrite <- HL in *.
      assert (Py.isspace c = false) as Hc.
      { rewrite HL in Hvis. cbn [all_chars] in Hvis.
        apply andb_prop in Hvis as [Hc _]. by apply negb_true_iff. }
      rewrite HL at 1. rewrite lstrip_nonspace by done. rewrite <- HL.
      rewrite rstrip_app_spaces by done.
      unfold L. by apply rstrip_last. }
    by rewrite bool_decide_eq_false_2. }
  split; [|split; [done|]].
  - unfold first_pass_line. rewrite Hend, Hhash, Hraw.
    change (L +:+ " #" +:+ comment)
      with (L +:+ String " " (String "#" comment)).
    rewrite replace_char_app, (blanked_plain L Hnc).
    change (blanked (String " " (String "#" comment)))
      with (String " " (blanked (String "#" comment))).
    rewrite split_token by done.
    rewrite bool_decide_eq_false_2
      by (change (L +:+ String " " (String "#" comment))
            with (L +:+ " #" +:+ comment); by rewrite <- Hraw).
    cbn [negb andb].
    assert (is_pseudo_branch (Py.lower L) = false) as ->; [|done].
    apply bool_decide_eq_false. intros Hin. apply Hunknown.
    apply elem_of_mnemonics. by left; revert Hin;
      unfold pseudo_branches; rewrite !elem_of_cons; tauto.
  - unfold second_pass_line. rewrite Htext.
    unfold parse_instruction. rewrite (blanked_plain L Hnc).
    rewrite split_single by done. cbn [lookup list_lookup drop].
    rewrite of_option_Some, !bind_OK_l. cbv zeta.
    by rewrite (proj2 (assemble_instruction_None (Py.lower L) [] _ _)
                  Hunknown).
Qed.

Lemma label_with_comment_witness :
  first_pass_line (∅, 3) "loop: # top of the loop" = (∅, 3 + 1)
  ∧ instruction_text "loop: # top of the loop" = Some ("loop" +:+ ":")
  ∧ second_pass_line ∅ (3, []) "loop: # top of the loop"
    = Raise AttributeError_None.
Proof.
  apply (label_with_comment "loop: # top of the loop" "loop"
           " top of the loop" ∅ ∅ 3 []).
  - vm_compute. reflexivity.
  - vm_compute. reflexivity.
  - vm_compute. reflexivity.
Defined.

End LabelCommentResults.

Section BadOperands.
Import Assembler Terms.

Lemma register_number_None name :
  register_number name = None → register name = Raise (KeyError_registers name).
Proof.
  unfold register_number, register.
  by destruct (registers !! name).
Qed.

Lemma register_number_is_Some name :
  is_Some (register_number name) → ∃ code, register name = OK code.
Proof.
  unfold register_number, register. intros [n H].
  destruct (registers !! name) as [code|]; [eauto|done].
Qed.

End BadOperands.

Section BadOperandResults.
Import Assembler Terms.

(** X24.  How a three-register instruction fails.  The operands are
    looked up in order: the first of the three that is not a register
    name raises a KeyError naming it, whatever follows it; with fewer
    than three operands, all of them register names, the missing one
    raises an IndexError. *)
Theorem three_register_errors (opcode bad : string) (pre post : list string)
    (label_map : option (gmap string Z)) (current_address : option Z) :
  opcode ∈ three_register_mnemonics →
  (length pre < 3)%nat →
  Forall (λ r, is_Some (register_number r)) pre →
  (register_number bad = None →
   assemble_instruction opcode (pre ++ bad :: post) label_map current_address
   = Raise (KeyError_registers bad))
  ∧ assemble_instruction opcode pre label_map current_address
    = Raise IndexError_list.
Proof.
  intros Hop Hlen Hpre.
  destruct (three_register_tables opcode Hop)
    as (func & Hf & Ho & Hnsh & Hnjr & _).
  rewrite !assemble_instruction_r_type by eauto.
  unfold assemble_r_type.
  rewrite !bool_decide_eq_false_2 by done. rewrite !decide_False by done.
  destruct pre as [|r1 [|r2 [|r3 pre]]]; [| | |cbn in Hlen; lia].
  - split; [|reflexivity]. intros Hbad%register_number_None.
    cbn [app]. rewrite operand_0, !bind_OK_l. by rewrite Hbad.
  - apply Forall_cons in Hpre as [[c1 H1]%register_number_is_Some _].
    split.
    + intros Hbad%register_number_None. cbn [app].
      rewrite operand_0, operand_1, !bind_OK_l, H1, !bind_OK_l.
      by rewrite Hbad.
    + unfold operand. cbn [lookup list_lookup].
      rewrite of_option_Some, !bind_OK_l. fold (register r1).
      by rewrite H1.
  - apply Forall_cons in Hpre as [[c1 H1]%register_number_is_Some Hpre].
    apply Forall_cons in Hpre as [[c2 H2]%register_number_is_Some _].
    split.
    + intros Hbad%register_number_None. cbn [app].
      rewrite operand_0, operand_1, operand_2, !bind_OK_l, H1, !bind_OK_l,
        H2, !bind_OK_l.
      by rewrite Hbad.
    + unfold operand. cbn [lookup list_lookup].
      rewrite !of_option_Some, !bind_OK_l. fold (register r1) (register r2).
      by rewrite H1, !bind_OK_l, H2.
Qed.

Lemma three_register_errors_witness :
  assemble_instruction "add" (["$1"] ++ "$t0" :: ["$zero"]) None None
  = Raise (KeyError_registers "$t0")
  ∧ assemble_instruction "add" ["$1"] None None = Raise IndexError_list.
Proof.
  destruct (three_register_errors "add" "$t0" ["$1"] ["$zero"] None None)
    as [Hkey Hindex].
  - apply (bool_decide_unpack _). vm_compute. exact I.
  - cbn. lia.
  - apply Forall_cons_2; [eexists; vm_compute; reflexivity|apply Forall_nil_2].
  - split; [apply Hkey; vm_compute; reflexivity|exact Hindex].
Defined.

End BadOperandResults.

(** ** The model on concrete inputs *)

Example int_hex_word : Py.int "8C430004" 16 = Some 2353201156.
Proof. reflexivity. Qed.
Example int_prefix : Py.int "0x_1f" 16 = Some 31.
Proof. reflexivity. Qed.
Example int_bad_us : Py.int "1__0" 10 = None.
Proof. reflexivity. Qed.
Example int_neg : Py.int "-12" 10 = Some (-12).
Proof. reflexivity. Qed.
Example int_reg : Py.int "$3" 10 = None.
Proof. reflexivity. Qed.
Example format_b_5 : Py.format_b 5 3 = "00011".
Proof. reflexivity. Qed.
Example format_b_neg : Py.format_b 5 (-1) = "-0001".
Proof. reflexivity. Qed.
Example format_b_wide : Py.format_b 5 32 = "100000".
Proof. reflexivity. Qed.
Example format_X_8 : Py.format_X 8 4393000 = "00430828".
Proof. reflexivity. Qed.
Example split_line : Py.split (Py.replace_char "," " " "add $1,$2, $3") = ["add"; "$1"; "$2"; "$3"].
Proof. reflexivity. Qed.
Example splitlines_pair : Py.splitlines (String "a" (String "010" (String "b" ""))) = ["a"; "b"].
Proof. reflexivity. Qed.
Example strip_ex : Py.strip "  a b  " = "a b".
Proof. reflexivity. Qed.
Example schedule_two_memory_ops :
  Scheduler.schedule_instructions_enhanced
    [("sw", "AC410000"); ("lw", "8C430000")]
  = OK [(Scheduler.nop_line, "sw"); (Scheduler.nop_line, "lw")].
Proof. vm_compute. reflexivity. Qed.
Example schedule_pull_forward :
  Scheduler.schedule_instructions_enhanced
    [("lw $3,0($2)", "8C430000"); ("add $4,$3,$3", "00632020");
     ("add $5,$6,$7", "00C72820")]
  = OK [("add $5,$6,$7", "lw $3,0($2)"); ("add $4,$3,$3", Scheduler.nop_line)].
Proof. vm_compute. reflexivity. Qed.
Example main_add :
  Pipeline.main ["add $1,$2,$3"]
  = OK ["add $1,$2,$3 --> [ binary: 000000_00010_00011_00001_00000_100000, hex: 00430820 ]"
        +:+ Assembler.newline].
Proof. vm_compute. reflexivity. Qed.
Example main_loop :
  Pipeline.main ["loop:"; "  addi $1,$1,1  # count"; "blt $1,$2,loop"; "j loop"]
  = OK [ "addi $1,$1,1 --> [ binary: 001000_00001_00001_0000000000000001, hex: 20210001 ]" +:+ Assembler.newline;
         "blt $1,$2,loop --> [ binary: 000000_00001_00010_11001_00000_101010, hex: 0022C82A ]" +:+ Assembler.newline;
         "blt $1,$2,loop --> [ binary: 000101_11001_00000_1111111111111110, hex: 1720FFFE ]" +:+ Assembler.newline;
         "j loop --> [ binary: 000010_00000000000000000000000000, hex: 08000000 ]" +:+ Assembler.newline ].
Proof. vm_compute. reflexivity. Qed.

Example decode_lw :
  Scheduler.decode_mips "8C430000"
  = OK (Scheduler.Decoded Scheduler.TyI 35 None {[2]} {[3]}).
Proof. vm_compute. reflexivity. Qed.

Example decode_nop :
  Scheduler.decode_mips "00000000"
  = OK (Scheduler.Decoded Scheduler.TyNop 0 None ∅ ∅).
Proof. reflexivity. Qed.

Example li_is_addi :
  Assembler.assemble_instruction "li" ["$5"; "10"] None None
  = Assembler.assemble_instruction "addi" ["$5"; "$0"; "10"] None None.
Proof. vm_compute. reflexivity. Qed.

Example move_is_add :
  Assembler.assemble_instruction "move" ["$3"; "$4"] None None
  = Assembler.assemble_instruction "add" ["$3"; "$4"; "$0"] None None.
Proof. vm_compute. reflexivity. Qed.

Example sllv_literal :
  Assembler.assemble_instruction "sllv" ["$1"; "$2"; "3"] None None
  = OK (Some "000000_00000_00010_00001_00011_000100").
Proof. vm_compute. reflexivity. Qed.

Example jump_literal_too_wide :
  Assembler.assemble_instruction "j" ["67108864"] None None
  = OK (Some "000010_100000000000000000000000000").
Proof. vm_compute. reflexivity. Qed.

Example branch_literal_without_labels :
  Assembler.assemble_instruction "beq" ["$1"; "$2"; "8"] (Some ∅) (Some 0)
  = OK (Some "000100_00010_00001_0000000000001000").
Proof. vm_compute. reflexivity. Qed.

Example unknown_mnemonic :
  Pipeline.main ["mul $1,$2,$3"] = Raise AttributeError_None.
Proof. vm_compute. reflexivity. Qed.

(** * Results: the scheduler *)

Section SchedulerResults.
Import Scheduler.

(** C1.  Whatever the input list, the packets the scheduler returns are
    those of a plan that places every input instruction once, and in every
    packet of it whose two slots both hold an input instruction [a] and
    [b], both words decode and neither's write set meets the other's read
    set. *)
Theorem packets_hazard_free (instructions : list instruction)
    (packets : list packet) :
  schedule_instructions_enhanced instructions = OK packets →
  ∃ plan,
    packets = map (emit instructions) plan
    ∧ flat_map members plan ≡ₚ seq 0 (length instructions)
    ∧ ∀ p a b, p ∈ plan → slot1 p = Some a → slot2 p = Some b →
        ∃ da db,
          decode_mips (hex_of instructions a) = OK da
          ∧ decode_mips (hex_of instructions b) = OK db
          ∧ writes da ∩ reads db = ∅
          ∧ writes db ∩ reads da = ∅.
Proof.
  intros (plan & Hpk & Hperm & _ & Hwp)%schedule_plan.
  exists plan. split; [done|]. split; [done|].
  intros p a b Hp Ha Hb. rewrite Forall_forall in Hwp.
  exact (wp_hazard _ _ (Hwp p Hp) a b Ha Hb).
Qed.

Lemma packets_hazard_free_witness :
  schedule_instructions_enhanced demo_input = OK demo_packets
  ∧ ∃ plan,
      demo_packets = map (emit demo_input) plan
      ∧ flat_map members plan ≡ₚ seq 0 (length demo_input)
      ∧ ∀ p a b, p ∈ plan → slot1 p = Some a → slot2 p = Some b →
          ∃ da db,
            decode_mips (hex_of demo_input a) = OK da
            ∧ decode_mips (hex_of demo_input b) = OK db
            ∧ writes da ∩ reads db = ∅
            ∧ writes db ∩ reads da = ∅.
Proof.
  split; [vm_compute; reflexivity|].
  apply (packets_hazard_free demo_input demo_packets).
  vm_compute; reflexivity.
Defined.

(** C2.  Whatever the input list, the scheduler places each input
    instruction in exactly one slot: the occupied slots of the plan behind
    the packets hold every input index once, so the instructions in them
    are the input list up to order.  The anchor of a packet is the
    earliest input instruction the packet holds, and the anchors come in
    input order: the packets follow one another as their earliest
    instructions do in the input. *)
Theorem every_instruction_placed_once (instructions : list instruction)
    (packets : list packet) :
  schedule_instructions_enhanced instructions = OK packets →
  ∃ plan,
    packets = map (emit instructions) plan
    ∧ flat_map members plan ≡ₚ seq 0 (length instructions)
    ∧ placed instructions plan ≡ₚ instructions
    ∧ Forall (λ p, anchor p ∈ members p
                   ∧ ∀ k, k ∈ members p → (anchor p ≤ k)%nat) plan
    ∧ StronglySorted lt (map anchor plan).
Proof.
  intros (plan & Hpk & Hperm & Hord & Hwp)%schedule_plan.
  exists plan. repeat split; try done.
  - by apply placed_all.
  - eapply Forall_impl; [exact Hwp|]. intros p Hp. split.
    + apply Hp.
    + apply (wp_later _ _ Hp).
Qed.

Lemma every_instruction_placed_once_witness :
  schedule_instructions_enhanced demo_input = OK demo_packets
  ∧ ∃ plan,
      demo_packets = map (emit demo_input) plan
      ∧ flat_map members plan ≡ₚ seq 0 (length demo_input)
      ∧ placed demo_input plan ≡ₚ demo_input
      ∧ Forall (λ p, anchor p ∈ members p
                     ∧ ∀ k, k ∈ members p → (anchor p ≤ k)%nat) plan
      ∧ StronglySorted lt (map anchor plan).
Proof.
  split; [vm_compute; reflexivity|].
  apply (every_instruction_placed_once demo_input demo_packets).
  vm_compute; reflexivity.
Defined.

(** C3.  In the plan behind the packets, slot1 never holds a special
    instruction; so in a packet that pairs a special instruction with one
    that is not, the special one is in slot2 and the other in slot1,
    whichever of the two is the anchor. *)
Theorem special_in_slot2 (instructions : list instruction)
    (packets : list packet) :
  schedule_instructions_enhanced instructions = OK packets →
  ∃ plan,
    packets = map (emit instructions) plan
    ∧ flat_map members plan ≡ₚ seq 0 (length instructions)
    ∧ ∀ p a b, p ∈ plan → slot1 p = Some a → slot2 p = Some b →
        (anchor p = a ∨ anchor p = b)
        ∧ is_special (hex_of instructions a) = OK false
        ∧ ∀ sa sb,
            is_special (hex_of instructions a) = OK sa →
            is_special (hex_of instructions b) = OK sb →
            sa ≠ sb → sa = false ∧ sb = true.
Proof.
  intros (plan & Hpk & Hperm & _ & Hwp)%schedule_plan.
  exists plan. split; [done|]. split; [done|].
  intros p a b Hp Ha Hb. rewrite Forall_forall in Hwp.
  destruct (Hwp p Hp) as [Hanchor _ Hslot1 _].
  split; [|split].
  - unfold members in Hanchor. rewrite Ha, Hb in Hanchor. cbn in Hanchor.
    apply elem_of_cons in Hanchor as [?|Hanchor]; [by left|].
    apply list_elem_of_singleton in Hanchor. by right.
  - by apply Hslot1.
  - intros sa sb Hsa Hsb Hne. rewrite (Hslot1 a Ha) in Hsa.
    injection Hsa as <-. by destruct sb.
Qed.

Lemma special_in_slot2_witness :
  schedule_instructions_enhanced demo_input = OK demo_packets
  ∧ ∃ plan,
      demo_packets = map (emit demo_input) plan
      ∧ flat_map members plan ≡ₚ seq 0 (length demo_input)
      ∧ ∀ p a b, p ∈ plan → slot1 p = Some a → slot2 p = Some b →
          (anchor p = a ∨ anchor p = b)
          ∧ is_special (hex_of demo_input a) = OK false
          ∧ ∀ sa sb,
              is_special (hex_of demo_input a) = OK sa →
              is_special (hex_of demo_input b) = OK sb →
              sa ≠ sb → sa = false ∧ sb = true.
Proof.
  split; [vm_compute; reflexivity|].
  apply (special_in_slot2 demo_input demo_packets).
  vm_compute; reflexivity.
Defined.

(** C10.  On 8-hex-digit words the two hazard predicates return the same
    boolean, and each returns it for the swapped pair as well. *)
Theorem hazard_predicates_agree (c s : string) :
  is_hex_word c = true → is_hex_word s = true →
  ∃ b : bool,
    can_schedule_in_slot1 c s = OK b ∧ safe_pair c s = OK b
    ∧ can_schedule_in_slot1 s c = OK b ∧ safe_pair s c = OK b.
Proof.
  intros Hc Hs. destruct (safe_pair_total c s Hc Hs) as [b Hb].
  exists b. rewrite !can_schedule_in_slot1_safe_pair.
  pose proof (safe_pair_sym_OK _ _ _ Hb). done.
Qed.

Lemma hazard_predicates_agree_witness :
  is_hex_word "8C430000" = true ∧ is_hex_word "00632020" = true
  ∧ ∃ b : bool,
      can_schedule_in_slot1 "8C430000" "00632020" = OK b
      ∧ safe_pair "8C430000" "00632020" = OK b
      ∧ can_schedule_in_slot1 "00632020" "8C430000" = OK b
      ∧ safe_pair "00632020" "8C430000" = OK b.
Proof.
  split; [reflexivity|]. split; [reflexivity|].
  apply (hazard_predicates_agree "8C430000" "00632020"); reflexivity.
Defined.

End SchedulerResults.

(** * Results: the encoder *)

Section EncoderResults.
Import Assembler Pipeline.

(** C5.  A [beq] or [bne] on two registers whose label is bound to [A],
    encoded at address [B], gives one 32-bit word whose low 16 bits are
    [(A - B) mod 2^16], whatever the integers [A] and [B]. *)
Theorem branch_immediate (opcode r1 r2 label : string)
    (label_map : gmap string Z) (A B : Z) :
  opcode ∈ ["beq"; "bne"] →
  is_Some (registers !! r1) → is_Some (registers !! r2) →
  label_map !! label = Some A →
  ∃ word v,
    assemble_instruction opcode [r1; r2; label] (Some label_map) (Some B)
      = OK (Some word)
    ∧ word_of 32 word
    ∧ word_value word = OK v
    ∧ 0 ≤ v < 2 ^ 32
    ∧ Z.land v 0xFFFF = (A - B) `mod` 2 ^ 16.
Proof.
  intros Hop [c1 H1] [c2 H2] HA.
  assert (label_map ≠ ∅) as Hne by (intros ->; by rewrite lookup_empty in HA).
  assert (∃ op, opcodes !! opcode = Some op) as [op Ho].
  { revert Hop. rewrite !elem_of_cons, elem_of_nil.
    intros [->|[->|[]]]; eexists; reflexivity. }
  pose proof (assemble_i_type_branch opcode r1 r2 label label_map B c1 c2 op
                Hop H1 H2 Ho Hne) as Hrun.
  rewrite HA in Hrun.
  pose proof (assemble_i_type_word _ _ _ _ _ Hrun) as Hw.
  destruct (word_value_bits 32 _ ltac:(lia) Hw) as [Hv Hrange].
  eexists _, _. split; [|split; [exact Hw|split; [exact Hv|split; [exact Hrange|]]]].
  - rewrite assemble_instruction_branch by done. by rewrite Hrun.
  - change 0xFFFF with (Z.ones 16). rewrite Z.land_ones by lia.
    destruct (format_b_masked (A - B)) as [Hbits Hval].
    rewrite i_type_low_bits; [done| | | |done].
    + by eapply opcode_lookup.
    + by apply register_lookup in H1 as (? & _).
    + by apply register_lookup in H2 as (? & _).
Qed.

Lemma branch_immediate_witness :
  ∃ word v,
    assemble_instruction "beq" ["$1"; "$2"; "loop"]
      (Some {["loop" := 0]}) (Some 2) = OK (Some word)
    ∧ word_of 32 word
    ∧ word_value word = OK v
    ∧ 0 ≤ v < 2 ^ 32
    ∧ Z.land v 0xFFFF = (0 - 2) `mod` 2 ^ 16.
Proof.
  apply (branch_immediate "beq" "$1" "$2" "loop" {["loop" := 0]} 0 2).
  - apply (bool_decide_unpack _). vm_compute. exact I.
  - eexists. vm_compute. reflexivity.
  - eexists. vm_compute. reflexivity.
  - vm_compute. reflexivity.
Defined.

(** Shift-by-register instructions take the path of the shifts by a
    literal: the third operand goes through [int()]. *)
Lemma shift_by_register_raises opcode r1 r2 r3 label_map current_address :
  opcode ∈ ["sllv"; "srlv"; "srav"] →
  is_Some (registers !! r1) → is_Some (registers !! r2) →
  is_Some (registers !! r3) →
  assemble_instruction opcode [r1; r2; r3] label_map current_address
  = Raise (ValueError_int r3).
Proof.
  intros Hop [c1 H1] [c2 H2] [c3 H3].
  apply register_lookup in H3 as (_ & _ & H3).
  assert (assemble_r_type opcode [r1; r2; r3] = Raise (ValueError_int r3)) as Hr.
  { unfold assemble_r_type.
    rewrite bool_decide_eq_true_2
      by (revert Hop; unfold shift_mnemonics; rewrite !elem_of_cons; tauto).
    rewrite operand_0, operand_1, !bind_OK_l.
    rewrite (register_Some _ _ H1), bind_OK_l, (register_Some _ _ H2), bind_OK_l.
    unfold shift_count. rewrite operand_2, bind_OK_l. unfold int10.
    by rewrite H3. }
  revert Hop Hr. rewrite !elem_of_cons, elem_of_nil.
  intros [->|[->|[->|[]]]] Hr; unfold assemble_instruction;
    cbn [decide]; by rewrite Hr.
Qed.

(** C6.  [sllv $1,$2,$3] is not encoded: its third operand is read as a
    shift count and [int("$3")] raises. *)
Theorem sllv_three_registers_raises
    (label_map : option (gmap string Z)) (current_address : option Z) :
  assemble_instruction "sllv" ["$1"; "$2"; "$3"] label_map current_address
  = Raise (ValueError_int "$3").
Proof.
  apply shift_by_register_raises.
  - apply (bool_decide_unpack _). vm_compute. exact I.
  - eexists. vm_compute. reflexivity.
  - eexists. vm_compute. reflexivity.
  - eexists. vm_compute. reflexivity.
Qed.

(** C7, as stated: the rendering of the word is not [00443820]. *)
Lemma add_hex_not_00443820 :
  ¬ (assemble_instruction "add" ["$1"; "$2"; "$3"] None None
       = OK (Some "000000_00010_00011_00001_00000_100000")
     ∧ hex_instruction "000000_00010_00011_00001_00000_100000"
       = OK "00443820").
Proof. intros [_ H]. vm_compute in H. discriminate H. Qed.

(** C7, amended.  [add $1,$2,$3] is encoded as
    [000000_00010_00011_00001_00000_100000], and the pipeline writes that
    word as [00430820]. *)
Theorem add_encoding
    (label_map : option (gmap string Z)) (current_address : option Z) :
  assemble_instruction "add" ["$1"; "$2"; "$3"] label_map current_address
    = OK (Some "000000_00010_00011_00001_00000_100000")
  ∧ hex_instruction "000000_00010_00011_00001_00000_100000" = OK "00430820"
  ∧ main ["add $1,$2,$3"]
    = OK ["add $1,$2,$3 --> [ binary: 000000_00010_00011_00001_00000_100000, hex: 00430820 ]"
          +:+ newline].
Proof.
  split; [|split]; [|vm_compute; reflexivity..].
  unfold assemble_instruction.
  repeat (destruct (decide _) as [Heq|_]; [discriminate Heq|]).
  reflexivity.
Qed.

(** Within the ranges of the fields the words have 32 binary digits:
    whatever the encoder accepts, its text holds one word, or two for
    [blt], [bgt], [ble] and [bge], and each word has exactly 32 binary
    digits between its underscores when the count of a shift lies in
    0..31 and the address of a jump in 0..2^26-1. *)
Lemma encoded_words_32_bits (opcode : string) (operands : list string)
    (label_map : option (gmap string Z)) (current_address : option Z)
    (text : string) :
  assemble_instruction opcode operands label_map current_address
    = OK (Some text) →
  (opcode ∈ shift_mnemonics →
   ∀ n, shift_count operands = OK n → 0 ≤ n < 32) →
  (opcode ∈ ["j"; "jal"] →
   ∀ a, jump_target operands label_map = OK a → 0 ≤ a < 2 ^ 26) →
  ∃ words,
    Py.splitlines text = words
    ∧ length words = (if is_pseudo_branch opcode then 2%nat else 1%nat)
    ∧ Forall (word_of 32) words.
Proof.
  intros H Hshift Hjump.
  assert (∀ w, word_of 32 w →
            ∃ words, Py.splitlines w = words ∧ length words = 1%nat
                     ∧ Forall (word_of 32) words) as Hone.
  { intros w Hw. exists [w]. rewrite (word_of_line 32) by (done || lia).
    split; [done|]. split; [done|].
    apply Forall_cons_2; [done|]. apply Forall_nil_2. }
  assert (∀ branch a b,
            Some <$> lowered_branch branch a b operands label_map current_address
              = OK (Some text) →
            ∃ words, Py.splitlines text = words ∧ length words = 2%nat
                     ∧ Forall (word_of 32) words) as Htwo.
  { intros branch a b Hl. apply fmap_OK in Hl as (t & Hl & [= <-]).
    apply lowered_branch_words in Hl
      as (w1 & w2 & target & _ & _ & _ & Hw1 & Hw2 & ->).
    exists [w1; w2]. split; [done|]. split; [done|].
    apply Forall_cons_2; [done|]. apply Forall_cons_2; [done|]. apply Forall_nil_2. }
  assert (∀ op ops w, op ∉ shift_mnemonics →
            assemble_r_type op ops = OK w → word_of 32 w) as Hr.
  { intros op ops w Hns Hl. apply assemble_r_type_word in Hl; [done|].
    by intros ?. }
  unfold assemble_instruction in H.
  destruct (decide (opcode = "nop")) as [->|?].
  { injection H as <-. apply Hone. split; vm_compute; reflexivity. }
  destruct (decide (opcode = "sgt")) as [->|?].
  { ok_inv H. injection H as ->. eapply Hone, Hr; [|done]. closed_not_elem. }
  destruct (decide (opcode = "move")) as [->|?].
  { ok_inv H. injection H as ->. eapply Hone, Hr; [|done]. closed_not_elem. }
  destruct (decide (opcode = "li")) as [->|?].
  { ok_inv H. injection H as ->. apply Hone. by eapply assemble_i_type_word. }
  destruct (decide (opcode = "blt")) as [->|?]; [by eapply Htwo|].
  destruct (decide (opcode = "bgt")) as [->|?]; [by eapply Htwo|].
  destruct (decide (opcode = "ble")) as [->|?]; [by eapply Htwo|].
  destruct (decide (opcode = "bge")) as [->|?]; [by eapply Htwo|].
  rewrite not_pseudo_branch by done.
  destruct (bool_decide (is_Some (func_codes !! opcode))).
  { apply fmap_OK in H as (t & Hl & [= <-]). apply Hone.
    by eapply assemble_r_type_word. }
  destruct (bool_decide (opcode ∈ i_type_mnemonics)).
  { apply fmap_OK in H as (t & Hl & [= <-]). apply Hone.
    by eapply assemble_i_type_word. }
  case_bool_decide as Hj; [|discriminate].
  apply fmap_OK in H as (t & Hl & [= <-]). apply Hone.
  eapply assemble_j_type_word; [done|]. by apply Hjump.
Qed.

(** C8.  The encoder checks neither the count of a shift nor the
    address of a jump, and the fields [format(n, '05b')] and
    [format(address, '026b')] grow with the number they hold:
    [sll $1,$2,32] and [j 67108864] are accepted, each gives one word of
    33 binary digits, and [main] writes them as [00041800] and
    [14000000], which the decoder of the scheduler reads as a shift of
    register 4 into register 3 and as a [bne]. *)
Theorem out_of_range_fields_overflow :
  assemble_instruction "sll" ["$1"; "$2"; "32"] None None
    = OK (Some "000000_00000_00010_00001_100000_000000")
  ∧ Py.splitlines "000000_00000_00010_00001_100000_000000"
    = ["000000_00000_00010_00001_100000_000000"]
  ∧ String.length (strip_us "000000_00000_00010_00001_100000_000000") = 33%nat
  ∧ ¬ word_of 32 "000000_00000_00010_00001_100000_000000"
  ∧ main ["sll $1,$2,32"]
    = OK ["sll $1,$2,32 --> [ binary: 000000_00000_00010_00001_100000_000000, hex: 00041800 ]"
          +:+ newline]
  ∧ Scheduler.decode_mips "00041800"
    = OK (Scheduler.Decoded Scheduler.TyR 0 (Some 0) {[4]} {[3]})
  ∧ assemble_instruction "j" ["67108864"] None None
    = OK (Some "000010_100000000000000000000000000")
  ∧ String.length (strip_us "000010_100000000000000000000000000") = 33%nat
  ∧ ¬ word_of 32 "000010_100000000000000000000000000"
  ∧ main ["j 67108864"]
    = OK ["j 67108864 --> [ binary: 000010_100000000000000000000000000, hex: 14000000 ]"
          +:+ newline]
  ∧ Scheduler.decode_mips "14000000"
    = OK (Scheduler.Decoded Scheduler.TyI 5 None {[0; 0]} ∅)
  ∧ Scheduler.is_special "14000000" = OK true.
Proof.
  split; [vm_compute; reflexivity|]. split; [vm_compute; reflexivity|].
  split; [vm_compute; reflexivity|].
  split; [intros [_ H]; vm_compute in H; discriminate H|].
  split; [vm_compute; reflexivity|]. split; [vm_compute; reflexivity|].
  split; [vm_compute; reflexivity|]. split; [vm_compute; reflexivity|].
  split; [intros [_ H]; vm_compute in H; discriminate H|].
  split; [vm_compute; reflexivity|]. split; [vm_compute; reflexivity|].
  vm_compute. reflexivity.
Qed.

(** C9, as stated: with an empty label table the label is read as a
    number, and the failure is that of [int()], not of the table. *)
Lemma undefined_label_empty_table :
  assemble_instruction "beq" ["$1"; "$2"; "done"] (Some ∅) (Some 0)
    = Raise (ValueError_int "done")
  ∧ assemble_instruction "beq" ["$1"; "$2"; "done"] (Some ∅) (Some 0)
    ≠ Raise (KeyError_label_map "done").
Proof.
  assert (assemble_instruction "beq" ["$1"; "$2"; "done"] (Some ∅) (Some 0)
          = Raise (ValueError_int "done")) as H by (vm_compute; reflexivity).
  split; [exact H|]. rewrite H. discriminate.
Qed.

(** C9, amended.  With a label table that is not empty, a [beq] or [bne]
    on two registers, or one of [blt], [bgt], [ble], [bge] on two
    registers, whose label is not in the table raises the [KeyError] of
    the table lookup. *)
Theorem undefined_label_raises (opcode r1 r2 label : string)
    (label_map : gmap string Z) (B : Z) :
  label_map ≠ ∅ → label_map !! label = None →
  is_Some (registers !! r1) → is_Some (registers !! r2) →
  opcode ∈ ["beq"; "bne"] ++ pseudo_branches →
  assemble_instruction opcode [r1; r2; label] (Some label_map) (Some B)
  = Raise (KeyError_label_map label).
Proof.
  intros Hne Hnone [c1 H1] [c2 H2] [Hop|Hop]%elem_of_app.
  - rewrite assemble_instruction_branch by done.
    assert (∃ op, opcodes !! opcode = Some op) as [op Ho].
    { revert Hop. rewrite !elem_of_cons, elem_of_nil.
      intros [->|[->|[]]]; eexists; reflexivity. }
    rewrite (assemble_i_type_branch opcode r1 r2 label label_map B c1 c2 op)
      by done.
    by rewrite Hnone.
  - destruct (assemble_instruction_pseudo opcode [r1; r2; label]
                (Some label_map) (Some B) Hop) as (branch & a & b & Hbr & Hab & ->).
    assert (∃ op, opcodes !! branch = Some op) as [op Ho].
    { revert Hbr. rewrite !elem_of_cons, elem_of_nil.
      intros [->|[->|[]]]; eexists; reflexivity. }
    unfold lowered_branch.
    assert (∃ x y cx cy, operand [r1; r2; label] a = OK x
              ∧ operand [r1; r2; label] b = OK y
              ∧ registers !! x = Some cx ∧ registers !! y = Some cy)
      as (x & y & cx & cy & -> & -> & Hx & Hy).
    { destruct Hab as [[-> ->]|[-> ->]]; [by exists r1, r2, c1, c2
                                          | by exists r2, r1, c2, c1]. }
    rewrite !bind_OK_l.
    rewrite (assemble_r_type_registers "slt" temp_reg x y "11001" cx cy
               "101010" "000000"); [|closed_not_elem|done..].
    rewrite operand_2, !bind_OK_l.
    rewrite (assemble_i_type_branch branch temp_reg "$0" label label_map B
               "11001" "00000" op) by done.
    by rewrite Hnone.
Qed.

Lemma undefined_label_raises_witness :
  assemble_instruction "blt" ["$1"; "$2"; "done"]
    (Some {["loop" := 0]}) (Some 3)
  = Raise (KeyError_label_map "done").
Proof.
  apply (undefined_label_raises "blt" "$1" "$2" "done" {["loop" := 0]} 3).
  - intros H. apply (f_equal (λ m : gmap string Z, m !! "loop")) in H.
    vm_compute in H. discriminate H.
  - vm_compute. reflexivity.
  - eexists. vm_compute. reflexivity.
  - eexists. vm_compute. reflexivity.
  - apply (bool_decide_unpack _). vm_compute. exact I.
Defined.

End EncoderResults.

(** * Results: the two passes *)

Section PipelineResults.
Import Assembler Pipeline.

(** C4.  Wherever the second pass stands after some lines, its address
    is the number of records written so far and the counter of the first
    pass after the same lines; and the next line is handled as
    [line_step] says: a conditional pseudo-branch is encoded at the
    address plus 1, which is where its branch word is written, and the
    address ends one past the address of encoding, for one word as for
    two. *)
Theorem second_pass_address (label_map : gmap string Z)
    (lines : list string) (pc : Z) (written : list string) :
  second_pass label_map lines (0, []) = OK (pc, written) →
  pc = Z.of_nat (length written)
  ∧ pc = snd (first_pass lines)
  ∧ ∀ raw pc' written',
      second_pass_line label_map (pc, written) raw = OK (pc', written') →
      line_step label_map pc written raw pc' written'.
Proof.
  intros H.
  assert (pc = Z.of_nat (length written)) as Hpc
    by (by eapply second_pass_counts).
  split; [done|]. split.
  - symmetry. unfold first_pass. by eapply first_pass_counter.
  - intros raw pc' written'. by apply second_pass_line_step.
Qed.

Lemma second_pass_address_witness :
  second_pass {["loop" := 0]} demo_lines (0, []) = OK (1, demo_written)
  ∧ 1 = Z.of_nat (length demo_written)
  ∧ 1 = snd (first_pass demo_lines)
  ∧ ∀ raw pc' written',
      second_pass_line {["loop" := 0]} (1, demo_written) raw
        = OK (pc', written') →
      line_step {["loop" := 0]} 1 demo_written raw pc' written'.
Proof.
  split; [vm_compute; reflexivity|].
  apply (second_pass_address {["loop" := 0]} demo_lines 1 demo_written).
  vm_compute. reflexivity.
Defined.

End PipelineResults.
